(** * The kodo storage driver: paginated listing, resumable writer,
      error translation and cache invalidation.

    A shallow embedding of [registry/storage/driver/kodo] (the driver, its
    [writer] and the invalidation queue) and of the part assembly of the
    segmented put in the [kodocli] uploader.  The remote provider is an
    interface (class [Provider]); every call made through it is recorded,
    together with its answer, in a trace carried by the state monad [M]. *)

From Stdlib Require Import String Ascii List ZArith Lia Bool DecimalString Permutation.
From Stdlib Require DecimalPos.
Import ListNotations.
Open Scope string_scope.
Open Scope list_scope.
Open Scope Z_scope.

(** ** Go's fixed-width integers *)

(** [int] and [int64] are 64-bit two's complement on the supported targets. *)
Definition wrap64 (z : Z) : Z := (z + 2 ^ 63) mod 2 ^ 64 - 2 ^ 63.

Definition int64_add (a b : Z) : Z := wrap64 (a + b).
Definition int64_mul (a b : Z) : Z := wrap64 (a * b).

(** [len(x)] as a Go [int]. *)
Definition len {A : Type} (l : list A) : Z := Z.of_nat (length l).

(** ** The fragment of Go's [strings] and [strconv] the driver uses *)

Module strings.

Fixpoint IndexByte (cutset : string) (c : ascii) : bool :=
  match cutset with
  | EmptyString => false
  | String x rest => if Ascii.eqb x c then true else IndexByte rest c
  end.

(** [strings.TrimLeft(s, cutset)]: drop leading bytes that are in [cutset]. *)
Fixpoint TrimLeft (s cutset : string) : string :=
  match s with
  | EmptyString => EmptyString
  | String c rest => if IndexByte cutset c then TrimLeft rest cutset else s
  end.

(** [strings.TrimRight(s, cutset)]: drop trailing bytes that are in [cutset]. *)
Fixpoint TrimRight (s cutset : string) : string :=
  match s with
  | EmptyString => EmptyString
  | String c rest =>
      match TrimRight rest cutset with
      | EmptyString => if IndexByte cutset c then EmptyString else String c EmptyString
      | kept => String c kept
      end
  end.

Definition HasPrefix (s pre : string) : bool := String.prefix pre s.

Fixpoint drop (n : nat) (s : string) : string :=
  match n, s with
  | O, _ => s
  | S _, EmptyString => EmptyString
  | S m, String _ rest => drop m rest
  end.

Fixpoint take (n : nat) (s : string) : string :=
  match n, s with
  | O, _ => EmptyString
  | S _, EmptyString => EmptyString
  | S m, String c rest => String c (take m rest)
  end.

Definition HasSuffix (s suf : string) : bool :=
  (String.length suf <=? String.length s)%nat
  && String.eqb (drop (String.length s - String.length suf) s) suf.

(** [strings.TrimSuffix(s, suf)]. *)
Definition TrimSuffix (s suf : string) : string :=
  if HasSuffix s suf then take (String.length s - String.length suf) s else s.

(** The leftmost occurrence of [old] in [s] replaced by [new]; [None] when
    [old] does not occur.  The empty [old] occurs at position 0. *)
Fixpoint replace_first (s old new : string) : option string :=
  if String.prefix old s then Some (new ++ drop (String.length old) s)%string
  else match s with
       | EmptyString => None
       | String c rest =>
           match replace_first rest old new with
           | Some r => Some (String c r)
           | None => None
           end
       end.

(** [strings.Replace(s, old, new, 1)]: the driver only ever asks for one
    replacement. *)
Definition Replace1 (s old new : string) : string :=
  if String.eqb old new then s
  else match replace_first s old new with
       | Some r => r
       | None => s
       end.

(** The last byte of a string, [s[len(s)-1]]; [None] is the index out of
    range of the empty string. *)
Fixpoint last_byte (s : string) : option ascii :=
  match s with
  | EmptyString => None
  | String c EmptyString => Some c
  | String _ rest => last_byte rest
  end.

End strings.

Module strconv.

(** [strconv.FormatInt(i, 10)], also what [%d] prints. *)
Definition FormatInt (i : Z) : string := NilZero.string_of_int (Z.to_int i).

End strconv.

(** ** Errors *)

(** What the provider SDK can hand back as an [error]. *)
Inductive sdk_error : Type :=
| ErrorInfo (Code : Z) (Err : string)      (* *rpc.ErrorInfo *)
| io_EOF                                   (* io.EOF *)
| net_error (msg : string).                (* any other error value *)

(** The errors that leave the driver. *)
Inductive error : Type :=
| PathNotFoundError (Path DriverName : string)
| Errorf (msg : string)                    (* fmt.Errorf / errors.New *)
| Sdk (e : sdk_error).

Definition sdk_error_eq_dec (a b : sdk_error) : {a = b} + {a <> b}.
Proof. decide equality; auto using Z.eq_dec, string_dec. Defined.

Definition error_eq_dec (a b : error) : {a = b} + {a <> b}.
Proof. decide equality; auto using sdk_error_eq_dec, string_dec. Defined.

(** A Go [(value, error)] pair of which exactly one side is meaningful. *)
Inductive result (A : Type) : Type :=
| Ok (a : A)
| Err (e : error).
Arguments Ok {A} a.
Arguments Err {A} e.

(** How a call ends: it returns, it panics, the iteration budget of the
    model is used up before the loop of the source ends, or it waits for
    good on a pipe that nobody reads. *)
Inductive run (A : Type) : Type :=
| Return (a : A)
| Panic (msg : string)
| Timeout
| Stuck.
Arguments Return {A} a.
Arguments Panic {A} msg.
Arguments Timeout {A}.
Arguments Stuck {A}.

Definition map_run {A C : Type} (f : A -> C) (r : run A) : run C :=
  match r with
  | Return a => Return (f a)
  | Panic msg => Panic msg
  | Timeout => Timeout
  | Stuck => Stuck
  end.

(** ** The provider interface *)

Record ListItem : Type := mkListItem {
  Key : string;
  Fsize : Z;
  PutTime : Z
}.

(** The four results of [Bucket.List]. *)
Record ListRet : Type := mkListRet {
  entries : list ListItem;
  commonPrefixes : list string;
  markerOut : string;
  listErr : option sdk_error
}.

(** An [io.Reader]: the bytes it yields until end of input, and whether it
    is also an [io.ReadSeeker] (the read end of a pipe is not).  For the
    read end of a pipe in a call that is recorded, [content] is what the
    call has read from it by the time it returns. *)
Record Reader : Type := mkReader {
  content : list Byte.byte;
  seeker : bool
}.

(** [PutPart]: a part is a local file, a reader, or a range of a stored key,
    looked at in that order. *)
Module PutPart.
Record t : Type := mk {
  FileName : string;
  R : option Reader;
  Crc32 : Z;
  CheckCrc : bool;
  Key : string;
  From : Z;                                (* [From, To); To == -1 means the end of file *)
  To : Z
}.
End PutPart.

Record Request : Type := mkRequest {
  Method : string;
  URL : string;
  Range : option string
}.

Record Response : Type := mkResponse {
  StatusCode : Z;
  Body : list Byte.byte
}.

Class Provider (B : Type) : Type := {
  bucket_List : B -> string -> string -> string -> Z -> B * ListRet;
  bucket_Delete : B -> string -> B * option sdk_error;
  bucket_Move : B -> string -> string -> bool -> B * option sdk_error;
  bucket_Put : B -> string -> list Byte.byte -> B * option sdk_error;
  bucket_PutParts : B -> string -> list PutPart.t -> B * option sdk_error;
  client_MakePrivateUrl : string -> Z -> string;
  http_NewRequest : string -> string -> option sdk_error;
  client_Do : B -> Request -> B * (Response + sdk_error);
  refresh_Get : B -> string -> B * option sdk_error;
  base64_URLEncoding : string -> string;
  FormatUint36 : Z -> string
}.

(** ** Observable calls *)

Inductive event : Type :=
| EvList (prefix delimiter marker : string) (limit : Z) (ret : ListRet)
| EvDelete (key : string) (ret : option sdk_error)
| EvMove (src dst : string) (force : bool) (ret : option sdk_error)
| EvPut (key : string) (content : list Byte.byte) (ret : option sdk_error)
| EvPutParts (key : string) (parts : list PutPart.t) (ret : option sdk_error)
| EvDo (req : Request) (ret : Response + sdk_error)
| EvGet (url : string) (ret : option sdk_error)
| EvRefresh (key : string).                (* a send on [refreshCh] *)

Record World (B : Type) : Type := mkWorld {
  remote : B;
  trace : list event
}.
Arguments mkWorld {B} remote trace.
Arguments remote {B} w.
Arguments trace {B} w.

(** The world after more calls: the provider in state [b], [evs] recorded. *)
Definition extend {B : Type} (w : World B) (b : B) (evs : list event) : World B :=
  {| remote := b; trace := trace w ++ evs |}.

(** ** A state monad over the world *)

Definition M (B A : Type) : Type := World B -> A * World B.

Definition ret {B A : Type} (a : A) : M B A := fun w => (a, w).

Definition bind {B A C : Type} (m : M B A) (k : A -> M B C) : M B C :=
  fun w => let (a, w') := m w in k a w'.

Notation "x <- m ;; k" := (bind m (fun x => k))
  (at level 61, m at next level, right associativity).

(** ** The driver *)

Module kodo.

Definition driverName : string := "kodo".
Definition listMax : Z := 1000.
Definition defaultExpiry : Z := 3600.

Record DriverParameters : Type := mkParams {
  Zone : Z;
  Bucket : string;
  BaseURL : string;
  RootDirectory : string;
  UserUid : Z;
  AdminAk : string;
  AdminSk : string;
  RefreshURL : string
}.

(** The [driver] struct.  The SDK handles ([bucket], [client], [refresh]) are
    the [Provider]; of the channel the struct keeps the capacity it was made
    with, and [workers] counts the [refreshWorker] goroutines started. *)
Record driver : Type := mkDriver {
  params : DriverParameters;
  refreshCh_cap : nat;
  workers : nat
}.

(** [for i := 0; i < 10; i++ { go d.refreshWorker() }] *)
Fixpoint spawn (n : nat) (running : nat) : nat :=
  match n with
  | O => running
  | S m => spawn m (S running)
  end.

Definition New (p : DriverParameters) : driver :=
  let root := strings.TrimRight (RootDirectory p) "/" in
  let base := if strings.HasSuffix (BaseURL p) "/" then BaseURL p
              else (BaseURL p ++ "/")%string in
  {| params := {| Zone := Zone p; Bucket := Bucket p; BaseURL := base;
                  RootDirectory := root; UserUid := UserUid p;
                  AdminAk := AdminAk p; AdminSk := AdminSk p;
                  RefreshURL := RefreshURL p |};
     refreshCh_cap := 100;
     workers := spawn 10 0 |}.

Definition getKey (d : driver) (path : string) : string :=
  strings.TrimLeft (RootDirectory (params d) ++ path) "/".

Definition is_code (c : Z) (err : option sdk_error) : bool :=
  match err with
  | Some (ErrorInfo code _) => Z.eqb code c
  | _ => false
  end.

Definition isKeyNotExists (err : option sdk_error) : bool := is_code 612 err.

Definition parseError (path : string) (err : option sdk_error) : option error :=
  match err with
  | Some (ErrorInfo code msg) =>
      if Z.eqb code 612 then Some (PathNotFoundError path driverName)
      else Some (Sdk (ErrorInfo code msg))
  | Some e => Some (Sdk e)
  | None => None
  end.

(** [if err != nil { if err != io.EOF { return err }; err = nil }]: the error
    a listing loop gives up on, if any. *)
Definition fatal (err : option sdk_error) : option sdk_error :=
  match err with
  | Some io_EOF => None
  | other => other
  end.

(** The [FileInfoFields] of a [Stat]; [ModTime] in nanoseconds since the
    epoch, [None] for the zero [time.Time]. *)
Record FileInfoFields : Type := mkFileInfo {
  Path : string;
  Size : Z;
  ModTime : option Z;
  IsDir : bool
}.

(** The [writer] struct.  [pipe] is [Some buf] while [rd]/[wt] are set, and
    [buf] is what the background task has read from the pipe.  [exitch]
    says whether the token of the task lies on the channel: the task sends
    it when it is done, which is when [PutParts] has returned, and [close]
    takes it off.  There is a token only while there is a pipe. *)
Record writer : Type := mkWriter {
  path : string;
  pipe : option (list Byte.byte);
  size : Z;
  from : Z;
  closed : bool;
  committed : bool;
  cancelled : bool;
  exitch : bool;
  err : option error
}.

Definition newFileWriter (path : string) (size : Z) : writer :=
  {| path := path; pipe := None; size := size; from := size;
     closed := false; committed := false; cancelled := false;
     exitch := false; err := None |}.

(** The background task runs beside the calls made on the session.  What it
    does while a [Write] runs is the scheduler's and the provider's choice:
    [PutParts] goes on reading the pipe; or it has returned by the time
    [Write] looks at [w.err]; or it returns while [Write] waits on the pipe,
    having read at most [taken] of the bytes offered and not all of them. *)
Inductive upload : Type :=
| Reading
| Returned
| Returns (taken : nat).

(** [errorInfo] gives the text of an error for the log.  Of the text the
    model keeps nothing; on a nil [err] the call of [err.Error()] is a
    method call on a nil interface value.  At every call site but the one
    in [Cancel] the argument has just been tested against nil. *)
Definition errorInfo (err : option error) : run unit :=
  match err with
  | Some _ => Return tt
  | None => Panic "runtime error: invalid memory address or nil pointer dereference"
  end.

Section Driver.

Context {B : Type} `{Provider B}.
Variable d : driver.

(** *** Calls through the SDK, recorded in the trace *)

Definition call_List (prefix delimiter marker : string) (limit : Z) : M B ListRet :=
  fun w =>
    let (b, r) := bucket_List (remote w) prefix delimiter marker limit in
    (r, {| remote := b; trace := trace w ++ [EvList prefix delimiter marker limit r] |}).

Definition call_Delete (key : string) : M B (option sdk_error) :=
  fun w =>
    let (b, r) := bucket_Delete (remote w) key in
    (r, {| remote := b; trace := trace w ++ [EvDelete key r] |}).

Definition call_Move (src dst : string) (force : bool) : M B (option sdk_error) :=
  fun w =>
    let (b, r) := bucket_Move (remote w) src dst force in
    (r, {| remote := b; trace := trace w ++ [EvMove src dst force r] |}).

Definition call_Put (key : string) (content : list Byte.byte) : M B (option sdk_error) :=
  fun w =>
    let (b, r) := bucket_Put (remote w) key content in
    (r, {| remote := b; trace := trace w ++ [EvPut key content r] |}).

Definition call_PutParts (key : string) (parts : list PutPart.t) : M B (option sdk_error) :=
  fun w =>
    let (b, r) := bucket_PutParts (remote w) key parts in
    (r, {| remote := b; trace := trace w ++ [EvPutParts key parts r] |}).

Definition call_Do (req : Request) : M B (Response + sdk_error) :=
  fun w =>
    let (b, r) := client_Do (remote w) req in
    (r, {| remote := b; trace := trace w ++ [EvDo req r] |}).

(** [refreshCache]: the send [d.refreshCh <- key], then [return] with the
    named result [err] still nil.  The send is recorded once it has gone
    through; what happens while the channel is full is the subject of
    [Module Invalidator]. *)
Definition refreshCache (key : string) : M B (option error) :=
  fun w => (None, {| remote := remote w; trace := trace w ++ [EvRefresh key] |}).

(** *** PutContent, Reader *)

Definition PutContent (path : string) (content : list Byte.byte) : M B (option error) :=
  e <- call_Put (getKey d path) content ;;
  match e with
  | None => refreshCache (getKey d path)
  | Some e => ret (Some (Sdk e))
  end.

Definition Reader (path : string) (offset : Z) : M B (result (list Byte.byte)) :=
  let baseURL := (BaseURL (params d) ++ getKey d path)%string in
  let url := client_MakePrivateUrl baseURL defaultExpiry in
  match http_NewRequest "GET" url with
  | Some e => ret (Err (Sdk e))
  | None =>
      let req := {| Method := "GET"; URL := url;
                    Range := if 0 <? offset
                             then Some ("bytes=" ++ strconv.FormatInt offset ++ "-")%string
                             else None |} in
      r <- call_Do req ;;
      match r with
      | inr e => ret (Err (Sdk e))
      | inl resp =>
          if StatusCode resp =? 404
          then ret (Err (PathNotFoundError path driverName))
          else ret (Ok (Body resp))
      end
  end.

(** *** Listing with retry *)

(** The loop [for i := 0; i < 2; i++] of [bucketlistWithRetry]; [last] holds
    the named results as the previous iteration left them. *)
Fixpoint bucketlistWithRetry_from (attempts : nat) (last : ListRet)
  (prefix delimiter marker : string) (limit : Z) : M B ListRet :=
  match attempts with
  | O => ret last
  | S n =>
      r <- call_List prefix delimiter marker limit ;;
      if is_code 599 (listErr r)
      then bucketlistWithRetry_from n r prefix delimiter marker limit
      else ret r
  end.

Definition bucketlistWithRetry (prefix delimiter marker : string) (limit : Z) : M B ListRet :=
  bucketlistWithRetry_from 2
    {| entries := []; commonPrefixes := []; markerOut := ""; listErr := None |}
    prefix delimiter marker limit.

(** *** Stat and Writer *)

Definition Stat (path : string) : M B (result FileInfoFields) :=
  r <- bucketlistWithRetry (getKey d path) "" "" 1 ;;
  match fatal (listErr r) with
  | Some e => ret (Err (Sdk e))
  | None =>
      match entries r with
      | [] => ret (Err (PathNotFoundError path driverName))
      | item :: _ =>
          if String.eqb (getKey d path) (Key item)
          then ret (Ok {| Path := path; Size := Fsize item;
                          ModTime := Some (int64_mul (PutTime item) 100);
                          IsDir := false |})
          else ret (Ok {| Path := path; Size := 0; ModTime := None; IsDir := true |})
      end
  end.

Definition Writer (path : string) (append : bool) : M B (result writer) :=
  if append then
    r <- Stat path ;;
    match r with
    | Err e =>
        if error_eq_dec e (PathNotFoundError path driverName)
        then ret (Ok (newFileWriter path 0))
        else ret (Err e)
    | Ok stat => ret (Ok (newFileWriter path (Size stat)))
    end
  else ret (Ok (newFileWriter path 0)).

(** *** List *)

(** The page loop of [List]: [files] and [directories] grow page by page,
    [marker] is the continuation marker carried into the next call. *)
Fixpoint List_pages (fuel : nat) (key rootPrefix marker : string)
  (files directories : list string)
  : M B (run (result (list string * list string))) :=
  match fuel with
  | O => ret Timeout
  | S fuel' =>
      r <- bucketlistWithRetry key "/" marker listMax ;;
      match fatal (listErr r) with
      | Some e => ret (Return (Err (Sdk e)))
      | None =>
          let files' :=
            files ++ map (fun item => strings.Replace1 (Key item) (getKey d "") rootPrefix)
                         (entries r) in
          let directories' :=
            directories ++ map (fun prefix =>
                                  strings.Replace1 (strings.TrimSuffix prefix "/")
                                                   (getKey d "") rootPrefix)
                               (commonPrefixes r) in
          if String.eqb (markerOut r) ""
          then ret (Return (Ok (files', directories')))
          else List_pages fuel' key rootPrefix (markerOut r) files' directories'
      end
  end.

Definition List (fuel : nat) (opath : string) : M B (run (result (list string))) :=
  if String.eqb opath "/" then
    (* path stays "/" *)
    let rootPrefix := if String.eqb (getKey d "") "" then "/" else "" in
    r <- List_pages fuel (getKey d "/") rootPrefix "" [] [] ;;
    match r with
    | Return (Ok (files, directories)) => ret (Return (Ok (files ++ directories)))
    | Return (Err e) => ret (Return (Err e))
    | Panic m => ret (Panic m)
    | Timeout => ret Timeout
    | Stuck => ret Stuck
    end
  else
    match strings.last_byte opath with
    | None => ret (Panic "index out of range")
    | Some c =>
        let path := if Ascii.eqb c "/"%char then opath else (opath ++ "/")%string in
        let rootPrefix := if String.eqb (getKey d "") "" then "/" else "" in
        r <- List_pages fuel (getKey d path) rootPrefix "" [] [] ;;
        match r with
        | Return (Ok (files, directories)) =>
            match files, directories with
            | [], [] => ret (Return (Err (PathNotFoundError opath driverName)))
            | _, _ => ret (Return (Ok (files ++ directories)))
            end
        | Return (Err e) => ret (Return (Err e))
        | Panic m => ret (Panic m)
        | Timeout => ret Timeout
        | Stuck => ret Stuck
        end
    end.

(** *** Move and Delete *)

Definition Move (sourcePath destPath : string) : M B (option error) :=
  e <- call_Move (getKey d sourcePath) (getKey d destPath) true ;;
  ret (parseError sourcePath e).

(** The inner loop of [Delete] over one page: [Some e] is the early
    [return err], [None] means the loop ran to its end. *)
Fixpoint Delete_items (items : list ListItem) : M B (option error) :=
  match items with
  | [] => ret None
  | item :: rest =>
      e <- call_Delete (Key item) ;;
      match e with
      | Some e =>
          if isKeyNotExists (Some e) then Delete_items rest
          else ret (Some (Sdk e))
      | None =>
          e1 <- refreshCache (Key item) ;;
          match e1 with
          | Some e1 => ret (Some e1)
          | None => Delete_items rest
          end
      end
  end.

(** The page loop of [Delete]; [cnt] counts the keys listed so far. *)
Fixpoint Delete_pages (fuel : nat) (path marker : string) (cnt : Z)
  : M B (run (option error)) :=
  match fuel with
  | O => ret Timeout
  | S fuel' =>
      r <- bucketlistWithRetry (getKey d path) "" marker listMax ;;
      match fatal (listErr r) with
      | Some e => ret (Return (Some (Sdk e)))
      | None =>
          let cnt' := int64_add cnt (len (entries r)) in
          if cnt' =? 0
          then ret (Return (Some (PathNotFoundError path driverName)))
          else
            e <- Delete_items (entries r) ;;
            match e with
            | Some e => ret (Return (Some e))
            | None =>
                if String.eqb (markerOut r) "" then ret (Return None)
                else Delete_pages fuel' path (markerOut r) cnt'
            end
      end
  end.

Definition Delete (fuel : nat) (path : string) : M B (run (option error)) :=
  Delete_pages fuel path "" 0.

(** *** The writer *)

(** [background]: the part list is a copy of [0, from) of the key when
    [from > 0], then the read end of the pipe.  The call of [PutParts] is
    recorded when it returns, with the bytes [stream] it has read from the
    pipe by then; [background] yields the value the task leaves in
    [w.err]. *)
Definition background_parts (key : string) (from : Z) (stream : list Byte.byte)
  : list PutPart.t :=
  (if 0 <? from
   then [ {| PutPart.FileName := ""; PutPart.R := None; PutPart.Crc32 := 0;
             PutPart.CheckCrc := false;
             PutPart.Key := key; PutPart.From := 0; PutPart.To := from |} ]
   else [])
  ++ [ {| PutPart.FileName := ""; PutPart.R := Some {| content := stream; seeker := false |};
          PutPart.Crc32 := 0; PutPart.CheckCrc := false;
          PutPart.Key := ""; PutPart.From := 0; PutPart.To := 0 |} ].

Definition background (w : writer) (stream : list Byte.byte) : M B (option error) :=
  let key := getKey d (path w) in
  e <- call_PutParts key (background_parts key (from w) stream) ;;
  match e with
  | Some e => ret (Some (Sdk e))
  | None => refreshCache key
  end.

(** The task is done, having read [stream] from the pipe: [w.err] holds
    what it assigned and its token lies on [exitch]. *)
Definition exits (w : writer) (stream : list Byte.byte) : M B writer :=
  e <- background w stream ;;
  ret {| path := path w; pipe := Some stream; size := size w; from := from w;
         closed := closed w; committed := committed w; cancelled := cancelled w;
         exitch := true; err := e |}.

(** The writer once [close] has joined the task: [wt] and [rd] are nil
    again, the token is off the channel and [w.err] holds what the task
    assigned. *)
Definition joined (w : writer) (e : option error) : writer :=
  {| path := path w; pipe := None; size := size w; from := from w;
     closed := closed w; committed := committed w; cancelled := cancelled w;
     exitch := false; err := e |}.

(** [close]: with the pipe open, end the stream, wait for the token of the
    background task and drop the pipe; otherwise nothing.  A task that is
    still reading meets the end of the stream and [PutParts] returns; a
    task that is done has left its token already. *)
Definition close (w : writer) : M B writer :=
  match pipe w with
  | Some stream =>
      e <- (if exitch w then ret (err w) else background w stream) ;;
      ret (joined w e)
  | None => ret w
  end.

(** [Write].  After the guards it reads [w.err], which the task may have
    set by then.  [w.wt.Write(p)] returns once the task has read all of
    [p], with [n = len(p)] and no error; when the task is done, or gets
    done before it has read all of [p], nobody reads the pipe any more and
    the call waits for good. *)
Definition Write (u : upload) (w : writer) (p : list Byte.byte)
  : M B (run (Z * option error) * writer) :=
  if closed w then ret (Return (0, Some (Errorf "already closed")), w)
  else if committed w then ret (Return (0, Some (Errorf "already committed")), w)
  else if cancelled w then ret (Return (0, Some (Errorf "already cancelled")), w)
  else
    w1 <- match u, pipe w, exitch w with
          | Returned, Some buf, false => exits w buf
          | _, _, _ => ret w
          end ;;
    match err w1 with
    | Some e => ret (Return (0, Some e), w1)
    | None =>
        let (buf, done) := match pipe w1 with
                           | Some buf => (buf, exitch w1)
                           | None => ([], false)   (* io.Pipe(); go w.background() *)
                           end in
        if done then ret (Stuck, w1)
        else
          match u with
          | Returns taken =>
              w2 <- exits w1 (buf ++ firstn (Nat.min taken (pred (length p))) p) ;;
              ret (Stuck, w2)
          | _ =>
              let n := len p in
              ret (Return (n, None),
                   {| path := path w1; pipe := Some (buf ++ p);
                      size := int64_add (size w1) n; from := from w1;
                      closed := closed w1; committed := committed w1;
                      cancelled := cancelled w1; exitch := exitch w1;
                      err := err w1 |})
          end
    end.

Definition Close (w : writer) : M B (option error * writer) :=
  if closed w then ret (Some (Errorf "already closed"), w)
  else
    w1 <- close w ;;
    match err w1 with
    | Some e => ret (Some e, w1)
    | None =>
        ret (None,
             {| path := path w1; pipe := pipe w1; size := size w1; from := from w1;
                closed := true; committed := committed w1;
                cancelled := cancelled w1; exitch := exitch w1; err := err w1 |})
    end.

(** [Cancel].  When [Delete] has failed, the line written to the log is
    made of [w.err], not of the error of [Delete]. *)
Definition Cancel (fuel : nat) (w : writer) : M B (run (option error) * writer) :=
  if closed w then ret (Return (Some (Errorf "already closed")), w)
  else if committed w then ret (Return (Some (Errorf "already committed")), w)
  else
    w1 <- close w ;;
    let w2 := {| path := path w1; pipe := pipe w1; size := size w1; from := from w1;
                 closed := closed w1; committed := committed w1;
                 cancelled := true; exitch := exitch w1; err := err w1 |} in
    r <- Delete fuel (path w2) ;;
    match r with
    | Return (Some e) => ret (map_run (fun _ => Some e) (errorInfo (err w2)), w2)
    | _ => ret (r, w2)
    end.

Definition Commit (w : writer) : M B (option error * writer) :=
  if closed w then ret (Some (Errorf "already closed"), w)
  else if committed w then ret (Some (Errorf "already committed"), w)
  else if cancelled w then ret (Some (Errorf "already cancelled"), w)
  else
    w1 <- close w ;;
    match err w1 with
    | Some e => ret (Some e, w1)
    | None =>
        ret (None,
             {| path := path w1; pipe := pipe w1; size := size w1; from := from w1;
                closed := closed w1; committed := true;
                cancelled := cancelled w1; exitch := exitch w1; err := err w1 |})
    end.

(** *** Sessions *)

(** The calls a client makes on a [writer], a [Write] together with what
    the background task does meanwhile, and a session as a sequence of
    them, each one on the writer the previous call left.  A client that
    makes its calls one after the other makes none after a call that does
    not return; a session goes on all the same, with the writer that call
    left. *)
Inductive call : Type :=
| CallWrite (u : upload) (p : list Byte.byte)
| CallClose
| CallCommit
| CallCancel.

Definition invoke (fuel : nat) (c : call) (w : writer)
  : M B (run (option error) * writer) :=
  match c with
  | CallWrite u p => r <- Write u w p ;; ret (map_run snd (fst r), snd r)
  | CallClose => r <- Close w ;; ret (Return (fst r), snd r)
  | CallCommit => r <- Commit w ;; ret (Return (fst r), snd r)
  | CallCancel => Cancel fuel w
  end.

Fixpoint session (fuel : nat) (cs : list call) (w : writer)
  : M B (list (run (option error)) * writer) :=
  match cs with
  | [] => ret ([], w)
  | c :: rest =>
      r <- invoke fuel c w ;;
      rs <- session fuel rest (snd r) ;;
      ret (fst r :: fst rs, snd rs)
  end.

End Driver.

End kodo.

(** ** Part assembly of the segmented put ([PutParts]) *)

Module part.
Record t : Type := mk {
  Type_ : string;
  Crc32 : Z;
  StorageFile : string;
  Range : string
}.
End part.

Module kodocli.

Definition typeDirect : string := "direct".
Definition typeCopy : string := "copy".

Record partArg : Type := mkPartArg {
  MimeType : string;
  Parts : list part.t
}.

Definition append_part (arg : partArg) (p : part.t) : partArg :=
  {| MimeType := MimeType arg; Parts := Parts arg ++ [p] |}.

Section Uploader.

(** [os.Open] followed by reading the file, and the IEEE CRC-32. *)
Variable os_Open : string -> result (list Byte.byte).
Variable crc32_IEEE : list Byte.byte -> Z.

(** What can fail while a part is written into the request: creating the
    form file of a field on the multipart writer, reading the part through
    for its checksum, seeking back to its start, and copying it into the
    form file.  The last three give the text of their error. *)
Variable writer_CreateFormFile : string -> option error.
Variable io_Copy_crc : Reader -> option string.
Variable rs_Seek : Reader -> option string.
Variable io_Copy : string -> Reader -> option string.

Definition addDirectFile (arg : partArg) (idx : Z) (checkCrc : bool) (crc32v : Z)
  (r : Reader) : result partArg :=
  let fieldName := ("part-" ++ strconv.FormatInt idx)%string in
  match writer_CreateFormFile fieldName with
  | Some e => Err e
  | None =>
      let sum :=
        if checkCrc && (crc32v =? 0) then
          if seeker r then
            match io_Copy_crc r with
            | Some msg => Err (Errorf ("io.Copy failed:" ++ msg))
            | None =>
                match rs_Seek r with
                | Some msg => Err (Errorf ("rs.Seek failed:" ++ msg))
                | None => Ok (crc32_IEEE (content r))
                end
            end
          else Err (Errorf "r should be io.ReadSeeker if generate crc32 in sdk")
        else Ok crc32v in
      match sum with
      | Err e => Err e
      | Ok crc32v =>
          match io_Copy fieldName r with
          | Some msg => Err (Errorf ("io.Copy failed:" ++ msg))
          | None =>
              Ok (append_part arg {| part.Type_ := typeDirect; part.Crc32 := crc32v;
                                     part.StorageFile := ""; part.Range := "" |})
          end
      end
  end.

Definition addCopyFile (arg : partArg) (idx : Z) (key : string) (from to : Z)
  : result partArg :=
  if (to =? -1) || (from <? to)
  then Ok (append_part arg
             {| part.Type_ := typeCopy; part.Crc32 := 0; part.StorageFile := key;
                part.Range := (strconv.FormatInt from ++ "-" ++ strconv.FormatInt to)%string |})
  else Err (Errorf "invalid from&to argument").

(** The loop [for i, p := range parts] of [copyMultipart]. *)
Fixpoint copyMultipart_parts (arg : partArg) (i : Z) (parts : list PutPart.t)
  : result partArg :=
  match parts with
  | [] => Ok arg
  | p :: rest =>
      let step :=
        if negb (String.eqb (PutPart.FileName p) "") then
          match os_Open (PutPart.FileName p) with
          | Err e => Err e
          | Ok f => addDirectFile arg i (PutPart.CheckCrc p) (PutPart.Crc32 p)
                                  {| content := f; seeker := true |}
          end
        else match PutPart.R p with
             | Some r => addDirectFile arg i (PutPart.CheckCrc p) (PutPart.Crc32 p) r
             | None => addCopyFile arg i (PutPart.Key p) (PutPart.From p) (PutPart.To p)
             end in
      match step with
      | Ok arg' => copyMultipart_parts arg' (i + 1) rest
      | Err e => Err e
      end
  end.

End Uploader.

End kodocli.

(** ** The invalidation queue *)

(** [refreshCh] is a buffered channel: a send goes through while the buffer
    has room and blocks otherwise, a receive takes the oldest key and blocks
    on the empty buffer.  Producers (the callers of [refreshCache]) and the
    [refreshWorker] goroutines are interleaved by the scheduler; one step of
    the system is one send or one iteration of one worker.  An iteration,
    the receive and the request made for the key received, is taken as one
    step here, which is enough for what the channel holds and for what a
    caller of [refreshCache] sees; [Drain] below takes the two apart. *)
Module Invalidator.

(** What a goroutine calling in gets: still waiting, or the return value. *)
Inductive call (A : Type) : Type :=
| Blocked
| Returned (a : A).
Arguments Blocked {A}.
Arguments Returned {A} a.

Section Queue.

Context {B : Type} `{Provider B}.
Variable d : kodo.driver.

Record Sys : Type := mkSys {
  world : World B;
  refreshCh : list string;
  log : list string
}.

Definition call_Get (url : string) : M B (option sdk_error) :=
  fun w =>
    let (b, r) := refresh_Get (remote w) url in
    (r, {| remote := b; trace := trace w ++ [EvGet url r] |}).

(** [refreshCacheNow]: its error and the lines it logs. *)
Definition refreshCacheNow (key : string) : M B (option sdk_error * list string) :=
  let p := kodo.params d in
  let memcacheKey :=
    ("io:" ++ FormatUint36 (kodo.UserUid p) ++ ":" ++ kodo.Bucket p ++ ":" ++ key)%string in
  let encodedKey := base64_URLEncoding memcacheKey in
  e <- call_Get (kodo.RefreshURL p ++ "/" ++ encodedKey)%string ;;
  match e with
  | Some e => ret (Some e, ["refresh failed:" ++ encodedKey]%string)
  | None => ret (None, [])
  end.

(** The send [d.refreshCh <- key]; [None] while the sender has to wait. *)
Definition send (key : string) (s : Sys) : option Sys :=
  if (length (refreshCh s) <? kodo.refreshCh_cap d)%nat
  then Some {| world := world s; refreshCh := refreshCh s ++ [key]; log := log s |}
  else None.

(** [refreshCache] as its caller sees it. *)
Definition refreshCache (key : string) (s : Sys) : call (option error) * Sys :=
  match send key s with
  | Some s' => (Returned None, s')
  | None => (Blocked, s)
  end.

(** One iteration of [for key := range d.refreshCh { d.refreshCacheNow(key) }];
    [None] while the worker waits on the empty channel.  The result of
    [refreshCacheNow] is dropped. *)
Definition refreshWorker (s : Sys) : option Sys :=
  match refreshCh s with
  | [] => None
  | key :: rest =>
      let '(_, lines, w) := refreshCacheNow key (world s) in
      Some {| world := w; refreshCh := rest; log := log s ++ lines |}
  end.

Inductive action : Type :=
| Produce (key : string)
| Work (i : nat).

Definition step (a : action) (s : Sys) : option Sys :=
  match a with
  | Produce key => send key s
  | Work i => if (i <? kodo.workers d)%nat then refreshWorker s else None
  end.

(** The states the system can be in: from the empty channel, by steps. *)
Inductive reachable (w0 : World B) : Sys -> Prop :=
| reach_init : reachable w0 {| world := w0; refreshCh := []; log := [] |}
| reach_step : forall a s s', reachable w0 s -> step a s = Some s' -> reachable w0 s'.

End Queue.

End Invalidator.

(** ** A scripted provider *)

(** A provider that answers each kind of call from a prepared list, oldest
    first, and with a default once the list is used up. *)
Module Scripted.

Record t : Type := mk {
  lists : list ListRet;
  deletes : list (option sdk_error);
  moves : list (option sdk_error);
  putparts : list (option sdk_error);
  dos : list (Response + sdk_error);
  gets : list (option sdk_error)
}.

Definition empty : t :=
  {| lists := []; deletes := []; moves := []; putparts := []; dos := []; gets := [] |}.

Definition end_of_list : ListRet :=
  {| entries := []; commonPrefixes := []; markerOut := ""; listErr := Some io_EOF |}.

Definition pop {A : Type} (dflt : A) (l : list A) : A * list A :=
  match l with
  | [] => (dflt, [])
  | x :: rest => (x, rest)
  end.

#[global] Instance provider : Provider t := {
  bucket_List b _ _ _ _ :=
    let (r, rest) := pop end_of_list (lists b) in
    ({| lists := rest; deletes := deletes b; moves := moves b;
        putparts := putparts b; dos := dos b; gets := gets b |}, r);
  bucket_Delete b _ :=
    let (r, rest) := pop None (deletes b) in
    ({| lists := lists b; deletes := rest; moves := moves b;
        putparts := putparts b; dos := dos b; gets := gets b |}, r);
  bucket_Move b _ _ _ :=
    let (r, rest) := pop None (moves b) in
    ({| lists := lists b; deletes := deletes b; moves := rest;
        putparts := putparts b; dos := dos b; gets := gets b |}, r);
  bucket_Put b _ _ := (b, None);
  bucket_PutParts b _ _ :=
    let (r, rest) := pop None (putparts b) in
    ({| lists := lists b; deletes := deletes b; moves := moves b;
        putparts := rest; dos := dos b; gets := gets b |}, r);
  client_MakePrivateUrl url _ := url;
  http_NewRequest _ _ := None;
  client_Do b _ :=
    let (r, rest) := pop (inl {| StatusCode := 200; Body := [] |}) (dos b) in
    ({| lists := lists b; deletes := deletes b; moves := moves b;
        putparts := putparts b; dos := rest; gets := gets b |}, r);
  refresh_Get b _ :=
    let (r, rest) := pop None (gets b) in
    ({| lists := lists b; deletes := deletes b; moves := moves b;
        putparts := putparts b; dos := dos b; gets := rest |}, r);
  base64_URLEncoding s := s;
  FormatUint36 := strconv.FormatInt
}.

Definition start (b : t) : World t := {| remote := b; trace := [] |}.

End Scripted.

(** ** Concrete drivers, sessions and provider scripts *)

Module Example.

Definition p0 : kodo.DriverParameters :=
  {| kodo.Zone := 0; kodo.Bucket := "registry"; kodo.BaseURL := "http://io.example";
     kodo.RootDirectory := "/"; kodo.UserUid := 7; kodo.AdminAk := "ak";
     kodo.AdminSk := "sk"; kodo.RefreshURL := "http://refresh.example" |}.

Definition d0 : kodo.driver := kodo.New p0.

Definition item (key : string) (fsize : Z) : ListItem :=
  {| Key := key; Fsize := fsize; PutTime := 0 |}.

Definition quiet : World Scripted.t := Scripted.start Scripted.empty.

Definition listing (answers : list ListRet) : World Scripted.t :=
  Scripted.start {| Scripted.lists := answers; Scripted.deletes := [];
                    Scripted.moves := []; Scripted.putparts := [];
                    Scripted.dos := []; Scripted.gets := [] |}.

(** A first page with a continuation marker, a transient failure of the
    second page, and the second page on the retry. *)
Definition two_pages : World Scripted.t :=
  listing
    [ {| entries := [item "a" 1; item "b" 2]; commonPrefixes := ["c/"];
         markerOut := "m1"; listErr := None |};
      {| entries := []; commonPrefixes := []; markerOut := "";
         listErr := Some (ErrorInfo 599 "please retry") |};
      {| entries := [item "d" 4]; commonPrefixes := []; markerOut := "";
         listErr := Some io_EOF |} ].

(** A listing that fails with the provider's code 612. *)
Definition listing_612 : World Scripted.t :=
  listing [ {| entries := []; commonPrefixes := []; markerOut := "";
               listErr := Some (ErrorInfo 612 "no such file or directory") |} ].

(** An object of 5 bytes stored under the key "blob". *)
Definition stored : World Scripted.t :=
  listing [ {| entries := [item "blob" 5]; commonPrefixes := []; markerOut := "";
               listErr := Some io_EOF |} ].

(** Three keys under "dir", the second of which is gone by the time it is
    deleted. *)
Definition three_keys : World Scripted.t :=
  Scripted.start
    {| Scripted.lists := [ {| entries := [item "dir/x" 1; item "dir/y" 1; item "dir/z" 1];
                              commonPrefixes := []; markerOut := "";
                              listErr := Some io_EOF |} ];
       Scripted.deletes := [None; Some (ErrorInfo 612 "no such file or directory")];
       Scripted.moves := []; Scripted.putparts := [];
       Scripted.dos := []; Scripted.gets := [] |}.

(** The segmented put fails. *)
Definition upload_fails : World Scripted.t :=
  Scripted.start
    {| Scripted.lists := []; Scripted.deletes := []; Scripted.moves := [];
       Scripted.putparts := [Some (net_error "connection reset")];
       Scripted.dos := []; Scripted.gets := [] |}.

(** The source of a move does not exist. *)
Definition move_612 : World Scripted.t :=
  Scripted.start
    {| Scripted.lists := []; Scripted.deletes := [];
       Scripted.moves := [Some (ErrorInfo 612 "no such file or directory")];
       Scripted.putparts := []; Scripted.dos := []; Scripted.gets := [] |}.

(** The download answers with the given status and an error page. *)
Definition error_page : list Byte.byte := [Byte.x7b; Byte.x7d].

Definition answering (status : Z) : World Scripted.t :=
  Scripted.start
    {| Scripted.lists := []; Scripted.deletes := []; Scripted.moves := [];
       Scripted.putparts := [];
       Scripted.dos := [inl {| StatusCode := status; Body := error_page |}];
       Scripted.gets := [] |}.

(** A session that has been closed. *)
Definition closed_session : kodo.writer :=
  {| kodo.path := "/blob"; kodo.pipe := None; kodo.size := 0; kodo.from := 0;
     kodo.closed := true; kodo.committed := false; kodo.cancelled := false;
     kodo.exitch := false; kodo.err := None |}.

(** A session with two bytes written and the upload still running. *)
Definition streaming : kodo.writer :=
  {| kodo.path := "/blob"; kodo.pipe := Some [Byte.x01; Byte.x02];
     kodo.size := 2; kodo.from := 0;
     kodo.closed := false; kodo.committed := false; kodo.cancelled := false;
     kodo.exitch := false; kodo.err := None |}.

(** A session of which one byte was taken before the segmented put
    returned an error; the task has not been joined. *)
Definition abandoned : kodo.writer :=
  {| kodo.path := "/blob"; kodo.pipe := Some [Byte.x01];
     kodo.size := 1; kodo.from := 0;
     kodo.closed := false; kodo.committed := false; kodo.cancelled := false;
     kodo.exitch := true; kodo.err := Some (Sdk (net_error "connection reset")) |}.

(** The invalidation system with [n] keys waiting and a refresh endpoint
    that refuses the next request. *)
Definition waiting (n : nat) : @Invalidator.Sys Scripted.t :=
  {| Invalidator.world :=
       Scripted.start
         {| Scripted.lists := []; Scripted.deletes := []; Scripted.moves := [];
            Scripted.putparts := []; Scripted.dos := [];
            Scripted.gets := [Some (net_error "connection refused")] |};
     Invalidator.refreshCh := repeat "k" n;
     Invalidator.log := [] |}.

End Example.

(** ** What the specification says, over runs of the provider *)

(** Each relation below reads: from provider state [b], these calls are
    made and answered as recorded, and the provider is left in [b']. *)
Module Spec.

(** The provider's "please retry" and "no such key" answers. *)
Definition transient (e : option sdk_error) : Prop :=
  exists m, e = Some (ErrorInfo 599 m).

Definition key_missing (e : sdk_error) : Prop :=
  exists m, e = ErrorInfo 612 m.

(** A page came back: no error, or the end-of-list marker. *)
Definition page_ok (r : ListRet) : Prop :=
  listErr r = None \/ listErr r = Some io_EOF.

(** A page could not be had. *)
Definition page_failed (r : ListRet) (e : sdk_error) : Prop :=
  listErr r = Some e /\ e <> io_EOF.

(** Nothing matched on a page. *)
Definition page_empty (r : ListRet) : Prop :=
  entries r = [] /\ commonPrefixes r = [].

(** A path as [List] hands it back is valid only if it starts with "/". *)
Definition rooted (p : string) : Prop :=
  exists rest, p = String "/"%char rest.

(** The message a call on a finished session is turned away with: the first
    of the flags set, in the order the guards test them. *)
Definition finalized (w : kodo.writer) : option string :=
  if kodo.closed w then Some "already closed"
  else if kodo.committed w then Some "already committed"
  else if kodo.cancelled w then Some "already cancelled"
  else None.

(** The result of a call that did not succeed. *)
Definition failed (r : run (option error)) : Prop :=
  exists e, r = Return (Some e).

(** No terminal flag is set: the session is still open. *)
Definition opened (w : kodo.writer) : Prop :=
  kodo.closed w = false /\ kodo.committed w = false /\ kodo.cancelled w = false.

(** The background task has not set [w.err] and its token is not on the
    channel: the task has not been started, or it is reading the pipe. *)
Definition reading (w : kodo.writer) : Prop :=
  kodo.err w = None /\ kodo.exitch w = false.

(** What the task has read from the pipe. *)
Definition carried (w : kodo.writer) : list Byte.byte :=
  match kodo.pipe w with
  | Some buf => buf
  | None => []
  end.

(** A session of writes, each with what the task does meanwhile; the bytes
    submitted by them; and of the bytes submitted those that were taken:
    the bytes of the writes that returned nil, in the order of the calls. *)
Definition writes (ws : list (kodo.upload * list Byte.byte)) : list kodo.call :=
  map (fun w => kodo.CallWrite (fst w) (snd w)) ws.

Definition submitted (cs : list kodo.call) : list Byte.byte :=
  flat_map (fun c => match c with kodo.CallWrite _ p => p | _ => [] end) cs.

Fixpoint accepted (cs : list kodo.call) (rs : list (run (option error)))
  : list Byte.byte :=
  match cs, rs with
  | kodo.CallWrite _ p :: cs', Return None :: rs' => p ++ accepted cs' rs'
  | _ :: cs', _ :: rs' => accepted cs' rs'
  | _, _ => []
  end.

(** What the return of the task's [PutParts] leaves in the trace and in
    [w.err]: the call, and the refresh request behind a put that went
    through. *)
Definition upload_events (key : string) (parts : list PutPart.t)
  (answer : option sdk_error) : list event :=
  EvPutParts key parts answer
  :: match answer with
     | None => [EvRefresh key]
     | Some _ => []
     end.

Definition upload_error (answer : option sdk_error) : option error :=
  match answer with
  | Some e => Some (Sdk e)
  | None => None
  end.

(** At most one of the three terminal flags is set. *)
Definition exclusive (w : kodo.writer) : Prop :=
  (kodo.closed w = true -> kodo.committed w = false /\ kodo.cancelled w = false)
  /\ (kodo.committed w = true -> kodo.closed w = false /\ kodo.cancelled w = false)
  /\ (kodo.cancelled w = true -> kodo.closed w = false /\ kodo.committed w = false).

(** What [List] makes of the pages it was given: every entry key and every
    common prefix, in page order, with the root prefix of the key replaced. *)
Definition file_path (d : kodo.driver) (rootPrefix : string) (item : ListItem) : string :=
  strings.Replace1 (Key item) (kodo.getKey d "") rootPrefix.

Definition directory_path (d : kodo.driver) (rootPrefix prefix : string) : string :=
  strings.Replace1 (strings.TrimSuffix prefix "/") (kodo.getKey d "") rootPrefix.

Definition files_of (d : kodo.driver) (rootPrefix : string) (pages : list ListRet)
  : list string :=
  flat_map (fun r => map (file_path d rootPrefix) (entries r)) pages.

Definition directories_of (d : kodo.driver) (rootPrefix : string) (pages : list ListRet)
  : list string :=
  flat_map (fun r => map (directory_path d rootPrefix) (commonPrefixes r)) pages.

(** The outcome of a listing that had [pages] and ended with [o]. *)
Definition listed (d : kodo.driver) (rootPrefix : string) (files directories : list string)
  (pages : list ListRet) (o : option sdk_error) : result (list string * list string) :=
  match o with
  | Some e => Err (Sdk e)
  | None => Ok (files ++ files_of d rootPrefix pages,
                directories ++ directories_of d rootPrefix pages)
  end.

(** The listed path as a directory prefix, and what replaces the root
    prefix of a key: "/" when the driver has no root prefix, nothing
    otherwise. *)
Definition as_directory (opath : string) : string :=
  if strings.HasSuffix opath "/" then opath else (opath ++ "/")%string.

Definition root_prefix (d : kodo.driver) : string :=
  if String.eqb (kodo.getKey d "") "" then "/" else "".

(** What [List opath] answers after a listing that had [pages] and ended
    with [o]: the failure; or not-found when nothing matched below a path
    other than the root; or the files followed by the directories. *)
Definition List_outcome (d : kodo.driver) (opath : string)
  (pages : list ListRet) (o : option sdk_error) : result (list string) :=
  match o with
  | Some e => Err (Sdk e)
  | None =>
      match files_of d (root_prefix d) pages ++ directories_of d (root_prefix d) pages with
      | [] => if String.eqb opath "/" then Ok []
              else Err (PathNotFoundError opath kodo.driverName)
      | found => Ok found
      end
  end.

Section Runs.

Context {B : Type} `{Provider B}.

(** The calls one page costs: one, or after a transient answer a second one
    with the same arguments, whose answer stands. *)
Inductive attempts (prefix delimiter marker : string) (limit : Z)
  : B -> list event -> ListRet -> B -> Prop :=
| attempts_once : forall b b' r,
    bucket_List b prefix delimiter marker limit = (b', r) ->
    ~ transient (listErr r) ->
    attempts prefix delimiter marker limit b
             [EvList prefix delimiter marker limit r] r b'
| attempts_twice : forall b b1 r1 b2 r2,
    bucket_List b prefix delimiter marker limit = (b1, r1) ->
    transient (listErr r1) ->
    bucket_List b1 prefix delimiter marker limit = (b2, r2) ->
    attempts prefix delimiter marker limit b
             [EvList prefix delimiter marker limit r1;
              EvList prefix delimiter marker limit r2] r2 b2.

(** Pagination from [marker] on: the pages had, in order, and the failure
    that ended it, if one did. *)
Inductive paging (prefix delimiter : string) (limit : Z)
  : string -> B -> list event -> list ListRet -> option sdk_error -> B -> Prop :=
| paging_last : forall marker b evs r b',
    attempts prefix delimiter marker limit b evs r b' ->
    page_ok r -> markerOut r = "" ->
    paging prefix delimiter limit marker b evs [r] None b'
| paging_fail : forall marker b evs r e b',
    attempts prefix delimiter marker limit b evs r b' ->
    page_failed r e ->
    paging prefix delimiter limit marker b evs [] (Some e) b'
| paging_more : forall marker b evs r b1 evs' rs o b',
    attempts prefix delimiter marker limit b evs r b1 ->
    page_ok r -> markerOut r <> "" ->
    paging prefix delimiter limit (markerOut r) b1 evs' rs o b' ->
    paging prefix delimiter limit marker b (evs ++ evs') (r :: rs) o b'.

(** Deleting the keys of one page: a delete per key in order, a refresh
    after each delete that went through, a missing key passed over, and the
    first other failure ends it. *)
Inductive deleted : list ListItem -> B -> list event -> option error -> B -> Prop :=
| deleted_nil : forall b, deleted [] b [] None b
| deleted_ok : forall item rest b b1 evs res b',
    bucket_Delete b (Key item) = (b1, None) ->
    deleted rest b1 evs res b' ->
    deleted (item :: rest) b
            (EvDelete (Key item) None :: EvRefresh (Key item) :: evs) res b'
| deleted_gone : forall item rest b b1 e evs res b',
    bucket_Delete b (Key item) = (b1, Some e) ->
    key_missing e ->
    deleted rest b1 evs res b' ->
    deleted (item :: rest) b (EvDelete (Key item) (Some e) :: evs) res b'
| deleted_fail : forall item rest b b' e,
    bucket_Delete b (Key item) = (b', Some e) ->
    ~ key_missing e ->
    deleted (item :: rest) b [EvDelete (Key item) (Some e)] (Some (Sdk e)) b'.

(** A whole [Delete] of [path], whose keys start with [key]: page after
    page, each page's keys deleted before the next page is asked for;
    [cnt] is the number of keys listed before this page. *)
Inductive deleting (key path : string)
  : string -> Z -> B -> list event -> option error -> B -> Prop :=
| deleting_fail : forall marker cnt b evs r e b',
    attempts key "" marker kodo.listMax b evs r b' ->
    page_failed r e ->
    deleting key path marker cnt b evs (Some (Sdk e)) b'
| deleting_nothing : forall marker cnt b evs r b',
    attempts key "" marker kodo.listMax b evs r b' ->
    page_ok r ->
    int64_add cnt (len (entries r)) = 0 ->
    deleting key path marker cnt b evs
             (Some (PathNotFoundError path kodo.driverName)) b'
| deleting_stop : forall marker cnt b evs r b1 devs e b',
    attempts key "" marker kodo.listMax b evs r b1 ->
    page_ok r ->
    int64_add cnt (len (entries r)) <> 0 ->
    deleted (entries r) b1 devs (Some e) b' ->
    deleting key path marker cnt b (evs ++ devs) (Some e) b'
| deleting_last : forall marker cnt b evs r b1 devs b',
    attempts key "" marker kodo.listMax b evs r b1 ->
    page_ok r ->
    int64_add cnt (len (entries r)) <> 0 ->
    deleted (entries r) b1 devs None b' ->
    markerOut r = "" ->
    deleting key path marker cnt b (evs ++ devs) None b'
| deleting_more : forall marker cnt b evs r b1 devs b2 evs' res b',
    attempts key "" marker kodo.listMax b evs r b1 ->
    page_ok r ->
    int64_add cnt (len (entries r)) <> 0 ->
    deleted (entries r) b1 devs None b2 ->
    markerOut r <> "" ->
    deleting key path (markerOut r) (int64_add cnt (len (entries r))) b2 evs' res b' ->
    deleting key path marker cnt b (evs ++ devs ++ evs') res b'.

End Runs.

End Spec.

(** ** What the uploader's part list says about the parts it was given *)

Module Assembly.

(** [q] is the entry of the part list for the part [p]: a copy entry naming
    the key and the range for a part that has neither a file name nor a
    reader (the range then is a valid one), a direct entry otherwise, with
    the checksum of the part unless one is to be computed. *)
Definition describes (p : PutPart.t) (q : part.t) : Prop :=
  match PutPart.FileName p, PutPart.R p with
  | EmptyString, None =>
      q = {| part.Type_ := "copy"; part.Crc32 := 0;
             part.StorageFile := PutPart.Key p;
             part.Range := (strconv.FormatInt (PutPart.From p) ++ "-"
                            ++ strconv.FormatInt (PutPart.To p))%string |}
      /\ (PutPart.To p = -1 \/ PutPart.From p < PutPart.To p)
  | _, _ =>
      part.Type_ q = "direct" /\ part.StorageFile q = "" /\ part.Range q = ""
      /\ (PutPart.CheckCrc p = false -> part.Crc32 q = PutPart.Crc32 p)
  end.

(** A part that is a range of a stored key, with a range that is not one. *)
Definition bad_copy (p : PutPart.t) : Prop :=
  PutPart.FileName p = "" /\ PutPart.R p = None
  /\ PutPart.To p <> -1 /\ PutPart.To p <= PutPart.From p.

End Assembly.

(** ** Runs of the invalidation queue *)

Module Drain.

(** The URLs of the refresh requests among the calls recorded. *)
Definition requested (evs : list event) : list string :=
  flat_map (fun ev => match ev with EvGet url _ => [url] | _ => [] end) evs.

Section Runs.

Context {B : Type} `{Provider B}.
Variable d : kodo.driver.

(** The URL [refreshCacheNow] asks for a key. *)
Definition refresh_url (key : string) : string :=
  (kodo.RefreshURL (kodo.params d) ++ "/"
   ++ base64_URLEncoding ("io:" ++ FormatUint36 (kodo.UserUid (kodo.params d)) ++ ":"
                          ++ kodo.Bucket (kodo.params d) ++ ":" ++ key))%string.

(** The workers run side by side.  Between the receive of a worker and the
    request it then makes, the sends of callers and the receives and
    requests of the other workers can happen.  So a worker either waits
    for a key or holds one, taken off the channel and not yet asked for;
    [holding] lists the workers that hold a key, with the key. *)
Record Pool : Type := mkPool {
  sys : @Invalidator.Sys B;
  holding : list (nat * string)
}.

(** Every worker waits for a key. *)
Definition idle (s : @Invalidator.Sys B) : Pool := {| sys := s; holding := [] |}.

Fixpoint held (i : nat) (hs : list (nat * string)) : option string :=
  match hs with
  | [] => None
  | (j, key) :: rest => if (j =? i)%nat then Some key else held i rest
  end.

Fixpoint release (i : nat) (hs : list (nat * string)) : list (nat * string) :=
  match hs with
  | [] => []
  | (j, key) :: rest => if (j =? i)%nat then rest else (j, key) :: release i rest
  end.

(** What the scheduler can let happen next: the send of a caller of
    [refreshCache]; the receive [key := <-d.refreshCh] of worker [i]; the
    call [d.refreshCacheNow(key)] of worker [i]. *)
Inductive move : Type :=
| Send (key : string)
| Receive (i : nat)
| Request (i : nat).

(** One move; [None] when it is not possible: a send on the full channel, a
    receive on the empty one or by a worker that holds a key, a request by
    a worker that holds none. *)
Definition step (m : move) (s : Pool) : option Pool :=
  match m with
  | Send key =>
      match Invalidator.send d key (sys s) with
      | Some q => Some {| sys := q; holding := holding s |}
      | None => None
      end
  | Receive i =>
      if (i <? kodo.workers d)%nat then
        match held i (holding s), Invalidator.refreshCh (sys s) with
        | None, key :: rest =>
            Some {| sys := {| Invalidator.world := Invalidator.world (sys s);
                              Invalidator.refreshCh := rest;
                              Invalidator.log := Invalidator.log (sys s) |};
                    holding := holding s ++ [(i, key)] |}
        | _, _ => None
        end
      else None
  | Request i =>
      match held i (holding s) with
      | Some key =>
          let '(_, lines, w) :=
            Invalidator.refreshCacheNow d key (Invalidator.world (sys s)) in
          Some {| sys := {| Invalidator.world := w;
                            Invalidator.refreshCh := Invalidator.refreshCh (sys s);
                            Invalidator.log := Invalidator.log (sys s) ++ lines |};
                  holding := release i (holding s) |}
      | None => None
      end
  end.

(** A schedule: the moves the scheduler picks, in order.  A move that is
    not possible leaves the goroutine waiting and the system as it is.
    The run answers the final state, the keys whose send went through and
    the keys taken off the channel, both in order. *)
Fixpoint run (schedule : list move) (s : Pool) : Pool * list string * list string :=
  match schedule with
  | [] => (s, [], [])
  | m :: rest =>
      match step m s with
      | None => run rest s
      | Some s' =>
          let '(sf, sent, received) := run rest s' in
          match m with
          | Send key => (sf, key :: sent, received)
          | Receive i =>
              (sf, sent,
               match Invalidator.refreshCh (sys s) with
               | key :: _ => key :: received
               | [] => received
               end)
          | Request _ => (sf, sent, received)
          end
      end
  end.

End Runs.

End Drain.

(** ** Configuration: [FromParameters] and [URLFor] *)

Module config.

(** The values a parameter map holds: nil, strings, ints, booleans and
    slices of such values. *)
#[warnings="-register-all"]
Inductive any : Type :=
| Nil
| Str (s : string)
| Int (z : Z)
| Boolean (b : bool)
| Slice (l : list any).

(** [fmt.Sprint(v)]. *)
Fixpoint Sprint (v : any) : string :=
  match v with
  | Nil => "<nil>"
  | Str s => s
  | Int z => strconv.FormatInt z
  | Boolean b => if b then "true" else "false"
  | Slice l =>
      ("[" ++ (fix elems (l : list any) : string :=
                 match l with
                 | [] => ""
                 | x :: rest =>
                     Sprint x ++ match rest with
                                 | [] => ""
                                 | _ :: _ => " " ++ elems rest
                                 end
                 end) l ++ "]")%string
  end.

(** A [map[string]interface{}], read only. *)
Definition parameters : Type := string -> option any.

Definition getParameter (params : parameters) (key : string) : string :=
  match params key with
  | None => ""
  | Some Nil => ""
  | Some v => Sprint v
  end.

(** [strconv.ParseUint(s, 10, 64)]: decimal digits only, at least one, and
    a value below 2^64. *)
Inductive NumError : Type := ErrSyntax | ErrRange.

Definition ParseUint (s : string) : Z + NumError :=
  match NilZero.uint_of_string s with
  | None => inr ErrSyntax
  | Some u => if Z.of_uint u <? 2 ^ 64 then inl (Z.of_uint u) else inr ErrRange
  end.

(** [strings.Split(s, sep)] for a separator that is not empty.  [skip]
    counts the bytes of a separator just found that are still to be passed
    over, [cur] is the field read so far. *)
Fixpoint Split_from (skip : nat) (s sep cur : string) : list string :=
  match s with
  | EmptyString => [cur]
  | String c rest =>
      match skip with
      | S k => Split_from k rest sep cur
      | O =>
          if String.prefix sep s
          then cur :: Split_from (String.length sep - 1) rest sep ""
          else Split_from 0 rest sep (cur ++ String c "")%string
      end
  end.

Definition Split (s sep : string) : list string := Split_from 0 s sep "".

(** The [kodo.Config] fields the parameters fill. *)
Record Config : Type := mkConfig {
  AccessKey : string;
  SecretKey : string;
  RSHost : string;
  RSFHost : string;
  IoHost : string;
  UpHosts : list string
}.

(** A [map[string]string] as its entries, one per key. *)
Definition RedirectMap : Type := list (string * string).

Definition assign (key val : string) (m : RedirectMap) : RedirectMap :=
  (key, val) :: filter (fun kv => negb (String.eqb (fst kv) key)) m.

Fixpoint lookup (key : string) (m : RedirectMap) : option string :=
  match m with
  | [] => None
  | (k, v) :: rest => if String.eqb k key then Some v else lookup key rest
  end.

(** [for _, a := range l { ... a.(string) ... }]: [None] is the panic of the
    type assertion on an element that is not a string. *)
Fixpoint strings_of (l : list any) : option (list string) :=
  match l with
  | [] => Some []
  | Str s :: rest =>
      match strings_of rest with
      | Some ss => Some (s :: ss)
      | None => None
      end
  | _ :: _ => None
  end.

Fixpoint redirects (entries : list string) (m : RedirectMap) : RedirectMap :=
  match entries with
  | [] => m
  | a :: rest =>
      match Split a "::" with
      | [key; val] => redirects rest (assign key val m)
      | _ => redirects rest m
      end
  end.

Section FromParameters.

(** [strconv.Quote], which the message of a parse error uses. *)
Variable Quote : string -> string.

Definition NumError_Error (func num : string) (e : NumError) : string :=
  ("strconv." ++ func ++ ": parsing " ++ Quote num ++ ": "
   ++ match e with
      | ErrSyntax => "invalid syntax"
      | ErrRange => "value out of range"
      end)%string.

Definition missing (name : string) : run (result (Config * RedirectMap * kodo.driver)) :=
  Return (Err (Errorf ("No " ++ name ++ " parameter provided"))).

Definition FromParameters (params : parameters)
  : run (result (Config * RedirectMap * kodo.driver)) :=
  let zone := match params "zone" with Some (Int z) => z | _ => 0 end in
  let bucket := getParameter params "bucket" in
  if String.eqb bucket "" then missing "bucket" else
  let baseurl := getParameter params "baseurl" in
  if String.eqb baseurl "" then missing "baseurl" else
  let accesskey := getParameter params "accesskey" in
  if String.eqb accesskey "" then missing "accesskey" else
  let secretkey := getParameter params "secretkey" in
  if String.eqb secretkey "" then missing "secretkey" else
  let adminak := getParameter params "adminaccesskey" in
  if String.eqb adminak "" then missing "adminaccesskey" else
  let adminsk := getParameter params "adminsecretkey" in
  if String.eqb adminsk "" then missing "adminsecretkey" else
  let userUid := getParameter params "useruid" in
  if String.eqb userUid "" then missing "useruid" else
  match ParseUint userUid with
  | inr e =>
      Return (Err (Errorf ("useruid format err: "
                           ++ NumError_Error "ParseUint" userUid e)))
  | inl uid =>
      let refreshurl := getParameter params "refreshurl" in
      if String.eqb refreshurl "" then missing "refreshurl" else
      let root := getParameter params "rootdirectory" in
      let uphosts := match params "uphosts" with
                     | Some (Slice l) => strings_of l
                     | _ => Some []
                     end in
      match uphosts with
      | None => Panic "interface conversion"
      | Some hosts =>
          let redirect := match params "redirect" with
                          | Some (Slice l) => strings_of l
                          | _ => Some []
                          end in
          match redirect with
          | None => Panic "interface conversion"
          | Some entries =>
              Return (Ok ({| AccessKey := accesskey; SecretKey := secretkey;
                             RSHost := getParameter params "rshost";
                             RSFHost := getParameter params "rsfhost";
                             IoHost := getParameter params "iohost";
                             UpHosts := hosts |},
                          redirects entries [],
                          kodo.New {| kodo.Zone := zone; kodo.Bucket := bucket;
                                      kodo.BaseURL := baseurl;
                                      kodo.RootDirectory := root;
                                      kodo.UserUid := uid;
                                      kodo.AdminAk := adminak;
                                      kodo.AdminSk := adminsk;
                                      kodo.RefreshURL := refreshurl |}))
          end
      end
  end.

End FromParameters.

(** The parameters [FromParameters] insists on, in the order it looks at
    them. *)
Definition required : list string :=
  ["bucket"; "baseurl"; "accesskey"; "secretkey"; "adminaccesskey";
   "adminsecretkey"; "useruid"; "refreshurl"].

(** [strings.Contains(s, substr)]. *)
Fixpoint Contains (s substr : string) : bool :=
  if String.prefix substr s then true
  else match s with
       | EmptyString => false
       | String _ rest => Contains rest substr
       end.

(** The two options [URLFor] looks at, after their type assertions: the
    expiry as seconds since the epoch, the host hint. *)
Record Options : Type := mkOptions {
  expiry : option Z;
  host : option string
}.

Definition uint32 (z : Z) : Z := z mod 2 ^ 32.

(** The loop over the redirect map, in the order [order] the map happens to
    be iterated in: the value of the first key the host contains. *)
Fixpoint first_redirect (host : string) (order : RedirectMap) : option string :=
  match order with
  | [] => None
  | (key, val) :: rest =>
      if Contains host key then Some val else first_redirect host rest
  end.

Section URLFor.

Context {B : Type} `{Provider B}.
Variable d : kodo.driver.

(** [URLFor]; [now] is [time.Now().Unix()]. *)
Definition URLFor (order : RedirectMap) (now : Z) (path : string) (options : Options)
  : string :=
  let expires :=
    match expiry options with
    | Some t =>
        let expires := wrap64 (t - now) in
        if 0 <? expires then uint32 expires else kodo.defaultExpiry
    | None => kodo.defaultExpiry
    end in
  let redirected :=
    match host options with
    | Some h => first_redirect h order
    | None => None
    end in
  match redirected with
  | Some val => client_MakePrivateUrl (val ++ kodo.getKey d path)%string expires
  | None =>
      client_MakePrivateUrl (kodo.BaseURL (kodo.params d) ++ kodo.getKey d path)%string
                            expires
  end.

End URLFor.

End config.

(** ** The writer on a local file *)

(** [fileWriter] buffers the blob in a local file and uploads the file on
    [Commit].  The file, its buffered writer and the upload are an
    interface; every operation done on them is recorded. *)
Module fileWriter.

Inductive op : Type :=
| OpWrite (p : list Byte.byte)             (* fw.bw.Write(p) *)
| OpFlush                                  (* fw.bw.Flush() *)
| OpSync                                   (* fw.file.Sync() *)
| OpClose                                  (* fw.file.Close() *)
| OpRemove                                 (* os.Remove(fw.file.Name()) *)
| OpUpload (kodoKey : string)              (* fw.driver.upload(ctx, localFile, kodoKey) *)
| OpGoRemove.                              (* go func() { os.Remove(...) }() *)

Class LocalFile (F : Type) : Type := {
  bw_Write : F -> list Byte.byte -> F * (Z * option error);
  bw_Flush : F -> F * option error;
  file_Sync : F -> F * option error;
  file_Close : F -> F * option error;
  os_Remove : F -> F * option error;
  driver_upload : F -> string -> F * option error
}.

Record State (F : Type) : Type := mkState {
  disk : F;
  did : list op
}.
Arguments mkState {F} disk did.
Arguments disk {F} s.
Arguments did {F} s.

Record t : Type := mk {
  kodoKey : string;
  size : Z;
  closed : bool;
  committed : bool;
  cancelled : bool
}.

Definition newFileWriter (kodoKey : string) (size : Z) : t :=
  {| kodoKey := kodoKey; size := size;
     closed := false; committed := false; cancelled := false |}.

Section Methods.

Context {F : Type} `{LocalFile F}.

Definition step {A : Type} (o : op) (f : F -> F * A) (st : State F) : A * State F :=
  let (d', a) := f (disk st) in
  (a, {| disk := d'; did := did st ++ [o] |}).

Definition Write (fw : t) (p : list Byte.byte) (st : State F)
  : (Z * option error) * t * State F :=
  if closed fw then ((0, Some (Errorf "already closed")), fw, st)
  else if committed fw then ((0, Some (Errorf "already committed")), fw, st)
  else if cancelled fw then ((0, Some (Errorf "already cancelled")), fw, st)
  else
    let (r, st1) := step (OpWrite p) (fun d => bw_Write d p) st in
    (r, {| kodoKey := kodoKey fw; size := int64_add (size fw) (fst r);
           closed := closed fw; committed := committed fw;
           cancelled := cancelled fw |}, st1).

Definition Size (fw : t) : Z := size fw.

Definition Close (fw : t) (st : State F) : option error * t * State F :=
  if closed fw then (Some (Errorf "already closed"), fw, st)
  else
    let (e1, st1) := step OpFlush bw_Flush st in
    match e1 with
    | Some e => (Some e, fw, st1)
    | None =>
        let (e2, st2) := step OpSync file_Sync st1 in
        match e2 with
        | Some e => (Some e, fw, st2)
        | None =>
            let (e3, st3) := step OpClose file_Close st2 in
            match e3 with
            | Some e => (Some e, fw, st3)
            | None =>
                (None, {| kodoKey := kodoKey fw; size := size fw; closed := true;
                          committed := committed fw; cancelled := cancelled fw |}, st3)
            end
        end
    end.

Definition Cancel (fw : t) (st : State F) : option error * t * State F :=
  if closed fw then (Some (Errorf "already closed"), fw, st)
  else
    let fw1 := {| kodoKey := kodoKey fw; size := size fw; closed := closed fw;
                  committed := committed fw; cancelled := true |} in
    let (_, st1) := step OpClose file_Close st in
    let (e, st2) := step OpRemove os_Remove st1 in
    (e, fw1, st2).

Definition Commit (fw : t) (st : State F) : option error * t * State F :=
  if closed fw then (Some (Errorf "already closed"), fw, st)
  else if committed fw then (Some (Errorf "already committed"), fw, st)
  else if cancelled fw then (Some (Errorf "already cancelled"), fw, st)
  else
    let (e1, st1) := step OpFlush bw_Flush st in
    match e1 with
    | Some e => (Some e, fw, st1)
    | None =>
        let (e2, st2) := step OpSync file_Sync st1 in
        match e2 with
        | Some e => (Some e, fw, st2)
        | None =>
            let (e3, st3) := step (OpUpload (kodoKey fw))
                                  (fun d => driver_upload d (kodoKey fw)) st2 in
            match e3 with
            | Some e => (Some e, fw, st3)
            | None =>
                (None,
                 {| kodoKey := kodoKey fw; size := size fw; closed := closed fw;
                    committed := true; cancelled := cancelled fw |},
                 {| disk := disk st3; did := did st3 ++ [OpGoRemove] |})
            end
        end
    end.

End Methods.

(** A disk on which the [n]-th operation from now fails and every other one
    goes through; a write takes all the bytes. *)
Definition failing : Type := option nat.

Definition tick (d : failing) : failing * option error :=
  match d with
  | Some O => (None, Some (Errorf "input/output error"))
  | Some (S n) => (Some n, None)
  | None => (None, None)
  end.

#[global] Instance failing_disk : LocalFile failing := {
  bw_Write d p := let (d', e) := tick d in
                  (d', (match e with Some _ => 0 | None => len p end, e));
  bw_Flush := tick;
  file_Sync := tick;
  file_Close := tick;
  os_Remove := tick;
  driver_upload d _ := tick d
}.

End fileWriter.

(** * Properties *)

(** ** Worlds and error classification *)

Lemma extend_extend {B : Type} (w : World B) (b1 b2 : B) (e1 e2 : list event) :
  extend (extend w b1 e1) b2 e2 = extend w b2 (e1 ++ e2).
Proof. unfold extend; simpl. now rewrite app_assoc. Qed.

Lemma extend_nil {B : Type} (w : World B) : extend w (remote w) [] = w.
Proof. destruct w; unfold extend; simpl. now rewrite app_nil_r. Qed.

Lemma is_code_599_transient (e : option sdk_error) :
  kodo.is_code 599 e = true <-> Spec.transient e.
Proof.
  unfold Spec.transient; split.
  - destruct e as [[c m| |m]|]; simpl; try discriminate.
    intros Hc; apply Z.eqb_eq in Hc; subst c. now exists m.
  - intros [m ->]. reflexivity.
Qed.

Lemma is_code_599_steady (e : option sdk_error) :
  kodo.is_code 599 e = false <-> ~ Spec.transient e.
Proof.
  rewrite <- is_code_599_transient. destruct (kodo.is_code 599 e); split; congruence.
Qed.

Lemma isKeyNotExists_missing (e : sdk_error) :
  kodo.isKeyNotExists (Some e) = true <-> Spec.key_missing e.
Proof.
  unfold Spec.key_missing, kodo.isKeyNotExists; split.
  - destruct e as [c m| |m]; simpl; try discriminate.
    intros Hc; apply Z.eqb_eq in Hc; subst c. now exists m.
  - intros [m ->]. reflexivity.
Qed.

Lemma isKeyNotExists_present (e : sdk_error) :
  kodo.isKeyNotExists (Some e) = false <-> ~ Spec.key_missing e.
Proof.
  rewrite <- isKeyNotExists_missing.
  destruct (kodo.isKeyNotExists (Some e)); split; congruence.
Qed.

Lemma fatal_none (r : ListRet) :
  kodo.fatal (listErr r) = None <-> Spec.page_ok r.
Proof.
  unfold Spec.page_ok. destruct (listErr r) as [[c m| |m]|]; simpl; split;
    intros Hf; try discriminate; auto; destruct Hf; discriminate.
Qed.

Lemma fatal_some (r : ListRet) (e : sdk_error) :
  kodo.fatal (listErr r) = Some e <-> Spec.page_failed r e.
Proof.
  unfold Spec.page_failed. destruct (listErr r) as [[c m| |m]|]; simpl; split;
    intros Hf; try discriminate.
  all: try (inversion Hf; subst; split; [reflexivity | discriminate]).
  all: try (destruct Hf as [Hs Hn]; inversion Hs; subst; congruence).
Qed.

(** ** Listing with retry *)

Section Listing.

Context {B : Type} `{Provider B}.

Lemma attempts_run (prefix delimiter marker : string) (limit : Z)
  (b : B) (evs : list event) (r : ListRet) (b' : B) :
  Spec.attempts prefix delimiter marker limit b evs r b' ->
  forall st, remote st = b ->
  kodo.bucketlistWithRetry prefix delimiter marker limit st = (r, extend st b' evs).
Proof.
  intros Ha st <-. unfold kodo.bucketlistWithRetry, kodo.bucketlistWithRetry_from,
    bind, kodo.call_List, ret.
  destruct Ha as [b0 b' r Hl Hs | b0 b1 r1 b2 r2 Hl1 Ht Hl2].
  - rewrite Hl. apply is_code_599_steady in Hs. now rewrite Hs.
  - rewrite Hl1. apply is_code_599_transient in Ht. rewrite Ht. simpl.
    rewrite Hl2. unfold extend; simpl. rewrite <- app_assoc.
    now destruct (kodo.is_code 599 (listErr r2)).
Qed.

Lemma bucketlistWithRetry_attempts (prefix delimiter marker : string) (limit : Z)
  (st : World B) :
  exists evs r b',
    kodo.bucketlistWithRetry prefix delimiter marker limit st = (r, extend st b' evs)
    /\ Spec.attempts prefix delimiter marker limit (remote st) evs r b'.
Proof.
  destruct (bucket_List (remote st) prefix delimiter marker limit) as [b1 r1] eqn:Hl1.
  destruct (kodo.is_code 599 (listErr r1)) eqn:Hc.
  - destruct (bucket_List b1 prefix delimiter marker limit) as [b2 r2] eqn:Hl2.
    assert (Ha : Spec.attempts prefix delimiter marker limit (remote st)
                   [EvList prefix delimiter marker limit r1;
                    EvList prefix delimiter marker limit r2] r2 b2).
    { eapply Spec.attempts_twice; eauto. now apply is_code_599_transient. }
    eexists _, _, _. split; [ | exact Ha ]. now apply attempts_run with (b := remote st).
  - assert (Ha : Spec.attempts prefix delimiter marker limit (remote st)
                   [EvList prefix delimiter marker limit r1] r1 b1).
    { eapply Spec.attempts_once; eauto. now apply is_code_599_steady. }
    eexists _, _, _. split; [ | exact Ha ]. now apply attempts_run with (b := remote st).
Qed.

Lemma attempts_at_most_two (prefix delimiter marker : string) (limit : Z)
  (b : B) (evs : list event) (r : ListRet) (b' : B) :
  Spec.attempts prefix delimiter marker limit b evs r b' ->
  (1 <= length evs <= 2)%nat
  /\ Forall (fun ev => exists a, ev = EvList prefix delimiter marker limit a) evs.
Proof.
  intros [b0 b1 r0 _ _ | b0 b1 r1 b2 r2 _ _ _]; simpl; split; try lia;
    repeat constructor; eexists; reflexivity.
Qed.


Variable d : kodo.driver.

Lemma List_pages_sound (fuel : nat) :
  forall key rootPrefix marker files directories (st st' : World B) res,
  kodo.List_pages d fuel key rootPrefix marker files directories st = (Return res, st') ->
  exists evs pages o b',
    st' = extend st b' evs
    /\ Spec.paging key "/" kodo.listMax marker (remote st) evs pages o b'
    /\ res = Spec.listed d rootPrefix files directories pages o.
Proof.
  induction fuel as [|fuel IH]; intros key rootPrefix marker files directories st st' res Hrun.
  - discriminate.
  - simpl in Hrun. unfold bind in Hrun.
    destruct (bucketlistWithRetry_attempts key "/" marker kodo.listMax st)
      as (evs & r & b1 & Hcall & Hatt).
    rewrite Hcall in Hrun.
    destruct (kodo.fatal (listErr r)) as [e|] eqn:Hf.
    + inversion Hrun; subst. exists evs, [], (Some e), b1.
      repeat split. eapply Spec.paging_fail; eauto. now apply fatal_some.
    + apply fatal_none in Hf.
      destruct (String.eqb_spec (markerOut r) "") as [Hm|Hm].
      * inversion Hrun; subst. exists evs, [r], None, b1.
        repeat split. { eapply Spec.paging_last; eauto. }
        unfold Spec.listed, Spec.files_of, Spec.directories_of; simpl.
        now rewrite !app_nil_r.
      * apply IH in Hrun. destruct Hrun as (evs' & pages & o & b' & -> & Hp & ->).
        exists (evs ++ evs'), (r :: pages), o, b'. repeat split.
        { now rewrite extend_extend. }
        { eapply Spec.paging_more; eauto. }
        unfold Spec.listed, Spec.files_of, Spec.directories_of; simpl.
        destruct o; [reflexivity|]. now rewrite <- !app_assoc.
Qed.

Lemma List_pages_complete key rootPrefix marker b evs pages o b' :
  Spec.paging key "/" kodo.listMax marker b evs pages o b' ->
  forall fuel files directories (st : World B),
  remote st = b -> (length pages < fuel)%nat ->
  kodo.List_pages d fuel key rootPrefix marker files directories st
  = (Return (Spec.listed d rootPrefix files directories pages o), extend st b' evs).
Proof.
  induction 1 as [marker b evs r b' Hatt Hok Hm
                 | marker b evs r e b' Hatt Hfail
                 | marker b evs r b1 evs' rs o b' Hatt Hok Hm Hrest IH];
    intros fuel files directories st Hb Hfuel;
    (destruct fuel as [|fuel]; [simpl in Hfuel; lia|]);
    simpl; unfold bind; rewrite (attempts_run _ _ _ _ _ _ _ _ Hatt st Hb).
  - apply fatal_none in Hok. rewrite Hok, Hm. simpl.
    unfold Spec.listed, Spec.files_of, Spec.directories_of; simpl.
    now rewrite !app_nil_r.
  - apply fatal_some in Hfail. now rewrite Hfail.
  - apply fatal_none in Hok. rewrite Hok.
    destruct (String.eqb_spec (markerOut r) "") as [Hm'|_]; [contradiction|].
    rewrite IH; [ | reflexivity | simpl in Hfuel; lia ].
    rewrite extend_extend. f_equal.
    unfold Spec.listed, Spec.files_of, Spec.directories_of; simpl.
    destruct o; [reflexivity|]. now rewrite <- !app_assoc.
Qed.

Lemma List_pages_no_panic (fuel : nat) :
  forall key rootPrefix marker files directories (st : World B) m,
  fst (kodo.List_pages d fuel key rootPrefix marker files directories st) <> Panic m.
Proof.
  induction fuel as [|fuel IH]; intros key rootPrefix marker files directories st m.
  - discriminate.
  - simpl. unfold bind.
    destruct (kodo.bucketlistWithRetry key "/" marker kodo.listMax st) as [r st1].
    destruct (kodo.fatal (listErr r)); [discriminate|].
    destruct (String.eqb (markerOut r) ""); [discriminate|]. apply IH.
Qed.

Lemma drop_last_byte (s : string) (c : ascii) :
  strings.last_byte s = Some c ->
  strings.drop (String.length s - 1) s = String c "".
Proof.
  induction s as [|a rest IH]; [discriminate|].
  destruct rest as [|a' rest'].
  - simpl. now intros [= ->].
  - intros Hc. change (strings.last_byte (String a' rest') = Some c) in Hc.
    specialize (IH Hc).
    replace (String.length (String a (String a' rest')) - 1)%nat
      with (S (String.length (String a' rest') - 1)) by (simpl; lia).
    exact IH.
Qed.

Lemma HasSuffix_slash (s : string) (c : ascii) :
  strings.last_byte s = Some c ->
  strings.HasSuffix s "/" = Ascii.eqb c "/"%char.
Proof.
  intros Hc. unfold strings.HasSuffix.
  change (String.length "/") with 1%nat. rewrite (drop_last_byte s c Hc).
  assert (Hlen : (1 <=? String.length s)%nat = true).
  { apply Nat.leb_le. destruct s; [discriminate|simpl; lia]. }
  rewrite Hlen. simpl. now destruct (Ascii.eqb c "/"%char).
Qed.

Lemma last_byte_as_directory (opath : string) (c : ascii) :
  strings.last_byte opath = Some c ->
  (if Ascii.eqb c "/"%char then opath else (opath ++ "/")%string)
  = Spec.as_directory opath.
Proof.
  intros Hc. unfold Spec.as_directory. now rewrite (HasSuffix_slash opath c Hc).
Qed.

Lemma as_directory_root : Spec.as_directory "/" = "/".
Proof. reflexivity. Qed.

Lemma last_byte_nonempty (opath : string) :
  opath <> "" -> exists c, strings.last_byte opath = Some c.
Proof.
  induction opath as [|a rest IH]; [congruence|]. intros _.
  destruct rest as [|a' rest']; [now exists a|].
  destruct IH as [c Hc]; [discriminate|]. exists c. exact Hc.
Qed.

(** [List] is the page loop from the empty marker, its outcome read off the
    pages. *)
Lemma List_sound (fuel : nat) (opath : string) (st st' : World B) res :
  opath <> "" ->
  kodo.List d fuel opath st = (Return res, st') ->
  exists evs pages o b',
    st' = extend st b' evs
    /\ Spec.paging (kodo.getKey d (Spec.as_directory opath)) "/" kodo.listMax ""
                   (remote st) evs pages o b'
    /\ res = Spec.List_outcome d opath pages o.
Proof.
  intros Hne Hrun. unfold kodo.List in Hrun.
  destruct (String.eqb_spec opath "/") as [->|Hroot].
  - unfold bind in Hrun.
    destruct (kodo.List_pages d fuel (kodo.getKey d "/")
                (if String.eqb (kodo.getKey d "") "" then "/" else "") "" [] [] st)
      as [[r|m| |] st1] eqn:Hp; try discriminate.
    apply List_pages_sound in Hp. destruct Hp as (evs & pages & o & b' & -> & Hpg & ->).
    exists evs, pages, o, b'. rewrite as_directory_root. split; [|split; [exact Hpg|]].
    + destruct o; simpl in Hrun; inversion Hrun; reflexivity.
    + unfold Spec.List_outcome, Spec.listed in *. fold (Spec.root_prefix d) in Hrun.
      destruct o; simpl in Hrun; inversion Hrun; subst; [reflexivity|].
      simpl. now destruct (Spec.files_of d (Spec.root_prefix d) pages
                             ++ Spec.directories_of d (Spec.root_prefix d) pages).
  - destruct (last_byte_nonempty opath Hne) as [c Hc]. rewrite Hc in Hrun.
    rewrite (last_byte_as_directory opath c Hc) in Hrun. unfold bind in Hrun.
    destruct (kodo.List_pages d fuel (kodo.getKey d (Spec.as_directory opath))
                (if String.eqb (kodo.getKey d "") "" then "/" else "") "" [] [] st)
      as [[r|m| |] st1] eqn:Hp; try discriminate.
    apply List_pages_sound in Hp. destruct Hp as (evs & pages & o & b' & -> & Hpg & ->).
    exists evs, pages, o, b'. split; [|split; [exact Hpg|]].
    + unfold Spec.listed in Hrun. destruct o; simpl in Hrun; [now inversion Hrun|].
      destruct (Spec.files_of d _ pages), (Spec.directories_of d _ pages);
        now inversion Hrun.
    + unfold Spec.List_outcome, Spec.listed in *. fold (Spec.root_prefix d) in Hrun.
      destruct (String.eqb_spec opath "/") as [|_]; [contradiction|].
      destruct o; simpl in Hrun; [now inversion Hrun|].
      destruct (Spec.files_of d (Spec.root_prefix d) pages) as [|f fs],
               (Spec.directories_of d (Spec.root_prefix d) pages) as [|g gs];
        now inversion Hrun.
Qed.

Lemma List_complete (opath : string) b evs pages o b' :
  opath <> "" ->
  Spec.paging (kodo.getKey d (Spec.as_directory opath)) "/" kodo.listMax "" b evs pages o b' ->
  forall fuel (st : World B),
  remote st = b -> (length pages < fuel)%nat ->
  kodo.List d fuel opath st = (Return (Spec.List_outcome d opath pages o), extend st b' evs).
Proof.
  intros Hne Hpg fuel st Hb Hfuel. unfold kodo.List.
  destruct (String.eqb_spec opath "/") as [->|Hroot].
  - unfold bind. rewrite as_directory_root in Hpg.
    rewrite (List_pages_complete _ _ _ _ _ _ _ _ Hpg fuel [] [] st Hb Hfuel).
    unfold Spec.List_outcome, Spec.listed. fold (Spec.root_prefix d).
    destruct o; simpl; [reflexivity|].
    now destruct (Spec.files_of d (Spec.root_prefix d) pages
                  ++ Spec.directories_of d (Spec.root_prefix d) pages).
  - destruct (last_byte_nonempty opath Hne) as [c Hc]. rewrite Hc.
    rewrite (last_byte_as_directory opath c Hc). unfold bind.
    rewrite (List_pages_complete _ _ _ _ _ _ _ _ Hpg fuel [] [] st Hb Hfuel).
    unfold Spec.List_outcome, Spec.listed. fold (Spec.root_prefix d).
    rewrite (proj2 (String.eqb_neq opath "/") Hroot).
    destruct o; simpl; [reflexivity|].
    now destruct (Spec.files_of d (Spec.root_prefix d) pages) as [|f fs],
                 (Spec.directories_of d (Spec.root_prefix d) pages) as [|g gs].
Qed.

End Listing.

(** ** What [List] returns *)

Lemma Replace1_no_root (s : string) :
  strings.Replace1 s "" "/" = String "/"%char s.
Proof.
  unfold strings.Replace1. simpl.
  destruct s; reflexivity.
Qed.

Lemma getKey_New_no_root (p : kodo.DriverParameters) :
  kodo.RootDirectory p = "" \/ kodo.RootDirectory p = "/" ->
  kodo.getKey (kodo.New p) "" = "".
Proof.
  unfold kodo.getKey, kodo.New; simpl. intros [-> | ->]; reflexivity.
Qed.

Lemma found_nothing (d : kodo.driver) (rootPrefix : string) (pages : list ListRet) :
  Spec.files_of d rootPrefix pages ++ Spec.directories_of d rootPrefix pages = []
  <-> Forall Spec.page_empty pages.
Proof.
  unfold Spec.files_of, Spec.directories_of, Spec.page_empty.
  induction pages as [|r pages IH]; simpl.
  - split; auto.
  - split.
    + intros Happ. apply app_eq_nil in Happ as [Hf Hd].
      apply app_eq_nil in Hf as [Hf1 Hf2]. apply app_eq_nil in Hd as [Hd1 Hd2].
      constructor.
      * split; [now apply map_eq_nil in Hf1 | now apply map_eq_nil in Hd1].
      * apply IH. now rewrite Hf2, Hd2.
    + intros Hall. inversion Hall as [|r' pages' [He Hc] Hrest]; subst.
      apply IH in Hrest. apply app_eq_nil in Hrest as [Hf Hd].
      now rewrite He, Hc, Hf, Hd.
Qed.

Lemma found_rooted (d : kodo.driver) (pages : list ListRet) :
  kodo.getKey d "" = "" ->
  Forall Spec.rooted
         (Spec.files_of d (Spec.root_prefix d) pages
          ++ Spec.directories_of d (Spec.root_prefix d) pages).
Proof.
  intros Hroot. unfold Spec.root_prefix. rewrite Hroot. simpl.
  apply Forall_app; split; apply Forall_forall; intros x Hin.
  - unfold Spec.files_of in Hin. apply in_flat_map in Hin as (r & _ & Hin).
    apply in_map_iff in Hin as (item & <- & _).
    unfold Spec.file_path. rewrite Hroot, Replace1_no_root. now eexists.
  - unfold Spec.directories_of in Hin. apply in_flat_map in Hin as (r & _ & Hin).
    apply in_map_iff in Hin as (prefix & <- & _).
    unfold Spec.directory_path. rewrite Hroot, Replace1_no_root. now eexists.
Qed.

Lemma List_outcome_not_found (d : kodo.driver) (opath : string)
  (pages : list ListRet) (o : option sdk_error) :
  Spec.List_outcome d opath pages o = Err (PathNotFoundError opath kodo.driverName)
  <-> opath <> "/" /\ o = None /\ Forall Spec.page_empty pages.
Proof.
  unfold Spec.List_outcome. rewrite <- (found_nothing d (Spec.root_prefix d) pages).
  destruct o as [e|].
  - split; [discriminate | now intros (_ & Ho & _)].
  - destruct (Spec.files_of d (Spec.root_prefix d) pages
              ++ Spec.directories_of d (Spec.root_prefix d) pages) as [|x xs].
    + destruct (String.eqb_spec opath "/") as [->|Hne].
      * split; [discriminate | now intros (Hne & _)].
      * split; auto.
    + split; [discriminate | now intros (_ & _ & Hnil)].
Qed.

Section ListingClaims.

Context {B : Type} `{Provider B}.

(** C5: a page call answered with the provider's code 599 is made once more
    with the same prefix, delimiter, marker and limit, two calls at most, and
    the answer of the last call stands; [List] asks for the first page with
    the empty marker, for each further page with the marker the page before
    returned, stops at the page that returns the empty marker, and hands a
    failure that is left after the retry to its caller.  Conversely a
    pagination of the provider that ends is what [List] returns, given as
    many iterations as there are pages. *)
Theorem C5_retry_and_pagination (d : kodo.driver) :
  (forall prefix delimiter marker limit (st : World B),
     exists evs r b',
       kodo.bucketlistWithRetry prefix delimiter marker limit st = (r, extend st b' evs)
       /\ Spec.attempts prefix delimiter marker limit (remote st) evs r b'
       /\ (1 <= length evs <= 2)%nat)
  /\ (forall fuel opath (st st' : World B) res,
        opath <> "" ->
        kodo.List d fuel opath st = (Return res, st') ->
        exists evs pages o b',
          st' = extend st b' evs
          /\ Spec.paging (kodo.getKey d (Spec.as_directory opath)) "/" kodo.listMax ""
                         (remote st) evs pages o b'
          /\ res = Spec.List_outcome d opath pages o
          /\ (forall e, o = Some e -> res = Err (Sdk e)))
  /\ (forall opath (st : World B) evs pages o b' fuel,
        opath <> "" ->
        Spec.paging (kodo.getKey d (Spec.as_directory opath)) "/" kodo.listMax ""
                    (remote st) evs pages o b' ->
        (length pages < fuel)%nat ->
        kodo.List d fuel opath st
        = (Return (Spec.List_outcome d opath pages o), extend st b' evs)).
Proof.
  split; [|split].
  - intros prefix delimiter marker limit st.
    destruct (bucketlistWithRetry_attempts prefix delimiter marker limit st)
      as (evs & r & b' & Hrun & Hatt).
    exists evs, r, b'. repeat split; try assumption;
      now destruct (attempts_at_most_two _ _ _ _ _ _ _ _ Hatt) as [[? ?] _].
  - intros fuel opath st st' res Hne Hrun.
    destruct (List_sound d fuel opath st st' res Hne Hrun)
      as (evs & pages & o & b' & Hst & Hpg & Hres).
    exists evs, pages, o, b'. repeat split; try assumption.
    intros e ->. exact Hres.
  - intros opath st evs pages o b' fuel Hne Hpg Hfuel.
    now apply (List_complete d opath (remote st) evs pages o b' Hne Hpg).
Qed.

(** C7: with the root directory of the configuration empty or "/", every
    path [List] returns starts with "/"; and for a path to list that is not
    empty, [List] answers PathNotFoundError exactly when that path is not
    "/" and the pagination under it ran to its last page without an entry
    or a common prefix on any page. *)
Theorem C7_list_rooted_paths_and_not_found
  (p : kodo.DriverParameters) (opath : string) (st : World B) :
  opath <> "" ->
  (kodo.RootDirectory p = "" \/ kodo.RootDirectory p = "/" ->
   forall fuel paths st',
     kodo.List (kodo.New p) fuel opath st = (Return (Ok paths), st') ->
     Forall Spec.rooted paths)
  /\ ((exists fuel,
         fst (kodo.List (kodo.New p) fuel opath st)
         = Return (Err (PathNotFoundError opath kodo.driverName)))
      <-> opath <> "/"
          /\ exists evs pages b',
               Spec.paging (kodo.getKey (kodo.New p) (Spec.as_directory opath)) "/"
                           kodo.listMax "" (remote st) evs pages None b'
               /\ Forall Spec.page_empty pages).
Proof.
  intros Hne. split.
  - intros Hroot fuel paths st' Hrun.
    apply getKey_New_no_root in Hroot.
    destruct (List_sound _ fuel opath st st' _ Hne Hrun)
      as (evs & pages & o & b' & _ & _ & Hres).
    unfold Spec.List_outcome in Hres. destruct o; [discriminate|].
    pose proof (found_rooted (kodo.New p) pages Hroot) as Hall.
    destruct (Spec.files_of (kodo.New p) (Spec.root_prefix (kodo.New p)) pages
              ++ Spec.directories_of (kodo.New p) (Spec.root_prefix (kodo.New p)) pages)
      as [|x xs].
    + destruct (String.eqb opath "/"); inversion Hres. constructor.
    + inversion Hres. exact Hall.
  - split.
    + intros [fuel Hrun].
      destruct (kodo.List (kodo.New p) fuel opath st) as [r st'] eqn:Hl.
      simpl in Hrun. subst r.
      destruct (List_sound _ fuel opath st st' _ Hne Hl)
        as (evs & pages & o & b' & _ & Hpg & Hres).
      symmetry in Hres. apply List_outcome_not_found in Hres as (Hnr & -> & Hall).
      split; [exact Hnr|]. now exists evs, pages, b'.
    + intros (Hnr & evs & pages & b' & Hpg & Hall).
      exists (S (length pages)).
      rewrite (List_complete _ opath (remote st) evs pages None b' Hne Hpg
                 (S (length pages)) st eq_refl (Nat.lt_succ_diag_r _)).
      cbn [fst]. f_equal. apply List_outcome_not_found. auto.
Qed.

End ListingClaims.

(** ** Delete *)

Section Deleting.

Context {B : Type} `{Provider B}.

Lemma deleted_run (items : list ListItem) b evs res b' :
  Spec.deleted items b evs res b' ->
  forall st : World B, remote st = b ->
  kodo.Delete_items items st = (res, extend st b' evs).
Proof.
  induction 1 as [b
                 | item rest b b1 evs res b' Hd Hrest IH
                 | item rest b b1 e evs res b' Hd Hgone Hrest IH
                 | item rest b b' e Hd Hkeep];
    intros st Hb; subst b; cbn [kodo.Delete_items]; unfold bind, kodo.call_Delete.
  - unfold ret. now rewrite extend_nil.
  - rewrite Hd. unfold kodo.refreshCache. cbv beta iota.
    erewrite IH by reflexivity. unfold extend; simpl. now rewrite <- !app_assoc.
  - rewrite Hd. apply isKeyNotExists_missing in Hgone. rewrite Hgone.
    erewrite IH by reflexivity. unfold extend; simpl. now rewrite <- !app_assoc.
  - rewrite Hd. apply isKeyNotExists_present in Hkeep. now rewrite Hkeep.
Qed.

Lemma Delete_items_deleted (items : list ListItem) :
  forall st : World B,
  exists evs res b',
    kodo.Delete_items items st = (res, extend st b' evs)
    /\ Spec.deleted items (remote st) evs res b'.
Proof.
  induction items as [|item rest IH]; intros st.
  - exists [], None, (remote st). split; [|constructor].
    simpl. unfold ret. now rewrite extend_nil.
  - assert (Hex : exists evs res b', Spec.deleted (item :: rest) (remote st) evs res b').
    { destruct (bucket_Delete (remote st) (Key item)) as [b1 [e|]] eqn:Hd.
      - destruct (kodo.isKeyNotExists (Some e)) eqn:Hk.
        + destruct (IH (extend st b1 [])) as (evs & res & b' & _ & Hrest).
          exists (EvDelete (Key item) (Some e) :: evs), res, b'.
          eapply Spec.deleted_gone; eauto. now apply isKeyNotExists_missing.
        + exists [EvDelete (Key item) (Some e)], (Some (Sdk e)), b1.
          eapply Spec.deleted_fail; eauto. now apply isKeyNotExists_present.
      - destruct (IH (extend st b1 [])) as (evs & res & b' & _ & Hrest).
        exists (EvDelete (Key item) None :: EvRefresh (Key item) :: evs), res, b'.
        eapply Spec.deleted_ok; eauto. }
    destruct Hex as (evs & res & b' & Hdel).
    exists evs, res, b'. split; [|exact Hdel]. now apply deleted_run with (b := remote st).
Qed.

Variable d : kodo.driver.

Lemma Delete_pages_sound (fuel : nat) :
  forall path marker cnt (st st' : World B) res,
  kodo.Delete_pages d fuel path marker cnt st = (Return res, st') ->
  exists evs b',
    st' = extend st b' evs
    /\ Spec.deleting (kodo.getKey d path) path marker cnt (remote st) evs res b'.
Proof.
  induction fuel as [|fuel IH]; intros path marker cnt st st' res Hrun.
  - discriminate.
  - simpl in Hrun. unfold bind in Hrun.
    destruct (bucketlistWithRetry_attempts (kodo.getKey d path) "" marker kodo.listMax st)
      as (evs & r & b1 & Hcall & Hatt).
    rewrite Hcall in Hrun.
    destruct (kodo.fatal (listErr r)) as [e|] eqn:Hf.
    { inversion Hrun; subst. exists evs, b1. split; [reflexivity|].
      eapply Spec.deleting_fail; eauto. now apply fatal_some. }
    apply fatal_none in Hf.
    destruct (Z.eqb_spec (int64_add cnt (len (entries r))) 0) as [Hz|Hnz].
    { inversion Hrun; subst. exists evs, b1. split; [reflexivity|].
      eapply Spec.deleting_nothing; eauto. }
    destruct (Delete_items_deleted (entries r) (extend st b1 evs))
      as (devs & dres & b2 & Hditems & Hdel).
    rewrite Hditems in Hrun. rewrite extend_extend in Hrun. simpl in Hdel.
    destruct dres as [e|].
    { inversion Hrun; subst. exists (evs ++ devs), b2. split; [reflexivity|].
      eapply Spec.deleting_stop; eauto. }
    destruct (String.eqb_spec (markerOut r) "") as [Hm|Hm].
    { inversion Hrun; subst. exists (evs ++ devs), b2. split; [reflexivity|].
      eapply Spec.deleting_last; eauto. }
    apply IH in Hrun. destruct Hrun as (evs' & b' & -> & Hrest).
    exists (evs ++ devs ++ evs'), b'. split.
    + rewrite extend_extend. now rewrite <- app_assoc.
    + eapply Spec.deleting_more; eauto.
Qed.

Lemma Delete_pages_complete path marker cnt b evs res b' :
  Spec.deleting (kodo.getKey d path) path marker cnt b evs res b' ->
  exists n, forall fuel (st : World B),
    remote st = b -> (n <= fuel)%nat ->
    kodo.Delete_pages d fuel path marker cnt st = (Return res, extend st b' evs).
Proof.
  induction 1 as [marker cnt b evs r e b' Hatt Hfail
                 | marker cnt b evs r b' Hatt Hok Hz
                 | marker cnt b evs r b1 devs e b' Hatt Hok Hnz Hdel
                 | marker cnt b evs r b1 devs b' Hatt Hok Hnz Hdel Hm
                 | marker cnt b evs r b1 devs b2 evs' res b' Hatt Hok Hnz Hdel Hm Hrest IH].
  1-4: exists 1%nat; intros fuel st Hb Hfuel;
       (destruct fuel as [|fuel]; [lia|]);
       simpl; unfold bind; rewrite (attempts_run _ _ _ _ _ _ _ _ Hatt st Hb).
  - apply fatal_some in Hfail. now rewrite Hfail.
  - apply fatal_none in Hok. rewrite Hok.
    apply Z.eqb_eq in Hz. now rewrite Hz.
  - apply fatal_none in Hok. rewrite Hok.
    apply Z.eqb_neq in Hnz. rewrite Hnz.
    rewrite (deleted_run _ _ _ _ _ Hdel (extend st b1 evs) eq_refl).
    now rewrite extend_extend.
  - apply fatal_none in Hok. rewrite Hok.
    apply Z.eqb_neq in Hnz. rewrite Hnz.
    rewrite (deleted_run _ _ _ _ _ Hdel (extend st b1 evs) eq_refl).
    rewrite Hm. simpl. now rewrite extend_extend.
  - destruct IH as [n IH]. exists (S n). intros fuel st Hb Hfuel.
    destruct fuel as [|fuel]; [lia|].
    simpl; unfold bind; rewrite (attempts_run _ _ _ _ _ _ _ _ Hatt st Hb).
    apply fatal_none in Hok. rewrite Hok.
    apply Z.eqb_neq in Hnz. rewrite Hnz.
    rewrite (deleted_run _ _ _ _ _ Hdel (extend st b1 evs) eq_refl).
    destruct (String.eqb_spec (markerOut r) "") as [|_]; [contradiction|].
    rewrite IH; [ | reflexivity | lia ].
    rewrite !extend_extend. now rewrite <- ?app_assoc.
Qed.

(** What one page's deletes leave in the trace: a delete for every key
    reached, and a refresh exactly behind each delete that went through. *)
Lemma deleted_events (items : list ListItem) b evs res b' :
  Spec.deleted items b evs res b' ->
  (res = None ->
   map Key items
   = flat_map (fun ev => match ev with EvDelete k _ => [k] | _ => [] end) evs)
  /\ flat_map (fun ev => match ev with EvRefresh k => [k] | _ => [] end) evs
     = flat_map (fun ev => match ev with EvDelete k None => [k] | _ => [] end) evs.
Proof.
  induction 1 as [b
                 | item rest b b1 evs res b' Hd Hrest [IH1 IH2]
                 | item rest b b1 e evs res b' Hd Hgone Hrest [IH1 IH2]
                 | item rest b b' e Hd Hkeep]; simpl.
  - auto.
  - split; [intros Hn; f_equal; auto | f_equal; exact IH2].
  - split; [intros Hn; f_equal; auto | exact IH2].
  - split; [discriminate | reflexivity].
Qed.

(** C6: [Delete] asks for the keys under the key of the path page by page
    and, page by page, deletes every key listed, in order; a failing list
    call or per-key delete ends it with that error, except that a per-key
    delete answered with code 612 is passed over; each delete that went
    through is followed by a refresh request for that key; and when the
    first page comes back without a key, the answer is PathNotFoundError.
    Every run that returns is such a run, and every such run of the
    provider is returned given enough iterations. *)
Theorem C6_delete_pages_keys_refresh :
  (forall fuel path (st st' : World B) res,
     kodo.Delete d fuel path st = (Return res, st') ->
     exists evs b',
       st' = extend st b' evs
       /\ Spec.deleting (kodo.getKey d path) path "" 0 (remote st) evs res b')
  /\ (forall path (st : World B) evs res b',
        Spec.deleting (kodo.getKey d path) path "" 0 (remote st) evs res b' ->
        exists n, forall fuel, (n <= fuel)%nat ->
          kodo.Delete d fuel path st = (Return res, extend st b' evs))
  /\ (forall fuel path (st : World B) evs r b',
        Spec.attempts (kodo.getKey d path) "" "" kodo.listMax (remote st) evs r b' ->
        Spec.page_ok r -> entries r = [] ->
        kodo.Delete d (S fuel) path st
        = (Return (Some (PathNotFoundError path kodo.driverName)), extend st b' evs))
  /\ (forall items (st : World B),
        exists evs res b',
          kodo.Delete_items items st = (res, extend st b' evs)
          /\ Spec.deleted items (remote st) evs res b'
          /\ (res = None ->
              map Key items
              = flat_map (fun ev => match ev with EvDelete k _ => [k] | _ => [] end) evs)
          /\ flat_map (fun ev => match ev with EvRefresh k => [k] | _ => [] end) evs
             = flat_map (fun ev => match ev with EvDelete k None => [k] | _ => [] end) evs).
Proof.
  split; [|split; [|split]].
  - intros fuel path st st' res Hrun. now apply Delete_pages_sound with (fuel := fuel).
  - intros path st evs res b' Hdel.
    destruct (Delete_pages_complete _ _ _ _ _ _ _ Hdel) as [n Hn].
    exists n. intros fuel Hfuel. now apply Hn.
  - intros fuel path st evs r b' Hatt Hok Hnil.
    unfold kodo.Delete. simpl. unfold bind.
    rewrite (attempts_run _ _ _ _ _ _ _ _ Hatt st eq_refl).
    apply fatal_none in Hok. rewrite Hok, Hnil. reflexivity.
  - intros items st.
    destruct (Delete_items_deleted items st) as (evs & res & b' & Hrun & Hdel).
    exists evs, res, b'. destruct (deleted_events _ _ _ _ _ Hdel) as [He Hr].
    auto.
Qed.

End Deleting.

(** ** Stat, Writer, Move, Reader *)

Section Facade.

Context {B : Type} `{Provider B}.
Variable d : kodo.driver.

Lemma Stat_run (path : string) (st : World B) evs r b' :
  Spec.attempts (kodo.getKey d path) "" "" 1 (remote st) evs r b' ->
  kodo.Stat d path st
  = (match kodo.fatal (listErr r) with
     | Some e => Err (Sdk e)
     | None =>
         match entries r with
         | [] => Err (PathNotFoundError path kodo.driverName)
         | item :: _ =>
             if String.eqb (kodo.getKey d path) (Key item)
             then Ok {| kodo.Path := path; kodo.Size := Fsize item;
                        kodo.ModTime := Some (int64_mul (PutTime item) 100);
                        kodo.IsDir := false |}
             else Ok {| kodo.Path := path; kodo.Size := 0;
                        kodo.ModTime := None; kodo.IsDir := true |}
         end
     end, extend st b' evs).
Proof.
  intros Hatt. unfold kodo.Stat, bind.
  rewrite (attempts_run _ _ _ _ _ _ _ _ Hatt st eq_refl).
  destruct (kodo.fatal (listErr r)); [reflexivity|].
  destruct (entries r) as [|item rest]; [reflexivity|].
  now destruct (String.eqb (kodo.getKey d path) (Key item)).
Qed.

(** C2: opened for append, [Writer] asks [Stat] first.  When [Stat] answers
    with a file info the session starts with [from] and [size] at that
    info's size, which is the stored size of the object when the key listed
    is the key of the path; when [Stat] answers PathNotFoundError for the
    path the session is the one [Writer] gives without append, with [from]
    0. *)
Theorem C2_append_resumes_or_starts_fresh (path : string) (st : World B) :
  (forall stat st1,
     kodo.Stat d path st = (Ok stat, st1) ->
     kodo.Writer d path true st = (Ok (kodo.newFileWriter path (kodo.Size stat)), st1)
     /\ kodo.from (kodo.newFileWriter path (kodo.Size stat)) = kodo.Size stat)
  /\ (forall evs r b' item rest,
        Spec.attempts (kodo.getKey d path) "" "" 1 (remote st) evs r b' ->
        Spec.page_ok r -> entries r = item :: rest -> Key item = kodo.getKey d path ->
        exists w,
          kodo.Writer d path true st = (Ok w, extend st b' evs)
          /\ kodo.from w = Fsize item /\ kodo.size w = Fsize item)
  /\ (forall st1,
        kodo.Stat d path st = (Err (PathNotFoundError path kodo.driverName), st1) ->
        kodo.Writer d path true st = (Ok (kodo.newFileWriter path 0), st1)
        /\ fst (kodo.Writer d path true st) = fst (kodo.Writer d path false st)
        /\ kodo.from (kodo.newFileWriter path 0) = 0).
Proof.
  split; [|split].
  - intros stat st1 Hs. unfold kodo.Writer, bind. rewrite Hs. split; reflexivity.
  - intros evs r b' item rest Hatt Hok Hent Hkey.
    exists (kodo.newFileWriter path (Fsize item)).
    unfold kodo.Writer, bind. rewrite (Stat_run path st evs r b' Hatt).
    apply fatal_none in Hok. rewrite Hok, Hent, Hkey, String.eqb_refl.
    repeat split.
  - intros st1 Hs. unfold kodo.Writer, bind. rewrite Hs.
    destruct (error_eq_dec (PathNotFoundError path kodo.driverName)
                           (PathNotFoundError path kodo.driverName)) as [_|Hn];
      [|congruence].
    repeat split.
Qed.

(** C9: once the request has been answered with a response, [Reader]
    answers PathNotFoundError when the status code is 404 and in every other
    case hands back the body of the response with a nil error, whatever the
    status code says. *)
Theorem C9_reader_only_404_is_not_found (path : string) (offset : Z) (st : World B)
  (b' : B) (resp : Response) :
  let url := client_MakePrivateUrl (kodo.BaseURL (kodo.params d) ++ kodo.getKey d path)%string
                                   kodo.defaultExpiry in
  let req := {| Method := "GET"; URL := url;
                Range := if 0 <? offset
                         then Some ("bytes=" ++ strconv.FormatInt offset ++ "-")%string
                         else None |} in
  http_NewRequest "GET" url = None ->
  client_Do (remote st) req = (b', inl resp) ->
  (StatusCode resp = 404 ->
   kodo.Reader d path offset st
   = (Err (PathNotFoundError path kodo.driverName), extend st b' [EvDo req (inl resp)]))
  /\ (StatusCode resp <> 404 ->
      kodo.Reader d path offset st
      = (Ok (Body resp), extend st b' [EvDo req (inl resp)])).
Proof.
  intros url req Hreq Hdo. unfold kodo.Reader. fold url. rewrite Hreq. fold req.
  unfold bind, kodo.call_Do. rewrite Hdo. split; intros Hcode.
  - apply Z.eqb_eq in Hcode. now rewrite Hcode.
  - apply Z.eqb_neq in Hcode. now rewrite Hcode.
Qed.

(** C4 (as the code has it): [Move] turns the provider's code 612 into
    PathNotFoundError for the source path and hands on any other error as
    it came.  [Stat], [List] and [Delete] hand the error of a list call
    that failed, on whatever page, to their caller as it came, code 612
    included.  They answer PathNotFoundError when the listing came back
    with nothing: for [Stat] a page without a key, for [List] of a path
    other than "/" pages without key and without common prefix, for
    [Delete] a first page without a key.  A per-key delete answered 612
    inside [Delete] is passed over, and the delete goes on with the next
    key.  [Reader] answers PathNotFoundError on the HTTP status 404 and on
    nothing else: the body comes back under any other status, and an error
    of the request comes back as it is. *)
Theorem C4_not_found_translation_by_operation :
  (forall src dst (st : World B) b' msg,
     bucket_Move (remote st) (kodo.getKey d src) (kodo.getKey d dst) true
     = (b', Some (ErrorInfo 612 msg)) ->
     fst (kodo.Move d src dst st) = Some (PathNotFoundError src kodo.driverName))
  /\ (forall src dst (st : World B) b' e,
        bucket_Move (remote st) (kodo.getKey d src) (kodo.getKey d dst) true
        = (b', Some e) ->
        ~ Spec.key_missing e ->
        fst (kodo.Move d src dst st) = Some (Sdk e))
  /\ (forall path (st : World B) evs r b' e,
        Spec.attempts (kodo.getKey d path) "" "" 1 (remote st) evs r b' ->
        Spec.page_failed r e ->
        kodo.Stat d path st = (Err (Sdk e), extend st b' evs))
  /\ (forall path (st : World B) evs r b',
        Spec.attempts (kodo.getKey d path) "" "" 1 (remote st) evs r b' ->
        Spec.page_ok r -> entries r = [] ->
        kodo.Stat d path st
        = (Err (PathNotFoundError path kodo.driverName), extend st b' evs))
  /\ (forall fuel opath (st : World B) evs pages b' e,
        opath <> "" ->
        Spec.paging (kodo.getKey d (Spec.as_directory opath)) "/" kodo.listMax ""
                    (remote st) evs pages (Some e) b' ->
        (length pages < fuel)%nat ->
        kodo.List d fuel opath st = (Return (Err (Sdk e)), extend st b' evs))
  /\ (forall fuel opath (st : World B) evs pages b',
        opath <> "" -> opath <> "/" ->
        Spec.paging (kodo.getKey d (Spec.as_directory opath)) "/" kodo.listMax ""
                    (remote st) evs pages None b' ->
        Forall Spec.page_empty pages ->
        (length pages < fuel)%nat ->
        kodo.List d fuel opath st
        = (Return (Err (PathNotFoundError opath kodo.driverName)), extend st b' evs))
  /\ (forall fuel path marker cnt (st : World B) evs r b' e,
        Spec.attempts (kodo.getKey d path) "" marker kodo.listMax (remote st) evs r b' ->
        Spec.page_failed r e ->
        kodo.Delete_pages d (S fuel) path marker cnt st
        = (Return (Some (Sdk e)), extend st b' evs))
  /\ (forall fuel path (st : World B) evs r b' e,
        Spec.attempts (kodo.getKey d path) "" "" kodo.listMax (remote st) evs r b' ->
        Spec.page_failed r e ->
        kodo.Delete d (S fuel) path st = (Return (Some (Sdk e)), extend st b' evs))
  /\ (forall fuel path (st : World B) evs r b',
        Spec.attempts (kodo.getKey d path) "" "" kodo.listMax (remote st) evs r b' ->
        Spec.page_ok r -> entries r = [] ->
        kodo.Delete d (S fuel) path st
        = (Return (Some (PathNotFoundError path kodo.driverName)), extend st b' evs))
  /\ (forall item rest (st : World B) b1 e,
        bucket_Delete (remote st) (Key item) = (b1, Some e) ->
        Spec.key_missing e ->
        kodo.Delete_items (item :: rest) st
        = kodo.Delete_items rest (extend st b1 [EvDelete (Key item) (Some e)]))
  /\ (forall path offset (st : World B) b' answer,
        let url :=
          client_MakePrivateUrl (kodo.BaseURL (kodo.params d) ++ kodo.getKey d path)%string
                                kodo.defaultExpiry in
        let req := {| Method := "GET"; URL := url;
                      Range := if 0 <? offset
                               then Some ("bytes=" ++ strconv.FormatInt offset ++ "-")%string
                               else None |} in
        http_NewRequest "GET" url = None ->
        client_Do (remote st) req = (b', answer) ->
        kodo.Reader d path offset st
        = (match answer with
           | inl resp =>
               if StatusCode resp =? 404
               then Err (PathNotFoundError path kodo.driverName)
               else Ok (Body resp)
           | inr e => Err (Sdk e)
           end, extend st b' [EvDo req answer])).
Proof.
  split; [|split; [|split; [|split; [|split; [|split; [|split; [|split; [|split;
    [|split]]]]]]]]].
  - intros src dst st b' msg Hm. unfold kodo.Move, bind, kodo.call_Move.
    now rewrite Hm.
  - intros src dst st b' e Hm Hno. unfold kodo.Move, bind, kodo.call_Move.
    rewrite Hm. cbn [fst ret kodo.parseError]. unfold ret. cbn [fst].
    destruct e as [code msg| |msg]; try reflexivity.
    cbn [kodo.parseError]. destruct (Z.eqb_spec code 612) as [->|_]; [|reflexivity].
    destruct Hno. now exists msg.
  - intros path st evs r b' e Hatt Hf. rewrite (Stat_run path st evs r b' Hatt).
    apply fatal_some in Hf. now rewrite Hf.
  - intros path st evs r b' Hatt Hok Hnil. rewrite (Stat_run path st evs r b' Hatt).
    apply fatal_none in Hok. now rewrite Hok, Hnil.
  - intros fuel opath st evs pages b' e Hne Hpg Hfuel.
    now rewrite (List_complete d opath (remote st) evs pages (Some e) b' Hne Hpg
                   fuel st eq_refl Hfuel).
  - intros fuel opath st evs pages b' Hne Hroot Hpg Hempty Hfuel.
    rewrite (List_complete d opath (remote st) evs pages None b' Hne Hpg
               fuel st eq_refl Hfuel).
    unfold Spec.List_outcome.
    rewrite (proj2 (found_nothing d (Spec.root_prefix d) pages) Hempty).
    now rewrite (proj2 (String.eqb_neq opath "/") Hroot).
  - intros fuel path marker cnt st evs r b' e Hatt Hf.
    cbn [kodo.Delete_pages]. unfold bind.
    rewrite (attempts_run _ _ _ _ _ _ _ _ Hatt st eq_refl).
    apply fatal_some in Hf. now rewrite Hf.
  - intros fuel path st evs r b' e Hatt Hf.
    unfold kodo.Delete. cbn [kodo.Delete_pages]. unfold bind.
    rewrite (attempts_run _ _ _ _ _ _ _ _ Hatt st eq_refl).
    apply fatal_some in Hf. now rewrite Hf.
  - intros fuel path st evs r b' Hatt Hok Hnil.
    unfold kodo.Delete. cbn [kodo.Delete_pages]. unfold bind.
    rewrite (attempts_run _ _ _ _ _ _ _ _ Hatt st eq_refl).
    apply fatal_none in Hok. now rewrite Hok, Hnil.
  - intros item rest st b1 e Hd Hgone.
    cbn [kodo.Delete_items]. unfold bind, kodo.call_Delete. rewrite Hd.
    apply isKeyNotExists_missing in Hgone. now rewrite Hgone.
  - intros path offset st b' answer url req Hreq Hdo.
    unfold kodo.Reader. fold url. rewrite Hreq. fold req.
    unfold bind, kodo.call_Do. rewrite Hdo.
    destruct answer as [resp|e]; [|reflexivity].
    now destruct (StatusCode resp =? 404).
Qed.

End Facade.

(** ** The write session *)

Section Session.

Context {B : Type} `{Provider B}.
Variable d : kodo.driver.

Lemma finalized_none (w : kodo.writer) :
  Spec.finalized w = None <-> Spec.opened w.
Proof.
  unfold Spec.finalized, Spec.opened.
  destruct (kodo.closed w), (kodo.committed w), (kodo.cancelled w); simpl;
    split; try discriminate; auto; intros (Ha & Hb & Hc); discriminate.
Qed.

(** The task's [PutParts] returns, having read [stream]. *)
Lemma background_run (w : kodo.writer) (stream : list Byte.byte) (st : World B) b' answer :
  bucket_PutParts (remote st) (kodo.getKey d (kodo.path w))
                  (kodo.background_parts (kodo.getKey d (kodo.path w)) (kodo.from w) stream)
  = (b', answer) ->
  kodo.background d w stream st
  = (Spec.upload_error answer,
     extend st b'
       (Spec.upload_events (kodo.getKey d (kodo.path w))
          (kodo.background_parts (kodo.getKey d (kodo.path w)) (kodo.from w) stream)
          answer)).
Proof.
  intros Hput. unfold kodo.background, bind, kodo.call_PutParts. rewrite Hput.
  destruct answer as [e|]; unfold ret, kodo.refreshCache, extend, Spec.upload_events; simpl.
  - reflexivity.
  - now rewrite <- app_assoc.
Qed.

(** [close] leaves the flags alone and the pipe gone. *)
Lemma close_keeps (w w1 : kodo.writer) (st st1 : World B) :
  kodo.close d w st = (w1, st1) ->
  kodo.path w1 = kodo.path w /\ kodo.from w1 = kodo.from w
  /\ kodo.size w1 = kodo.size w
  /\ kodo.closed w1 = kodo.closed w /\ kodo.committed w1 = kodo.committed w
  /\ kodo.cancelled w1 = kodo.cancelled w
  /\ kodo.pipe w1 = None.
Proof.
  unfold kodo.close. destruct (kodo.pipe w) as [stream|] eqn:Hp.
  - unfold bind. destruct (kodo.exitch w).
    + unfold ret. intros [= <- <-]. simpl. repeat split.
    + destruct (kodo.background d w stream st) as [e st2].
      unfold ret. intros [= <- <-]. simpl. repeat split.
  - unfold ret. intros [= <- <-]. repeat split. exact Hp.
Qed.

Lemma close_again (w : kodo.writer) (st : World B) :
  kodo.pipe w = None -> kodo.close d w st = (w, st).
Proof. intros Hp. unfold kodo.close. now rewrite Hp. Qed.

(** What [close] does while the task is reading: the stream ends, so that
    the segmented put returns, and, if that went through, one refresh
    request is made. *)
Lemma close_joins (w : kodo.writer) (stream : list Byte.byte) (st : World B) b' answer :
  kodo.pipe w = Some stream -> kodo.exitch w = false ->
  bucket_PutParts (remote st) (kodo.getKey d (kodo.path w))
                  (kodo.background_parts (kodo.getKey d (kodo.path w)) (kodo.from w) stream)
  = (b', answer) ->
  kodo.close d w st
  = (kodo.joined w (Spec.upload_error answer),
     extend st b'
       (Spec.upload_events (kodo.getKey d (kodo.path w))
          (kodo.background_parts (kodo.getKey d (kodo.path w)) (kodo.from w) stream)
          answer)).
Proof.
  intros Hp Hx Hput. unfold kodo.close. rewrite Hp, Hx.
  unfold bind. now rewrite (background_run w stream st b' answer Hput).
Qed.

(** What [close] does when the task is done already: nothing but take the
    token. *)
Lemma close_done (w : kodo.writer) (stream : list Byte.byte) (st : World B) :
  kodo.pipe w = Some stream -> kodo.exitch w = true ->
  kodo.close d w st = (kodo.joined w (kodo.err w), st).
Proof. intros Hp Hx. unfold kodo.close. now rewrite Hp, Hx. Qed.

(** A [Write] on a finished session is turned away. *)
Lemma Write_turned_away (u : kodo.upload) (w : kodo.writer) (p : list Byte.byte)
  (st : World B) (msg : string) :
  Spec.finalized w = Some msg ->
  kodo.Write d u w p st = ((Return (0, Some (Errorf msg)), w), st).
Proof.
  unfold Spec.finalized, kodo.Write, ret.
  destruct (kodo.closed w); [now intros [= <-]|].
  destruct (kodo.committed w); [now intros [= <-]|].
  destruct (kodo.cancelled w); [now intros [= <-]|].
  discriminate.
Qed.

(** A [Write] that finds the task reading, and reading on, hands over all
    of [p] and does not reach the provider. *)
Lemma Write_accepts (u : kodo.upload) (w : kodo.writer) (p : list Byte.byte) (st : World B) :
  Spec.opened w -> Spec.reading w ->
  u = kodo.Reading \/ (u = kodo.Returned /\ kodo.pipe w = None) ->
  kodo.Write d u w p st
  = ((Return (len p, None),
      {| kodo.path := kodo.path w;
         kodo.pipe := Some (Spec.carried w ++ p);
         kodo.size := int64_add (kodo.size w) (len p); kodo.from := kodo.from w;
         kodo.closed := false; kodo.committed := false; kodo.cancelled := false;
         kodo.exitch := false; kodo.err := None |}), st).
Proof.
  intros (Hc & Hm & Hx) (He & Hch) Hu. unfold kodo.Write, Spec.carried.
  rewrite Hc, Hm, Hx. unfold bind.
  destruct Hu as [-> | [-> Hp]].
  - unfold ret at 1. rewrite He.
    destruct (kodo.pipe w) as [buf|]; rewrite ?Hch, ?Hc, ?Hm, ?Hx, ?He; reflexivity.
  - rewrite Hp. unfold ret at 1. rewrite He, Hp, Hc, Hm, Hx, Hch. reflexivity.
Qed.

(** A [Write] by which time the segmented put has returned gets the error
    the put returned, and nothing of [p] is taken; should the put have
    returned nil, the call waits on the pipe for good. *)
Lemma Write_returned (w : kodo.writer) (p buf : list Byte.byte) (st : World B) b' answer :
  Spec.opened w -> Spec.reading w -> kodo.pipe w = Some buf ->
  bucket_PutParts (remote st) (kodo.getKey d (kodo.path w))
                  (kodo.background_parts (kodo.getKey d (kodo.path w)) (kodo.from w) buf)
  = (b', answer) ->
  kodo.Write d kodo.Returned w p st
  = ((match answer with
      | Some e => Return (0, Some (Sdk e))
      | None => Stuck
      end,
      {| kodo.path := kodo.path w; kodo.pipe := Some buf;
         kodo.size := kodo.size w; kodo.from := kodo.from w;
         kodo.closed := false; kodo.committed := false; kodo.cancelled := false;
         kodo.exitch := true; kodo.err := Spec.upload_error answer |}),
     extend st b'
       (Spec.upload_events (kodo.getKey d (kodo.path w))
          (kodo.background_parts (kodo.getKey d (kodo.path w)) (kodo.from w) buf)
          answer)).
Proof.
  intros (Hc & Hm & Hx) (He & Hch) Hp Hput. unfold kodo.Write.
  rewrite Hc, Hm, Hx, Hp, Hch. unfold bind, kodo.exits, bind.
  rewrite (background_run w buf st b' answer Hput). unfold ret.
  rewrite Hc, Hm, Hx. now destruct answer.
Qed.

(** A [Write] during which the segmented put returns waits on the pipe for
    good; the put has read what the pipe had carried and a part of [p]. *)
Lemma Write_returns (taken : nat) (w : kodo.writer) (p : list Byte.byte) (st : World B)
  b' answer :
  Spec.opened w -> Spec.reading w ->
  let stream := Spec.carried w ++ firstn (Nat.min taken (pred (length p))) p in
  bucket_PutParts (remote st) (kodo.getKey d (kodo.path w))
                  (kodo.background_parts (kodo.getKey d (kodo.path w)) (kodo.from w) stream)
  = (b', answer) ->
  kodo.Write d (kodo.Returns taken) w p st
  = ((Stuck,
      {| kodo.path := kodo.path w; kodo.pipe := Some stream;
         kodo.size := kodo.size w; kodo.from := kodo.from w;
         kodo.closed := false; kodo.committed := false; kodo.cancelled := false;
         kodo.exitch := true; kodo.err := Spec.upload_error answer |}),
     extend st b'
       (Spec.upload_events (kodo.getKey d (kodo.path w))
          (kodo.background_parts (kodo.getKey d (kodo.path w)) (kodo.from w) stream)
          answer)).
Proof.
  intros (Hc & Hm & Hx) (He & Hch) stream Hput. unfold kodo.Write.
  rewrite Hc, Hm, Hx. unfold bind. unfold ret at 1. rewrite He.
  unfold Spec.carried in *.
  destruct (kodo.pipe w) as [buf|]; rewrite ?Hch; unfold kodo.exits, bind; fold stream;
    rewrite (background_run w stream st b' answer Hput); unfold ret;
    now rewrite Hc, Hm, Hx.
Qed.

(** A [Write] after the segmented put has returned: the error the put left
    is returned, or, the put having returned nil, the call waits on the
    pipe for good.  Nothing changes. *)
Lemma Write_exited (u : kodo.upload) (w : kodo.writer) (p buf : list Byte.byte)
  (st : World B) :
  Spec.opened w -> kodo.pipe w = Some buf -> kodo.exitch w = true ->
  kodo.Write d u w p st
  = ((match kodo.err w with
      | Some e => Return (0, Some e)
      | None => Stuck
      end, w), st).
Proof.
  intros (Hc & Hm & Hx) Hp Hch. unfold kodo.Write. rewrite Hc, Hm, Hx, Hp, Hch.
  unfold bind. destruct u; unfold ret at 1; rewrite ?Hp, ?Hch;
    now destruct (kodo.err w).
Qed.

Lemma session_cons (fuel : nat) (c : kodo.call) (cs : list kodo.call)
  (w : kodo.writer) (st : World B) :
  kodo.session d fuel (c :: cs) w st
  = (let '(r, w1, st1) := kodo.invoke d fuel c w st in
     let '(rs, wf, st2) := kodo.session d fuel cs w1 st1 in
     (r :: rs, wf, st2)).
Proof.
  cbn [kodo.session]. unfold bind, ret.
  destruct (kodo.invoke d fuel c w st) as [[r w1] st1]. simpl.
  now destruct (kodo.session d fuel cs w1 st1) as [[rs wf] st2].
Qed.

Lemma invoke_Write (fuel : nat) (u : kodo.upload) (p : list Byte.byte)
  (w : kodo.writer) (st : World B) :
  kodo.invoke d fuel (kodo.CallWrite u p) w st
  = (let '(r, w1, st1) := kodo.Write d u w p st in (map_run snd r, w1, st1)).
Proof.
  cbn [kodo.invoke]. unfold bind, ret.
  now destruct (kodo.Write d u w p st) as [[r w1] st1].
Qed.

(** Once the segmented put has returned, no write is taken and no call is
    made. *)
Lemma session_exited (fuel : nat) (ws : list (kodo.upload * list Byte.byte))
  (w : kodo.writer) (buf : list Byte.byte) (st : World B) :
  Spec.opened w -> kodo.pipe w = Some buf -> kodo.exitch w = true ->
  exists rs,
    kodo.session d fuel (Spec.writes ws) w st = (rs, w, st)
    /\ Spec.accepted (Spec.writes ws) rs = [].
Proof.
  intros Hop Hp Hch. induction ws as [|[u p] ws IH].
  - exists []. split; reflexivity.
  - destruct IH as (rs & Hs & Hacc). cbn [Spec.writes map fst snd].
    fold (Spec.writes ws). rewrite session_cons, invoke_Write.
    rewrite (Write_exited u w p buf st Hop Hp Hch). rewrite Hs.
    eexists. split; [reflexivity|].
    destruct (kodo.err w); cbn [map_run snd Spec.accepted]; exact Hacc.
Qed.

Lemma submitted_writes (ws : list (kodo.upload * list Byte.byte)) :
  Spec.submitted (Spec.writes ws) = concat (map snd ws).
Proof.
  induction ws as [|[u p] ws IH]; [reflexivity|].
  cbn [Spec.writes Spec.submitted map flat_map concat fst snd].
  fold (Spec.writes ws). fold (Spec.submitted (Spec.writes ws)). now rewrite IH.
Qed.

(** A session of writes on a task that was reading when it began.  Either
    the task reads on to the end: every write is taken and no call is made;
    or the segmented put returns at some write: the put has read the bytes
    of the writes taken before and, when it left that write waiting, a part
    [rest] of its bytes, and nothing after. *)
Lemma writes_run (fuel : nat) (ws : list (kodo.upload * list Byte.byte)) :
  forall (w : kodo.writer) (st : World B),
  Spec.opened w -> Spec.reading w ->
  exists rs wf st1 rest more,
    kodo.session d fuel (Spec.writes ws) w st = (rs, wf, st1)
    /\ kodo.path wf = kodo.path w /\ kodo.from wf = kodo.from w /\ Spec.opened wf
    /\ (Forall (fun r => r <> Stuck) rs -> rest = [])
    /\ concat (map snd ws) = Spec.accepted (Spec.writes ws) rs ++ rest ++ more
    /\ (Forall (fun x => fst x = kodo.Reading) ws ->
        rs = map (fun _ => Return None) ws /\ st1 = st /\ Spec.reading wf)
    /\ ((Spec.reading wf /\ st1 = st /\ rest = [] /\ more = []
         /\ (ws <> [] -> kodo.pipe wf = Some (Spec.carried w ++ concat (map snd ws))))
        \/ (kodo.exitch wf = true
            /\ exists b' answer,
                 kodo.pipe wf
                 = Some (Spec.carried w ++ Spec.accepted (Spec.writes ws) rs ++ rest)
                 /\ bucket_PutParts (remote st) (kodo.getKey d (kodo.path w))
                      (kodo.background_parts (kodo.getKey d (kodo.path w)) (kodo.from w)
                         (Spec.carried w ++ Spec.accepted (Spec.writes ws) rs ++ rest))
                    = (b', answer)
                 /\ st1
                    = extend st b'
                        (Spec.upload_events (kodo.getKey d (kodo.path w))
                           (kodo.background_parts (kodo.getKey d (kodo.path w))
                              (kodo.from w)
                              (Spec.carried w ++ Spec.accepted (Spec.writes ws) rs ++ rest))
                           answer))).
Proof.
  induction ws as [|[u p] ws IH]; intros w st Hop Hrd.
  - exists [], w, st, [], []. repeat split; try apply Hop; try apply Hrd; auto.
    left. repeat split; try apply Hrd; auto. congruence.
  - cbn [Spec.writes map fst snd concat]. fold (Spec.writes ws).
    rewrite session_cons, invoke_Write.
    assert (Hcases : (u = kodo.Reading \/ (u = kodo.Returned /\ kodo.pipe w = None))
                     \/ (exists buf, u = kodo.Returned /\ kodo.pipe w = Some buf)
                     \/ (exists taken, u = kodo.Returns taken)).
    { destruct u as [| |taken]; [left; now left | | right; right; now exists taken].
      destruct (kodo.pipe w) as [buf|]; [right; left; now exists buf | left; now right]. }
    destruct Hcases as [Hacc | [(buf & -> & Hp) | (taken & ->)]].
    + (* the write is taken *)
      rewrite (Write_accepts u w p st Hop Hrd Hacc).
      match goal with
      | |- context [kodo.session d fuel _ ?x st] => set (w1 := x)
      end.
      assert (Hcar : Spec.carried w1 = Spec.carried w ++ p) by reflexivity.
      destruct (IH w1 st) as (rs & wf & st1 & rest & more & Hs & Hpath & Hfrom
                              & Hopf & Hstuck & Hsub & Hall & Hend);
        [repeat split | split; reflexivity | ].
      rewrite Hs. cbn [map_run snd] in *. rewrite Hcar in Hend.
      change (kodo.path w1) with (kodo.path w) in *.
      change (kodo.from w1) with (kodo.from w) in *.
      exists (Return None :: rs), wf, st1, rest, more.
      cbn [Spec.accepted].
      split; [reflexivity|]. split; [exact Hpath|]. split; [exact Hfrom|].
      split; [exact Hopf|]. split; [|split; [|split]].
      * intros Hno. inversion Hno; subst. auto.
      * rewrite Hsub. now rewrite <- app_assoc.
      * intros Hr. inversion Hr as [|x xs Hx Hxs]; subst.
        destruct (Hall Hxs) as (-> & -> & Hrdf). repeat split; apply Hrdf.
      * destruct Hend as [(Hrdf & -> & -> & -> & Hpipe) | (Hch & b' & answer & Hpipe & Hput & ->)].
        -- left. repeat split; try apply Hrdf. intros _.
           destruct ws as [|x ws'].
           ++ simpl in Hs. unfold ret in Hs. inversion Hs; subst wf. simpl.
              now rewrite app_nil_r.
           ++ rewrite Hpipe by discriminate. now rewrite <- app_assoc.
        -- right. split; [exact Hch|]. exists b', answer.
           rewrite <- !app_assoc in *. repeat split; assumption.
    + (* the put has returned *)
      destruct Hrd as (He & Hch).
      destruct (bucket_PutParts (remote st) (kodo.getKey d (kodo.path w))
                  (kodo.background_parts (kodo.getKey d (kodo.path w)) (kodo.from w) buf))
        as [b' answer] eqn:Hput.
      rewrite (Write_returned w p buf st b' answer Hop (conj He Hch) Hp Hput).
      match goal with
      | |- context [kodo.session d fuel _ ?w1 ?st1] =>
          destruct (session_exited fuel ws w1 buf st1) as (rs & Hs & Hacc);
            [repeat split | reflexivity | reflexivity | ]
      end.
      rewrite Hs.
      eexists _, _, _, [], (p ++ concat (map snd ws)).
      split; [reflexivity|]. cbn [kodo.path kodo.from].
      split; [reflexivity|]. split; [reflexivity|]. split; [repeat split|].
      assert (Hnone : Spec.accepted (kodo.CallWrite kodo.Returned p :: Spec.writes ws)
                        (map_run snd match answer with
                                     | Some e => Return (0, Some (Sdk e))
                                     | None => Stuck
                                     end :: rs) = []).
      { destruct answer; cbn [map_run snd Spec.accepted]; exact Hacc. }
      rewrite Hnone. unfold Spec.carried. rewrite Hp. cbn [app]. rewrite app_nil_r.
      split; [reflexivity|]. split; [reflexivity|].
      split; [intros Hr; inversion Hr as [|x xs Hx Hxs]; subst; discriminate|].
      right. split; [reflexivity|]. exists b', answer. repeat split. exact Hput.
    + (* the put returns during the write *)
      destruct (bucket_PutParts (remote st) (kodo.getKey d (kodo.path w))
                  (kodo.background_parts (kodo.getKey d (kodo.path w)) (kodo.from w)
                     (Spec.carried w ++ firstn (Nat.min taken (pred (length p))) p)))
        as [b' answer] eqn:Hput.
      rewrite (Write_returns taken w p st b' answer Hop Hrd Hput).
      match goal with
      | |- context [kodo.session d fuel _ ?w1 ?st1] =>
          destruct (session_exited fuel ws w1
                      (Spec.carried w ++ firstn (Nat.min taken (pred (length p))) p) st1)
            as (rs & Hs & Hacc);
            [repeat split | reflexivity | reflexivity | ]
      end.
      rewrite Hs.
      eexists _, _, _, (firstn (Nat.min taken (pred (length p))) p),
        (skipn (Nat.min taken (pred (length p))) p ++ concat (map snd ws)).
      split; [reflexivity|]. cbn [kodo.path kodo.from map_run Spec.accepted].
      rewrite Hacc. cbn [app].
      split; [reflexivity|]. split; [reflexivity|]. split; [repeat split|].
      split; [intros Hr; inversion Hr as [|x xs Hx Hxs]; subst; congruence|].
      split; [now rewrite app_assoc, firstn_skipn|].
      split; [intros Hr; inversion Hr as [|x xs Hx Hxs]; subst; discriminate|].
      right. split; [reflexivity|]. exists b', answer. repeat split. exact Hput.
Qed.

(** [Close] and [Commit] on an open session reach the provider through
    [close] and not otherwise. *)
Lemma completion_joins (w : kodo.writer) (st : World B) :
  Spec.opened w ->
  snd (kodo.Close d w st) = snd (kodo.close d w st)
  /\ snd (kodo.Commit d w st) = snd (kodo.close d w st).
Proof.
  intros (Hc & Hm & Hx). unfold kodo.Close, kodo.Commit, bind, ret.
  rewrite Hc, Hm, Hx. destruct (kodo.close d w st) as [w1 st1].
  now destruct (kodo.err w1).
Qed.

Lemma background_parts_shape (key : string) (sz : Z) (stream : list Byte.byte) :
  kodo.background_parts key sz stream
  = if 0 <? sz
    then [ {| PutPart.FileName := ""; PutPart.R := None; PutPart.Crc32 := 0;
              PutPart.CheckCrc := false; PutPart.Key := key;
              PutPart.From := 0; PutPart.To := sz |};
           {| PutPart.FileName := "";
              PutPart.R := Some {| content := stream; seeker := false |};
              PutPart.Crc32 := 0; PutPart.CheckCrc := false; PutPart.Key := "";
              PutPart.From := 0; PutPart.To := 0 |} ]
    else [ {| PutPart.FileName := "";
              PutPart.R := Some {| content := stream; seeker := false |};
              PutPart.Crc32 := 0; PutPart.CheckCrc := false; PutPart.Key := "";
              PutPart.From := 0; PutPart.To := 0 |} ].
Proof. unfold kodo.background_parts. now destruct (0 <? sz). Qed.

(** C3: a session opened at offset [sz] on which writes were made (at least
    one), whatever the background task did meanwhile, hands the provider,
    by the time [close] has joined the task, exactly one segmented put
    under the key of the path.  Its parts are the copy of bytes [0, sz) of
    that key, present exactly when [sz > 0], and then one reader part.
    The bytes the put has read from that part are those of the writes that
    returned nil, in the order of the writes, followed, when the put
    returned during a write and left it waiting, by [rest], bytes of that
    write; they are an initial segment of the bytes submitted.  No other
    call is made, and none before the put returns; [Close] and [Commit]
    end the session that way.  When the task reads on
    through every write, all writes return nil, no call is made before
    [close], and the bytes read are all the bytes submitted.  The uploader
    takes a copy part when [to = -1] or [to > from] and turns any other
    down as invalid; of the parts of the writer it takes the copy part and
    fails only where writing the reader part into the request does. *)
Theorem C3_parts_of_the_segmented_put (fuel : nat) (path : string) (sz : Z)
  (ws : list (kodo.upload * list Byte.byte)) (st : World B) :
  ws <> [] ->
  let key := kodo.getKey d path in
  let copy := {| PutPart.FileName := ""; PutPart.R := None; PutPart.Crc32 := 0;
                 PutPart.CheckCrc := false; PutPart.Key := key;
                 PutPart.From := 0; PutPart.To := sz |} in
  let direct stream :=
    {| PutPart.FileName := "";
       PutPart.R := Some {| content := stream; seeker := false |};
       PutPart.Crc32 := 0; PutPart.CheckCrc := false; PutPart.Key := "";
       PutPart.From := 0; PutPart.To := 0 |} in
  let parts stream := if 0 <? sz then [copy; direct stream] else [direct stream] in
  let calls stream answer :=
    EvPutParts key (parts stream) answer
    :: match answer with
       | None => [EvRefresh key]
       | Some _ => []
       end in
  (exists rs wf st1 rest more b' answer,
     let stream := Spec.accepted (Spec.writes ws) rs ++ rest in
     kodo.session d fuel (Spec.writes ws) (kodo.newFileWriter path sz) st = (rs, wf, st1)
     /\ (Forall (fun r => r <> Stuck) rs -> rest = [])
     /\ concat (map snd ws) = stream ++ more
     /\ bucket_PutParts (remote st) key (parts stream) = (b', answer)
     /\ (st1 = st \/ st1 = extend st b' (calls stream answer))
     /\ snd (kodo.close d wf st1) = extend st b' (calls stream answer)
     /\ snd (kodo.Close d wf st1) = extend st b' (calls stream answer)
     /\ snd (kodo.Commit d wf st1) = extend st b' (calls stream answer)
     /\ (Forall (fun x => fst x = kodo.Reading) ws ->
         rs = map (fun _ => Return None) ws /\ st1 = st
         /\ stream = concat (map snd ws)))
  /\ (forall arg idx k from to,
        (to = -1 \/ from < to ->
         kodocli.addCopyFile arg idx k from to
         = Ok (kodocli.append_part arg
                 {| part.Type_ := "copy"; part.Crc32 := 0; part.StorageFile := k;
                    part.Range := (strconv.FormatInt from ++ "-"
                                   ++ strconv.FormatInt to)%string |}))
        /\ (~ (to = -1 \/ from < to) ->
            kodocli.addCopyFile arg idx k from to
            = Err (Errorf "invalid from&to argument")))
  /\ (forall os_Open crc32_IEEE writer_CreateFormFile io_Copy_crc rs_Seek io_Copy
             arg stream,
        let field := if 0 <? sz then "part-1" else "part-0" in
        kodocli.copyMultipart_parts os_Open crc32_IEEE writer_CreateFormFile
                                    io_Copy_crc rs_Seek io_Copy arg 0 (parts stream)
        = match writer_CreateFormFile field with
          | Some e => Err e
          | None =>
              match io_Copy field {| content := stream; seeker := false |} with
              | Some msg => Err (Errorf ("io.Copy failed:" ++ msg))
              | None =>
                  Ok {| kodocli.MimeType := kodocli.MimeType arg;
                        kodocli.Parts :=
                          kodocli.Parts arg
                          ++ (if 0 <? sz
                              then [ {| part.Type_ := "copy"; part.Crc32 := 0;
                                        part.StorageFile := key;
                                        part.Range := ("0-" ++ strconv.FormatInt sz)%string |} ]
                              else [])
                          ++ [ {| part.Type_ := "direct"; part.Crc32 := 0;
                                  part.StorageFile := ""; part.Range := "" |} ] |}
              end
          end).
Proof.
  intros Hws key copy direct parts calls. split; [|split].
  - destruct (writes_run fuel ws (kodo.newFileWriter path sz) st)
      as (rs & wf & st1 & rest & more & Hs & Hpath & Hfrom & Hopf & Hstuck & Hsub
          & Hall & Hend);
      [repeat split | split; reflexivity |].
    cbn [kodo.newFileWriter kodo.path kodo.from] in Hpath, Hfrom, Hend.
    unfold Spec.carried in Hend. cbn [kodo.pipe kodo.newFileWriter app] in Hend.
    fold key in Hend.
    assert (Hparts : forall stream, kodo.background_parts key sz stream = parts stream).
    { intros stream. apply background_parts_shape. }
    assert (Hcalls : forall stream answer,
               Spec.upload_events key (parts stream) answer = calls stream answer)
      by reflexivity.
    destruct Hend as [(Hrd & -> & -> & -> & Hpipe)
                     | (Hch & b' & answer & Hpipe & Hput & ->)].
    + specialize (Hpipe Hws). rewrite !app_nil_r in Hsub.
      destruct (bucket_PutParts (remote st) key (parts (concat (map snd ws))))
        as [b' answer] eqn:Hput.
      exists rs, wf, st, [], [], b', answer. cbv zeta. rewrite !app_nil_r, <- Hsub.
      split; [exact Hs|]. split; [reflexivity|]. split; [reflexivity|].
      split; [exact Hput|]. split; [now left|].
      assert (Hcl : snd (kodo.close d wf st)
                    = extend st b' (calls (concat (map snd ws)) answer)).
      { rewrite (close_joins wf (concat (map snd ws)) st b' answer Hpipe (proj2 Hrd)).
        - rewrite Hpath, Hfrom. fold key. rewrite Hparts. reflexivity.
        - rewrite Hpath, Hfrom. fold key. rewrite Hparts. exact Hput. }
      destruct (completion_joins wf st Hopf) as (-> & ->).
      split; [exact Hcl|]. split; [exact Hcl|]. split; [exact Hcl|].
      intros Hr. destruct (Hall Hr) as (Hrs & _ & _). repeat split. exact Hrs.
    + rewrite Hparts in Hput. rewrite Hparts, Hcalls in Hs.
      exists rs, wf, 
        (extend st b' (calls (Spec.accepted (Spec.writes ws) rs ++ rest) answer)),
        rest, more, b', answer. cbv zeta.
      split; [exact Hs|]. split; [exact Hstuck|].
      split; [now rewrite <- app_assoc|]. split; [exact Hput|].
      split; [now right|].
      destruct (completion_joins wf
                  (extend st b' (calls (Spec.accepted (Spec.writes ws) rs ++ rest) answer))
                  Hopf) as (-> & ->).
      rewrite (close_done wf _ _ Hpipe Hch). cbn [snd].
      split; [reflexivity|]. split; [reflexivity|]. split; [reflexivity|].
      intros Hr. destruct (Hall Hr) as (Hrs & Hst & _). exfalso.
      apply (f_equal (fun w => length (trace w))) in Hst.
      unfold extend in Hst. cbn [trace] in Hst. rewrite length_app in Hst.
      unfold calls, Spec.upload_events in Hst. cbn [length] in Hst. lia.
  - intros arg idx k from to. unfold kodocli.addCopyFile. split.
    + intros [-> | Hlt].
      * reflexivity.
      * apply Z.ltb_lt in Hlt. rewrite Hlt. now rewrite orb_true_r.
    + intros Hno. destruct (Z.eqb_spec to (-1)) as [->|Hne]; [tauto|].
      destruct (Z.ltb_spec from to) as [Hlt|Hge]; [tauto|]. reflexivity.
  - intros os_Open crc32_IEEE writer_CreateFormFile io_Copy_crc rs_Seek io_Copy
           arg stream field.
    unfold parts, field. destruct (0 <? sz) eqn:Hsz.
    + cbn [kodocli.copyMultipart_parts]. unfold copy, direct.
      cbn [PutPart.FileName PutPart.R PutPart.Key PutPart.From PutPart.To
           PutPart.CheckCrc PutPart.Crc32 String.eqb negb].
      unfold kodocli.addCopyFile. rewrite Hsz, orb_true_r.
      unfold kodocli.addDirectFile. cbn [andb]. 
      change (strconv.FormatInt (0 + 1)) with "1".
      change ("part-" ++ "1")%string with "part-1".
      destruct (writer_CreateFormFile "part-1"); [reflexivity|].
      destruct (io_Copy "part-1" _); [reflexivity|].
      unfold kodocli.append_part. cbn [kodocli.MimeType kodocli.Parts].
      now rewrite <- app_assoc.
    + cbn [kodocli.copyMultipart_parts]. unfold direct.
      cbn [PutPart.FileName PutPart.R PutPart.Key PutPart.From PutPart.To
           PutPart.CheckCrc PutPart.Crc32 String.eqb negb].
      unfold kodocli.addDirectFile. cbn [andb].
      change (strconv.FormatInt 0) with "0".
      change ("part-" ++ "0")%string with "part-0".
      destruct (writer_CreateFormFile "part-0"); [reflexivity|].
      destruct (io_Copy "part-0" _); reflexivity.
Qed.

(** C1 (as the code has it): a [Close] that succeeds sets [closed], a
    [Commit] that succeeds sets [committed], a [Cancel] that is let in sets
    [cancelled].  Once a flag is set, [Write] and [Commit] are turned away
    with the message that names the first flag set, in the order closed,
    committed, cancelled; [Cancel] is turned away once [closed] or
    [committed] is set, and [Close] once [closed] is set.  A call that is
    turned away changes neither the session nor the trace nor the provider. *)
Theorem C1_calls_after_a_terminal_flag (fuel : nat) (w : kodo.writer)
  (u : kodo.upload) (p : list Byte.byte) (st : World B) (msg : string) :
  Spec.finalized w = Some msg ->
  (kodo.Write d u w p st = ((Return (0, Some (Errorf msg)), w), st)
   /\ kodo.Commit d w st = ((Some (Errorf msg), w), st))
  /\ (kodo.closed w = true ->
      msg = "already closed"
      /\ kodo.Close d w st = ((Some (Errorf msg), w), st)
      /\ kodo.Cancel d fuel w st = ((Return (Some (Errorf msg)), w), st))
  /\ (kodo.closed w = false -> kodo.committed w = true ->
      msg = "already committed"
      /\ kodo.Cancel d fuel w st = ((Return (Some (Errorf msg)), w), st))
  /\ (forall w0 w1 (st0 st1 : World B),
        kodo.Close d w0 st0 = ((None, w1), st1) -> kodo.closed w1 = true)
  /\ (forall w0 w1 (st0 st1 : World B),
        kodo.Commit d w0 st0 = ((None, w1), st1) ->
        Spec.finalized w1 = Some "already committed")
  /\ (forall w0 (st0 : World B),
        kodo.closed w0 = false -> kodo.committed w0 = false ->
        kodo.cancelled (snd (fst (kodo.Cancel d fuel w0 st0))) = true).
Proof.
  intros Hfin.
  split; [|split; [|split; [|split; [|split]]]].
  - split; [now apply Write_turned_away|].
    unfold Spec.finalized in Hfin. unfold kodo.Commit, ret.
    destruct (kodo.closed w); [inversion Hfin; reflexivity|].
    destruct (kodo.committed w); [inversion Hfin; reflexivity|].
    destruct (kodo.cancelled w); [inversion Hfin; reflexivity|].
    discriminate.
  - unfold Spec.finalized in Hfin.
    intros Hc. rewrite Hc in Hfin. inversion Hfin; subst msg.
    unfold kodo.Close, kodo.Cancel, ret. rewrite Hc. repeat split.
  - unfold Spec.finalized in Hfin.
    intros Hc Hm. rewrite Hc, Hm in Hfin. inversion Hfin; subst msg.
    unfold kodo.Cancel, ret. rewrite Hc, Hm. repeat split.
  - intros w0 w1 st0 st1. unfold kodo.Close, bind, ret.
    destruct (kodo.closed w0); [discriminate|].
    destruct (kodo.close d w0 st0) as [w2 st2].
    destruct (kodo.err w2); [discriminate|]. intros [= <- <-]. reflexivity.
  - intros w0 w1 st0 st1. unfold kodo.Commit, bind, ret.
    destruct (kodo.closed w0) eqn:Hc; [discriminate|].
    destruct (kodo.committed w0); [discriminate|].
    destruct (kodo.cancelled w0); [discriminate|].
    destruct (kodo.close d w0 st0) as [w2 st2] eqn:Hcl.
    apply close_keeps in Hcl as (_ & _ & _ & Hc2 & _).
    destruct (kodo.err w2); [discriminate|]. intros [= <- <-].
    unfold Spec.finalized. simpl. now rewrite Hc2, Hc.
  - intros w0 st0 Hc Hm. unfold kodo.Cancel, bind, ret. rewrite Hc, Hm.
    destruct (kodo.close d w0 st0) as [w2 st2].
    destruct (kodo.Delete d fuel _ st2) as [[[e|]|m| |] st3]; reflexivity.
Qed.

(** [Cancel] once the guards have let it in and [close] has joined the
    task: the flag, the delete, and the line for the log. *)
Lemma Cancel_run (fuel : nat) (w w1 : kodo.writer) (st st1 : World B) :
  kodo.closed w = false -> kodo.committed w = false ->
  kodo.close d w st = (w1, st1) ->
  kodo.Cancel d fuel w st
  = (let (r, st2) := kodo.Delete d fuel (kodo.path w) st1 in
     (match r with
      | Return (Some e) => map_run (fun _ => Some e) (kodo.errorInfo (kodo.err w1))
      | _ => r
      end,
      {| kodo.path := kodo.path w; kodo.pipe := None; kodo.size := kodo.size w;
         kodo.from := kodo.from w; kodo.closed := false; kodo.committed := false;
         kodo.cancelled := true; kodo.exitch := kodo.exitch w1;
         kodo.err := kodo.err w1 |}, st2)).
Proof.
  intros Hc Hm Hcl. unfold kodo.Cancel, bind, ret. rewrite Hc, Hm, Hcl.
  apply close_keeps in Hcl as (Hp & Hf & Hs & Hc1 & Hm1 & Hx1 & Hpipe).
  cbn [kodo.path kodo.err]. rewrite Hp, Hf, Hs, Hc1, Hm1, Hpipe, Hc, Hm.
  destruct (kodo.Delete d fuel (kodo.path w) st1) as [[[e|]|m| |] st2]; reflexivity.
Qed.

(** C10: when the error the upload left behind is [e], [Close] and [Commit]
    on an open session both return [e] and set no flag; the session is still
    open afterwards, so that a further [Close] or [Commit] is not turned
    away as already closed or committed (it returns [e] again), and a
    [Cancel] is let in, sets [cancelled] and runs the delete. *)
Theorem C10_failed_close_or_commit_sets_no_flag (fuel : nat) (w w1 : kodo.writer)
  (st st1 : World B) (e : error) :
  Spec.opened w ->
  kodo.close d w st = (w1, st1) ->
  kodo.err w1 = Some e ->
  kodo.Close d w st = ((Some e, w1), st1)
  /\ kodo.Commit d w st = ((Some e, w1), st1)
  /\ Spec.opened w1
  /\ (forall st2 : World B,
        kodo.Close d w1 st2 = ((Some e, w1), st2)
        /\ kodo.Commit d w1 st2 = ((Some e, w1), st2)
        /\ fst (fst (kodo.Cancel d fuel w1 st2)) = fst (kodo.Delete d fuel (kodo.path w1) st2)
        /\ kodo.cancelled (snd (fst (kodo.Cancel d fuel w1 st2))) = true
        /\ snd (kodo.Cancel d fuel w1 st2) = snd (kodo.Delete d fuel (kodo.path w1) st2)).
Proof.
  intros (Hc & Hm & Hx) Hcl He.
  pose proof (close_keeps w w1 st st1 Hcl) as (Hp1 & Hf1 & Hs1 & Hc1 & Hm1 & Hx1 & Hpipe).
  rewrite Hc in Hc1. rewrite Hm in Hm1. rewrite Hx in Hx1.
  split; [|split; [|split]].
  - unfold kodo.Close, bind, ret. now rewrite Hc, Hcl, He.
  - unfold kodo.Commit, bind, ret. now rewrite Hc, Hm, Hx, Hcl, He.
  - repeat split; assumption.
  - intros st2. split; [|split].
    + unfold kodo.Close, bind, ret. now rewrite Hc1, (close_again w1 st2 Hpipe), He.
    + unfold kodo.Commit, bind, ret.
      now rewrite Hc1, Hm1, Hx1, (close_again w1 st2 Hpipe), He.
    + rewrite (Cancel_run fuel w1 w1 st2 st2 Hc1 Hm1 (close_again w1 st2 Hpipe)).
      rewrite He.
      destruct (kodo.Delete d fuel (kodo.path w1) st2) as [[[e'|]|m| |] st3];
        repeat split.
Qed.

End Session.

(** ** The invalidation queue *)

Section QueueClaims.

Context {B : Type} `{Provider B}.

Lemma send_room (d : kodo.driver) (key : string) (s : @Invalidator.Sys B) :
  (length (Invalidator.refreshCh s) < kodo.refreshCh_cap d)%nat ->
  Invalidator.send d key s
  = Some {| Invalidator.world := Invalidator.world s;
            Invalidator.refreshCh := Invalidator.refreshCh s ++ [key];
            Invalidator.log := Invalidator.log s |}.
Proof.
  intros Hlt. unfold Invalidator.send. apply Nat.ltb_lt in Hlt. now rewrite Hlt.
Qed.

Lemma send_full (d : kodo.driver) (key : string) (s : @Invalidator.Sys B) :
  (kodo.refreshCh_cap d <= length (Invalidator.refreshCh s))%nat ->
  Invalidator.send d key s = None.
Proof.
  intros Hge. unfold Invalidator.send. apply Nat.ltb_ge in Hge. now rewrite Hge.
Qed.

Lemma refreshWorker_takes (d : kodo.driver) (s s' : @Invalidator.Sys B) :
  Invalidator.refreshWorker d s = Some s' ->
  exists key, Invalidator.refreshCh s = key :: Invalidator.refreshCh s'.
Proof.
  unfold Invalidator.refreshWorker.
  destruct (Invalidator.refreshCh s) as [|key rest]; [discriminate|].
  destruct (Invalidator.refreshCacheNow d key (Invalidator.world s)) as [[e lines] w].
  intros [= <-]. now exists key.
Qed.

(** The channel never holds more keys than it was made for. *)
Lemma reachable_bounded (d : kodo.driver) (w0 : World B) (s : @Invalidator.Sys B) :
  Invalidator.reachable d w0 s ->
  (length (Invalidator.refreshCh s) <= kodo.refreshCh_cap d)%nat.
Proof.
  induction 1 as [|a s s' Hreach IH Hstep]; [simpl; lia|].
  destruct a as [key|i]; simpl in Hstep.
  - unfold Invalidator.send in Hstep.
    destruct (Nat.ltb_spec (length (Invalidator.refreshCh s)) (kodo.refreshCh_cap d))
      as [Hlt|Hge]; [|discriminate].
    inversion Hstep; subst s'. simpl. rewrite length_app. simpl. lia.
  - destruct (i <? kodo.workers d)%nat; [|discriminate].
    apply refreshWorker_takes in Hstep as [key Hq]. rewrite Hq in IH. simpl in IH. lia.
Qed.

(** C8: the driver [New] makes has a channel of capacity 100 and 10
    workers, and no step belongs to an eleventh.  In every state the system
    can reach the channel holds at most 100 keys.  With 100 keys in it a
    caller of [refreshCache] waits, with everything unchanged, and after an
    iteration of any worker, which is then possible, the call goes through;
    below 100 keys the call goes through at once.  A call that goes through
    returns nil whatever the workers meet.  A worker whose refresh request
    fails writes the log line and is done with the key: the key is off the
    channel, one request was made. *)
Theorem C8_bounded_queue_and_workers (p : kodo.DriverParameters) :
  let d := kodo.New p in
  let url key :=
    (kodo.RefreshURL p ++ "/"
     ++ base64_URLEncoding ("io:" ++ FormatUint36 (kodo.UserUid p) ++ ":"
                            ++ kodo.Bucket p ++ ":" ++ key))%string in
  (kodo.refreshCh_cap d = 100%nat /\ kodo.workers d = 10%nat)
  /\ (forall i (s : @Invalidator.Sys B), (10 <= i)%nat -> Invalidator.step d (Invalidator.Work i) s = None)
  /\ (forall (w0 : World B) (s : @Invalidator.Sys B),
        Invalidator.reachable d w0 s -> (length (Invalidator.refreshCh s) <= 100)%nat)
  /\ (forall (s : @Invalidator.Sys B) key,
        length (Invalidator.refreshCh s) = 100%nat ->
        Invalidator.refreshCache d key s = (Invalidator.Blocked, s)
        /\ forall i, (i < 10)%nat ->
             exists s',
               Invalidator.step d (Invalidator.Work i) s = Some s'
               /\ exists s'',
                    Invalidator.refreshCache d key s' = (Invalidator.Returned None, s'')
                    /\ Invalidator.refreshCh s'' = Invalidator.refreshCh s' ++ [key])
  /\ (forall (s : @Invalidator.Sys B) key,
        (length (Invalidator.refreshCh s) < 100)%nat ->
        exists s',
          Invalidator.refreshCache d key s = (Invalidator.Returned None, s')
          /\ Invalidator.refreshCh s' = Invalidator.refreshCh s ++ [key]
          /\ Invalidator.world s' = Invalidator.world s)
  /\ (forall (s : @Invalidator.Sys B) key,
        fst (Invalidator.refreshCache d key s) = Invalidator.Blocked
        \/ fst (Invalidator.refreshCache d key s) = Invalidator.Returned None)
  /\ (forall (s : @Invalidator.Sys B) i key rest b e,
        (i < 10)%nat ->
        Invalidator.refreshCh s = key :: rest ->
        refresh_Get (remote (Invalidator.world s)) (url key) = (b, Some e) ->
        Invalidator.step d (Invalidator.Work i) s
        = Some {| Invalidator.world :=
                    extend (Invalidator.world s) b [EvGet (url key) (Some e)];
                  Invalidator.refreshCh := rest;
                  Invalidator.log :=
                    Invalidator.log s
                    ++ [("refresh failed:"
                         ++ base64_URLEncoding
                              ("io:" ++ FormatUint36 (kodo.UserUid p) ++ ":"
                               ++ kodo.Bucket p ++ ":" ++ key))%string] |}).
Proof.
  intros d url.
  split; [split; reflexivity|].
  split; [|split; [|split; [|split; [|split]]]].
  - intros i s Hi. simpl.
    destruct (Nat.ltb_spec i 10) as [Hlt|_]; [lia|reflexivity].
  - intros w0 s Hreach. now apply (reachable_bounded d w0 s).
  - intros s key Hfull. split.
    + unfold Invalidator.refreshCache. rewrite send_full; [reflexivity|].
      simpl. lia.
    + intros i Hi. simpl.
      destruct (Nat.ltb_spec i 10) as [_|Hge]; [|lia].
      destruct (Invalidator.refreshWorker d s) as [s'|] eqn:Hw.
      * exists s'. split; [reflexivity|].
        apply refreshWorker_takes in Hw as [k Hq].
        assert (Hroom : (length (Invalidator.refreshCh s') < kodo.refreshCh_cap d)%nat).
        { rewrite Hq in Hfull. simpl in Hfull. simpl. lia. }
        eexists. unfold Invalidator.refreshCache. rewrite (send_room d key s' Hroom).
        split; reflexivity.
      * unfold Invalidator.refreshWorker in Hw.
        destruct (Invalidator.refreshCh s) as [|k rest]; [discriminate|].
        now destruct (Invalidator.refreshCacheNow d k (Invalidator.world s)) as [[e lines] w].
  - intros s key Hroom. eexists. unfold Invalidator.refreshCache.
    rewrite (send_room d key s); [|simpl; lia]. repeat split.
  - intros s key. unfold Invalidator.refreshCache.
    destruct (Invalidator.send d key s); [right|left]; reflexivity.
  - intros s i key rest b e Hi Hq Hget. simpl.
    destruct (Nat.ltb_spec i 10) as [_|Hge]; [|lia].
    unfold Invalidator.refreshWorker. rewrite Hq.
    unfold Invalidator.refreshCacheNow, bind, Invalidator.call_Get.
    unfold url in Hget. cbn [kodo.params d kodo.New kodo.RefreshURL kodo.UserUid kodo.Bucket].
    rewrite Hget. reflexivity.
Qed.

End QueueClaims.

(** ** Concrete runs *)

(** A session that is committed and then closed: both calls succeed, and the
    session ends with [committed] and [closed] both set. *)
Lemma C1_counterexample :
  exists w st,
    kodo.session Example.d0 1 [kodo.CallCommit; kodo.CallClose]
                 (kodo.newFileWriter "/blob" 0) Example.quiet
    = ([Return None; Return None], w, st)
    /\ ~ Spec.exclusive w.
Proof.
  eexists _, _. split; [vm_compute; reflexivity|].
  intros (Hc & _). destruct (Hc eq_refl) as [Hm _]. discriminate.
Qed.

(** On a closed session [Write] and [Close] are turned away as already
    closed, nothing changed. *)
Lemma C1_witness :
  kodo.Write Example.d0 kodo.Reading Example.closed_session [Byte.x01] Example.quiet
  = ((Return (0, Some (Errorf "already closed")), Example.closed_session), Example.quiet)
  /\ kodo.Close Example.d0 Example.closed_session Example.quiet
     = ((Some (Errorf "already closed"), Example.closed_session), Example.quiet).
Proof.
  pose proof (C1_calls_after_a_terminal_flag Example.d0 1 Example.closed_session
                kodo.Reading [Byte.x01] Example.quiet "already closed" eq_refl)
    as (Hw & Hc & _).
  split; [exact (proj1 Hw) | exact (proj1 (proj2 (Hc eq_refl)))].
Defined.

(** Opened for append on a stored object of 5 bytes, the session starts at
    offset 5. *)
Lemma C2_witness :
  exists w st,
    kodo.Writer Example.d0 "/blob" true Example.stored = (Ok w, st)
    /\ kodo.from w = 5 /\ kodo.size w = 5.
Proof.
  destruct (proj1 (proj2 (C2_append_resumes_or_starts_fresh Example.d0 "/blob" Example.stored))
              [EvList "blob" "" "" 1
                 {| entries := [Example.item "blob" 5]; commonPrefixes := [];
                    markerOut := ""; listErr := Some io_EOF |}]
              {| entries := [Example.item "blob" 5]; commonPrefixes := [];
                 markerOut := ""; listErr := Some io_EOF |}
              Scripted.empty (Example.item "blob" 5) [])
    as (w & Hw & Hf & Hs).
  - apply Spec.attempts_once; [reflexivity|].
    intros [m Hm]. discriminate.
  - right. reflexivity.
  - reflexivity.
  - reflexivity.
  - exists w. eexists. split; [exact Hw|]. split; assumption.
Defined.

(** Two writes on a session resumed at offset 5, the segmented put having
    failed by the time of the second: the put was of the copy of [0, 5) and
    then the bytes of the first write. *)
Lemma C3_witness :
  exists rs wf st1 rest more b' answer,
    kodo.session Example.d0 1
      (Spec.writes [(kodo.Reading, [Byte.x01]); (kodo.Returned, [Byte.x02; Byte.x03])])
      (kodo.newFileWriter "/blob" 5) Example.upload_fails
    = (rs, wf, st1)
    /\ [Byte.x01; Byte.x02; Byte.x03]
       = (Spec.accepted
            (Spec.writes [(kodo.Reading, [Byte.x01]); (kodo.Returned, [Byte.x02; Byte.x03])])
            rs ++ rest) ++ more
    /\ bucket_PutParts (remote Example.upload_fails) "blob"
         [ {| PutPart.FileName := ""; PutPart.R := None; PutPart.Crc32 := 0;
              PutPart.CheckCrc := false; PutPart.Key := "blob";
              PutPart.From := 0; PutPart.To := 5 |};
           {| PutPart.FileName := "";
              PutPart.R :=
                Some {| content :=
                          Spec.accepted
                            (Spec.writes [(kodo.Reading, [Byte.x01]);
                                          (kodo.Returned, [Byte.x02; Byte.x03])])
                            rs ++ rest;
                        seeker := false |};
              PutPart.Crc32 := 0; PutPart.CheckCrc := false; PutPart.Key := "";
              PutPart.From := 0; PutPart.To := 0 |} ] = (b', answer).
Proof.
  destruct (proj1 (C3_parts_of_the_segmented_put Example.d0 1 "/blob" 5
                     [(kodo.Reading, [Byte.x01]); (kodo.Returned, [Byte.x02; Byte.x03])]
                     Example.upload_fails ltac:(discriminate)))
    as (rs & wf & st1 & rest & more & b' & answer & Hs & _ & Hsub & Hput & _).
  exists rs, wf, st1, rest, more, b', answer.
  split; [exact Hs|]. split; [exact Hsub | exact Hput].
Defined.

(** That run, computed: the first write is taken, the second gets the error
    of the put and nothing of it is read; [close] makes no further call. *)
Lemma session_with_early_failure :
  let '(rs, wf, st1) :=
    kodo.session Example.d0 1
      (Spec.writes [(kodo.Reading, [Byte.x01]); (kodo.Returned, [Byte.x02; Byte.x03])])
      (kodo.newFileWriter "/blob" 5) Example.upload_fails in
  rs = [Return None; Return (Some (Sdk (net_error "connection reset")))]
  /\ kodo.size wf = 6
  /\ trace st1
     = [EvPutParts "blob" (kodo.background_parts "blob" 5 [Byte.x01])
          (Some (net_error "connection reset"))]
  /\ snd (kodo.close Example.d0 wf st1) = st1.
Proof. vm_compute. repeat split. Qed.

(** A list call answered with code 612 reaches the caller of [Stat], [List]
    and [Delete] as it came, and a download answered with status 612 is
    handed back as content. *)
Lemma C4_counterexample :
  fst (kodo.Stat Example.d0 "/blob" Example.listing_612)
  = Err (Sdk (ErrorInfo 612 "no such file or directory"))
  /\ fst (kodo.Stat Example.d0 "/blob" Example.listing_612)
     <> Err (PathNotFoundError "/blob" kodo.driverName)
  /\ fst (kodo.List Example.d0 1 "/blob" Example.listing_612)
     = Return (Err (Sdk (ErrorInfo 612 "no such file or directory")))
  /\ fst (kodo.Delete Example.d0 1 "/blob" Example.listing_612)
     = Return (Some (Sdk (ErrorInfo 612 "no such file or directory")))
  /\ fst (kodo.Reader Example.d0 "/blob" 0 (Example.answering 612))
     = Ok Example.error_page.
Proof.
  repeat split; try (vm_compute; reflexivity). vm_compute. discriminate.
Qed.

(** A move of a missing source answers PathNotFoundError for the source. *)
Lemma C4_witness :
  fst (kodo.Move Example.d0 "/blob" "/copy" Example.move_612)
  = Some (PathNotFoundError "/blob" kodo.driverName).
Proof.
  apply (proj1 (C4_not_found_translation_by_operation Example.d0))
    with (b' := Scripted.empty) (msg := "no such file or directory").
  reflexivity.
Defined.

(** Two pages, the second had on the retry: three calls, the retry with the
    arguments of the failed call, the second page asked for with the marker
    of the first. *)
Lemma C5_witness :
  kodo.List Example.d0 3 "/" Example.two_pages
  = (Return (Ok ["/a"; "/b"; "/d"; "/c"]),
     extend Example.two_pages Scripted.empty
       [EvList "" "/" "" 1000
          {| entries := [Example.item "a" 1; Example.item "b" 2];
             commonPrefixes := ["c/"]; markerOut := "m1"; listErr := None |};
        EvList "" "/" "m1" 1000
          {| entries := []; commonPrefixes := []; markerOut := "";
             listErr := Some (ErrorInfo 599 "please retry") |};
        EvList "" "/" "m1" 1000
          {| entries := [Example.item "d" 4]; commonPrefixes := []; markerOut := "";
             listErr := Some io_EOF |}]).
Proof.
  refine (proj2 (proj2 (C5_retry_and_pagination Example.d0))
            "/" Example.two_pages
            ([EvList "" "/" "" 1000
                {| entries := [Example.item "a" 1; Example.item "b" 2];
                   commonPrefixes := ["c/"]; markerOut := "m1"; listErr := None |}]
             ++ [EvList "" "/" "m1" 1000
                   {| entries := []; commonPrefixes := []; markerOut := "";
                      listErr := Some (ErrorInfo 599 "please retry") |};
                 EvList "" "/" "m1" 1000
                   {| entries := [Example.item "d" 4]; commonPrefixes := [];
                      markerOut := ""; listErr := Some io_EOF |}])
            [ {| entries := [Example.item "a" 1; Example.item "b" 2];
                 commonPrefixes := ["c/"]; markerOut := "m1"; listErr := None |};
              {| entries := [Example.item "d" 4]; commonPrefixes := []; markerOut := "";
                 listErr := Some io_EOF |} ]
            None Scripted.empty 3%nat _ _ _).
  - discriminate.
  - eapply Spec.paging_more.
    + apply Spec.attempts_once; [reflexivity|]. intros [m Hm]; discriminate.
    + left; reflexivity.
    + discriminate.
    + apply Spec.paging_last.
      * eapply Spec.attempts_twice; [reflexivity | now exists "please retry" | reflexivity].
      * right; reflexivity.
      * reflexivity.
  - simpl. lia.
Defined.

(** Nothing under the path: PathNotFoundError.  Three keys, the second
    already gone: three deletes, a refresh behind the first and the third. *)
Lemma C6_witness :
  kodo.Delete Example.d0 1 "/dir" Example.quiet
  = (Return (Some (PathNotFoundError "/dir" kodo.driverName)),
     extend Example.quiet Scripted.empty [EvList "dir" "" "" 1000 Scripted.end_of_list])
  /\ exists n, forall fuel, (n <= fuel)%nat ->
       kodo.Delete Example.d0 fuel "/dir" Example.three_keys
       = (Return None,
          extend Example.three_keys Scripted.empty
            ([EvList "dir" "" "" 1000
                {| entries := [Example.item "dir/x" 1; Example.item "dir/y" 1;
                               Example.item "dir/z" 1];
                   commonPrefixes := []; markerOut := ""; listErr := Some io_EOF |}]
             ++ [EvDelete "dir/x" None; EvRefresh "dir/x";
                 EvDelete "dir/y" (Some (ErrorInfo 612 "no such file or directory"));
                 EvDelete "dir/z" None; EvRefresh "dir/z"])).
Proof.
  split.
  - apply (proj1 (proj2 (proj2 (C6_delete_pages_keys_refresh Example.d0))))
      with (r := Scripted.end_of_list).
    + apply Spec.attempts_once; [reflexivity|]. intros [m Hm]; discriminate.
    + right; reflexivity.
    + reflexivity.
  - apply (proj1 (proj2 (C6_delete_pages_keys_refresh Example.d0))).
    eapply Spec.deleting_last.
    + apply Spec.attempts_once; [reflexivity|]. intros [m Hm]; discriminate.
    + right; reflexivity.
    + vm_compute. discriminate.
    + eapply (Spec.deleted_ok (Example.item "dir/x" 1)); [reflexivity|].
      eapply (Spec.deleted_gone (Example.item "dir/y" 1));
        [reflexivity | now exists "no such file or directory" |].
      eapply (Spec.deleted_ok (Example.item "dir/z" 1)); [reflexivity|].
      apply Spec.deleted_nil.
    + reflexivity.
Defined.

(** Listing the root of a driver configured with root "/". *)
Lemma C7_witness :
  Forall Spec.rooted ["/a"; "/b"; "/d"; "/c"].
Proof.
  refine (proj1 (C7_list_rooted_paths_and_not_found Example.p0 "/" Example.two_pages _)
            _ 3%nat ["/a"; "/b"; "/d"; "/c"]
            (snd (kodo.List (kodo.New Example.p0) 3 "/" Example.two_pages)) _).
  - discriminate.
  - right. reflexivity.
  - vm_compute. reflexivity.
Defined.

(** With 100 keys waiting the caller waits; after one iteration of a worker
    the call goes through. *)
Lemma C8_witness :
  Invalidator.refreshCache Example.d0 "blob" (Example.waiting 100)
  = (Invalidator.Blocked, Example.waiting 100)
  /\ exists s',
       Invalidator.step Example.d0 (Invalidator.Work 3) (Example.waiting 100) = Some s'
       /\ exists s'',
            Invalidator.refreshCache Example.d0 "blob" s' = (Invalidator.Returned None, s'')
            /\ Invalidator.refreshCh s'' = Invalidator.refreshCh s' ++ ["blob"].
Proof.
  destruct (proj1 (proj2 (proj2 (proj2 (C8_bounded_queue_and_workers Example.p0))))
              (Example.waiting 100) "blob" eq_refl) as [Hblocked Hworker].
  split; [exact Hblocked|].
  apply (Hworker 3%nat). lia.
Defined.

(** Status 404 is not-found; status 503 is handed back as content. *)
Lemma C9_witness :
  kodo.Reader Example.d0 "/blob" 0 (Example.answering 404)
  = (Err (PathNotFoundError "/blob" kodo.driverName),
     extend (Example.answering 404) Scripted.empty
       [EvDo {| Method := "GET"; URL := "http://io.example/blob"; Range := None |}
             (inl {| StatusCode := 404; Body := Example.error_page |})])
  /\ kodo.Reader Example.d0 "/blob" 0 (Example.answering 503)
     = (Ok Example.error_page,
        extend (Example.answering 503) Scripted.empty
          [EvDo {| Method := "GET"; URL := "http://io.example/blob"; Range := None |}
                (inl {| StatusCode := 503; Body := Example.error_page |})]).
Proof.
  split.
  - refine (proj1 (C9_reader_only_404_is_not_found Example.d0 "/blob" 0
                     (Example.answering 404) Scripted.empty
                     {| StatusCode := 404; Body := Example.error_page |} _ _) _);
      reflexivity.
  - refine (proj2 (C9_reader_only_404_is_not_found Example.d0 "/blob" 0
                     (Example.answering 503) Scripted.empty
                     {| StatusCode := 503; Body := Example.error_page |} _ _) _);
      [reflexivity | reflexivity | discriminate].
Defined.

(** The upload fails: [Close] and [Commit] return its error, no flag is set,
    and a second [Close] or [Commit] is answered the same way. *)
Lemma C10_witness :
  exists w1 st1,
    kodo.Close Example.d0 Example.streaming Example.upload_fails
    = ((Some (Sdk (net_error "connection reset")), w1), st1)
    /\ kodo.Commit Example.d0 Example.streaming Example.upload_fails
       = ((Some (Sdk (net_error "connection reset")), w1), st1)
    /\ Spec.opened w1
    /\ kodo.Close Example.d0 w1 st1 = ((Some (Sdk (net_error "connection reset")), w1), st1)
    /\ kodo.Commit Example.d0 w1 st1 = ((Some (Sdk (net_error "connection reset")), w1), st1).
Proof.
  exists (fst (kodo.close Example.d0 Example.streaming Example.upload_fails)),
         (snd (kodo.close Example.d0 Example.streaming Example.upload_fails)).
  destruct (C10_failed_close_or_commit_sets_no_flag Example.d0 1 Example.streaming
              (fst (kodo.close Example.d0 Example.streaming Example.upload_fails))
              Example.upload_fails
              (snd (kodo.close Example.d0 Example.streaming Example.upload_fails))
              (Sdk (net_error "connection reset")))
    as (Hclose & Hcommit & Hopen & Hnext).
  - repeat split.
  - reflexivity.
  - reflexivity.
  - destruct (Hnext (snd (kodo.close Example.d0 Example.streaming Example.upload_fails)))
      as (Hc2 & Hm2 & _).
    repeat split; try assumption; apply Hopen.
Defined.

(** * Further properties of the driver *)

(** ** Keys and paths *)

Lemma append_empty_r (s : string) : (s ++ "")%string = s.
Proof. induction s as [|c s IH]; simpl; [reflexivity | now rewrite IH]. Qed.

Lemma length_append (s t : string) :
  String.length (s ++ t) = (String.length s + String.length t)%nat.
Proof. induction s as [|c s IH]; simpl; [reflexivity | now rewrite IH]. Qed.

Lemma prefix_append (k s : string) : String.prefix k (k ++ s) = true.
Proof.
  induction k as [|c k IH]; simpl; [now destruct s|].
  destruct (ascii_dec c c) as [_|Hn]; [exact IH | congruence].
Qed.

Lemma drop_append (k s : string) : strings.drop (String.length k) (k ++ s) = s.
Proof. induction k as [|c k IH]; simpl; [now destruct s | exact IH]. Qed.

Lemma take_append (k s : string) : strings.take (String.length k) (k ++ s) = k.
Proof. induction k as [|c k IH]; simpl; [now destruct s | now rewrite IH]. Qed.

Lemma replace_first_at_prefix (s old new : string) :
  String.prefix old s = true ->
  strings.replace_first s old new = Some (new ++ strings.drop (String.length old) s)%string.
Proof.
  intros Hp. destruct s as [|a s]; destruct old as [|o old]; simpl in *;
    try reflexivity; try discriminate.
  now rewrite Hp.
Qed.

Lemma TrimLeft_head (s cutset : string) (c : ascii) (rest : string) :
  strings.TrimLeft s cutset = String c rest -> strings.IndexByte cutset c = false.
Proof.
  induction s as [|a s IH]; simpl; [discriminate|].
  destruct (strings.IndexByte cutset a) eqn:Ha; [exact IH|].
  intros [= <- _]. exact Ha.
Qed.

Lemma TrimLeft_fixed (s cutset : string) :
  (forall c rest, s = String c rest -> strings.IndexByte cutset c = false) ->
  strings.TrimLeft s cutset = s.
Proof.
  destruct s as [|a s]; [reflexivity|]. intros Hhead. simpl.
  now rewrite (Hhead a s eq_refl).
Qed.

Lemma TrimLeft_append_kept (a b cutset : string) :
  strings.TrimLeft a cutset <> "" ->
  strings.TrimLeft (a ++ b) cutset = (strings.TrimLeft a cutset ++ b)%string.
Proof.
  induction a as [|c a IH]; simpl; [congruence|].
  destruct (strings.IndexByte cutset c); [exact IH | reflexivity].
Qed.

Lemma TrimLeft_append_gone (a b cutset : string) :
  strings.TrimLeft a cutset = "" ->
  strings.TrimLeft (a ++ b) cutset = strings.TrimLeft b cutset.
Proof.
  induction a as [|c a IH]; simpl; [reflexivity|].
  destruct (strings.IndexByte cutset c); [exact IH | discriminate].
Qed.

Lemma last_byte_append_slash (s : string) :
  strings.last_byte (s ++ "/") = Some "/"%char.
Proof.
  induction s as [|c s IH]; [reflexivity|].
  change ((String c s ++ "/")%string) with (String c (s ++ "/")).
  destruct (s ++ "/")%string as [|c' s'] eqn:Hs; [destruct s; discriminate|].
  exact IH.
Qed.

Lemma TrimSuffix_append_slash (s : string) :
  strings.TrimSuffix (s ++ "/") "/" = s.
Proof.
  unfold strings.TrimSuffix.
  rewrite (HasSuffix_slash _ _ (last_byte_append_slash s)). simpl.
  rewrite length_append. simpl. replace (String.length s + 1 - 1)%nat
    with (String.length s) by lia.
  apply take_append.
Qed.

Lemma TrimRight_tail (s cutset : string) (c : ascii) :
  strings.last_byte (strings.TrimRight s cutset) = Some c ->
  strings.IndexByte cutset c = false.
Proof.
  induction s as [|a s IH]; simpl; [discriminate|].
  destruct (strings.TrimRight s cutset) as [|b kept] eqn:Hk.
  - destruct (strings.IndexByte cutset a) eqn:Ha; simpl; [discriminate|].
    intros [= <-]. exact Ha.
  - intros Hl. apply IH. exact Hl.
Qed.

Lemma TrimRight_fixed (s cutset : string) :
  (forall c, strings.last_byte s = Some c -> strings.IndexByte cutset c = false) ->
  strings.TrimRight s cutset = s.
Proof.
  induction s as [|a s IH]; [reflexivity|]. intros Hlast. simpl.
  destruct s as [|b s'].
  - simpl. now rewrite (Hlast a eq_refl).
  - rewrite IH; [reflexivity|]. intros c Hc. apply Hlast. exact Hc.
Qed.

Lemma TrimRight_idempotent (s cutset : string) :
  strings.TrimRight (strings.TrimRight s cutset) cutset = strings.TrimRight s cutset.
Proof. apply TrimRight_fixed. intros c. apply TrimRight_tail. Qed.

Lemma last_byte_none (s : string) : strings.last_byte s = None -> s = "".
Proof.
  induction s as [|a s IH]; [reflexivity|]. simpl.
  destruct s as [|b s']; [discriminate|]. intros Hl. specialize (IH Hl). discriminate.
Qed.

Lemma IndexByte_slash (c : ascii) :
  strings.IndexByte "/" c = Ascii.eqb c "/"%char.
Proof.
  unfold strings.IndexByte. rewrite (Ascii.eqb_sym "/"%char c).
  now destruct (Ascii.eqb c "/"%char).
Qed.

Lemma HasSuffix_TrimRight_slash (s : string) :
  strings.HasSuffix (strings.TrimRight s "/") "/" = false.
Proof.
  destruct (strings.last_byte (strings.TrimRight s "/")) as [c|] eqn:Hl.
  - rewrite (HasSuffix_slash _ c Hl). rewrite <- IndexByte_slash.
    now apply TrimRight_tail with (s := s).
  - apply last_byte_none in Hl. now rewrite Hl.
Qed.

(** X1: the key of a path never starts with "/", whatever the root
    directory and the path. *)
Theorem X1_key_has_no_leading_slash (d : kodo.driver) (path : string) :
  strings.HasPrefix (kodo.getKey d path) "/" = false.
Proof.
  unfold strings.HasPrefix.
  destruct (kodo.getKey d path) as [|c rest] eqn:Hk; [reflexivity|].
  unfold kodo.getKey in Hk. apply TrimLeft_head in Hk.
  rewrite IndexByte_slash in Hk. cbn [String.prefix].
  destruct (ascii_dec "/"%char c) as [<-|_]; [discriminate | reflexivity].
Qed.

(** X2: the parameters [New] keeps have a base URL that ends with "/" and a
    root directory that does not; making a driver from the parameters of a
    driver changes nothing. *)
Theorem X2_New_normalises_parameters (p : kodo.DriverParameters) :
  strings.HasSuffix (kodo.BaseURL (kodo.params (kodo.New p))) "/" = true
  /\ strings.HasSuffix (kodo.RootDirectory (kodo.params (kodo.New p))) "/" = false
  /\ kodo.New (kodo.params (kodo.New p)) = kodo.New p.
Proof.
  assert (Hbase : strings.HasSuffix (kodo.BaseURL (kodo.params (kodo.New p))) "/" = true).
  { unfold kodo.New; simpl. destruct (strings.HasSuffix (kodo.BaseURL p) "/") eqn:Hs.
    - exact Hs.
    - now rewrite (HasSuffix_slash _ _ (last_byte_append_slash (kodo.BaseURL p))). }
  split; [exact Hbase|]. split.
  - unfold kodo.New; simpl. apply HasSuffix_TrimRight_slash.
  - unfold kodo.New at 1. rewrite Hbase. unfold kodo.New; simpl.
    now rewrite TrimRight_idempotent.
Qed.

(** X3: a path "/rest" whose [rest] does not start with "/" comes back from
    [List] as it was given: what [List] makes of the key of the path, as an
    entry or (with the trailing "/") as a common prefix, is the path. *)
Theorem X3_listed_path_is_the_path_stored (d : kodo.driver) (rest : string) :
  strings.HasPrefix rest "/" = false ->
  (forall item, Key item = kodo.getKey d (String "/"%char rest) ->
     Spec.file_path d (Spec.root_prefix d) item = String "/"%char rest)
  /\ Spec.directory_path d (Spec.root_prefix d)
       (kodo.getKey d (String "/"%char rest) ++ "/")%string
     = String "/"%char rest.
Proof.
  intros Hpre.
  assert (Hrest : forall r, rest <> String "/"%char r).
  { intros r ->. unfold strings.HasPrefix in Hpre. cbn [String.prefix] in Hpre.
    destruct (ascii_dec "/"%char "/"%char) as [_|Hn]; [|congruence].
    now destruct r. }
  assert (Hround : strings.Replace1 (kodo.getKey d (String "/"%char rest))
                                    (kodo.getKey d "") (Spec.root_prefix d)
                   = String "/"%char rest).
  { unfold Spec.root_prefix, kodo.getKey. rewrite append_empty_r.
    destruct (strings.TrimLeft (kodo.RootDirectory (kodo.params d)) "/") as [|c k] eqn:Hk.
    - rewrite (TrimLeft_append_gone _ _ _ Hk). simpl String.eqb. cbn iota.
      change (strings.TrimLeft (String "/"%char rest) "/") with (strings.TrimLeft rest "/").
      rewrite TrimLeft_fixed.
      + apply Replace1_no_root.
      + intros a r ->. rewrite IndexByte_slash.
        destruct (Ascii.eqb_spec a "/"%char) as [->|Hne]; [|reflexivity].
        now destruct (Hrest r).
    - rewrite TrimLeft_append_kept by (rewrite Hk; discriminate). rewrite Hk.
      simpl String.eqb. cbn iota. unfold strings.Replace1. simpl String.eqb. cbn iota.
      rewrite replace_first_at_prefix by apply prefix_append.
      now rewrite drop_append. }
  split.
  - intros item Hkey. unfold Spec.file_path. now rewrite Hkey.
  - unfold Spec.directory_path. now rewrite TrimSuffix_append_slash.
Qed.

(** ** More on List, Stat, Writer, Move and PutContent *)

Section FacadeMore.

Context {B : Type} `{Provider B}.
Variable d : kodo.driver.

Lemma List_pages_only_lists (fuel : nat) :
  forall key rootPrefix marker files directories (st : World B),
  exists evs b',
    snd (kodo.List_pages d fuel key rootPrefix marker files directories st)
    = extend st b' evs
    /\ Forall (fun ev => exists m r, ev = EvList key "/" m kodo.listMax r) evs.
Proof.
  induction fuel as [|fuel IH]; intros key rootPrefix marker files directories st.
  - exists [], (remote st). simpl. now rewrite extend_nil.
  - simpl. unfold bind.
    destruct (bucketlistWithRetry_attempts key "/" marker kodo.listMax st)
      as (evs & r & b1 & Hcall & Hatt).
    rewrite Hcall.
    assert (Hevs : Forall (fun ev => exists m r, ev = EvList key "/" m kodo.listMax r) evs).
    { destruct (attempts_at_most_two _ _ _ _ _ _ _ _ Hatt) as [_ Hall].
      eapply Forall_impl; [|exact Hall]. intros ev [a ->]. now exists marker, a. }
    destruct (kodo.fatal (listErr r)); [now exists evs, b1|].
    destruct (String.eqb (markerOut r) ""); [now exists evs, b1|].
    match goal with
    | |- context [kodo.List_pages d fuel key rootPrefix ?m ?f ?g ?s] =>
        destruct (IH key rootPrefix m f g s) as (evs' & b' & Hst & Hall')
    end.
    exists (evs ++ evs'), b'. rewrite Hst, extend_extend. split; [reflexivity|].
    apply Forall_app. now split.
Qed.

(** X4: whatever [List] answers, and also when it is cut short, the only
    calls it has made are list calls, all with delimiter "/", limit 1000
    and one and the same prefix. *)
Theorem X4_List_only_lists (fuel : nat) (opath : string) (st : World B) :
  exists prefix evs b',
    snd (kodo.List d fuel opath st) = extend st b' evs
    /\ Forall (fun ev => exists m r, ev = EvList prefix "/" m kodo.listMax r) evs.
Proof.
  unfold kodo.List. destruct (String.eqb opath "/").
  - unfold bind.
    match goal with
    | |- context [kodo.List_pages d fuel ?k ?rp ?m ?f ?g st] =>
        destruct (List_pages_only_lists fuel k rp m f g st) as (evs & b' & Hst & Hall);
          destruct (kodo.List_pages d fuel k rp m f g st) as [r st1]; exists k, evs, b'
    end.
    simpl in Hst. subst st1. split; [|exact Hall].
    destruct r as [[[fs ds]|e]|m| |]; reflexivity.
  - destruct (strings.last_byte opath) as [c|].
    + unfold bind.
      match goal with
      | |- context [kodo.List_pages d fuel ?k ?rp ?m ?f ?g st] =>
          destruct (List_pages_only_lists fuel k rp m f g st) as (evs & b' & Hst & Hall);
            destruct (kodo.List_pages d fuel k rp m f g st) as [r st1]; exists k, evs, b'
      end.
      simpl in Hst. subst st1. split; [|exact Hall].
      destruct r as [[[[|f fs] [|g gs]]|e]|m| |]; reflexivity.
    + exists "", [], (remote st). simpl. now rewrite extend_nil.
Qed.

(** X5: for a path that does not end with "/", listing the path and
    listing the path followed by "/" make the same calls and give the same
    entries; only the path named in a PathNotFoundError differs. *)
Theorem X5_List_trailing_slash (fuel : nat) (opath : string) (st : World B) :
  opath <> "" ->
  strings.HasSuffix opath "/" = false ->
  snd (kodo.List d fuel (opath ++ "/") st) = snd (kodo.List d fuel opath st)
  /\ (forall paths,
        fst (kodo.List d fuel opath st) = Return (Ok paths)
        <-> fst (kodo.List d fuel (opath ++ "/") st) = Return (Ok paths))
  /\ (fst (kodo.List d fuel opath st)
      = Return (Err (PathNotFoundError opath kodo.driverName))
      <-> fst (kodo.List d fuel (opath ++ "/") st)
          = Return (Err (PathNotFoundError (opath ++ "/") kodo.driverName))).
Proof.
  intros Hne Hsuf.
  destruct (last_byte_nonempty opath Hne) as [c Hc].
  assert (Hcs : Ascii.eqb c "/"%char = false)
    by (now rewrite <- (HasSuffix_slash opath c Hc)).
  assert (Hn1 : String.eqb opath "/" = false).
  { apply String.eqb_neq. intros ->. discriminate. }
  assert (Hn2 : String.eqb (opath ++ "/") "/" = false).
  { apply String.eqb_neq. destruct opath as [|a s]; [congruence|].
    simpl. destruct s; discriminate. }
  unfold kodo.List. rewrite Hn1, Hn2, Hc, (last_byte_append_slash opath), Hcs.
  simpl Ascii.eqb. cbn iota. unfold bind.
  destruct (kodo.List_pages d fuel (kodo.getKey d (opath ++ "/"))
              (if String.eqb (kodo.getKey d "") "" then "/" else "") "" [] [] st)
    as [[[[[|f fs] [|g gs]]|e]|m| |] st1] eqn:Hp; simpl; unfold ret; simpl;
    (split; [reflexivity|]); split; split; intros Heq; try discriminate Heq;
    try exact Heq; try reflexivity.
  all: apply List_pages_sound in Hp; destruct Hp as (evs & pages & o & b' & _ & _ & Hres);
    destruct o; simpl in Hres; inversion Hres; subst; discriminate Heq.
Qed.

(** X6: [Stat] looks at the first key listed under the key of the path
    only.  When that key is the key of the path it answers a file with the
    stored size and the put time in nanoseconds; when it is any other key,
    also one that merely starts with the same characters, it answers a
    directory with size 0 and the zero time. *)
Theorem X6_Stat_file_or_directory (path : string) (st : World B) evs r b' item rest :
  Spec.attempts (kodo.getKey d path) "" "" 1 (remote st) evs r b' ->
  Spec.page_ok r ->
  entries r = item :: rest ->
  (Key item = kodo.getKey d path ->
   kodo.Stat d path st
   = (Ok {| kodo.Path := path; kodo.Size := Fsize item;
            kodo.ModTime := Some (int64_mul (PutTime item) 100);
            kodo.IsDir := false |}, extend st b' evs))
  /\ (Key item <> kodo.getKey d path ->
      kodo.Stat d path st
      = (Ok {| kodo.Path := path; kodo.Size := 0; kodo.ModTime := None;
               kodo.IsDir := true |}, extend st b' evs)).
Proof.
  intros Hatt Hok Hent. rewrite (Stat_run d path st evs r b' Hatt).
  apply fatal_none in Hok. rewrite Hok, Hent. split; intros Hk.
  - now rewrite Hk, String.eqb_refl.
  - destruct (String.eqb_spec (kodo.getKey d path) (Key item)) as [Heq|_];
      [congruence | reflexivity].
Qed.

(** X7: [Writer] without append makes no call and always gives a session at
    offset 0; with append it fails exactly when the list call of [Stat]
    failed, and then with that error. *)
Theorem X7_Writer_fails_only_with_the_listing (path : string) (st : World B) :
  kodo.Writer d path false st = (Ok (kodo.newFileWriter path 0), st)
  /\ (forall e,
        fst (kodo.Writer d path true st) = Err e
        <-> exists evs r b' e',
              Spec.attempts (kodo.getKey d path) "" "" 1 (remote st) evs r b'
              /\ Spec.page_failed r e' /\ e = Sdk e').
Proof.
  split; [reflexivity|]. intros e.
  destruct (bucketlistWithRetry_attempts (kodo.getKey d path) "" "" 1 st)
    as (evs & r & b' & Hcall & Hatt).
  assert (Hw : fst (kodo.Writer d path true st)
               = match kodo.fatal (listErr r) with
                 | Some e' => Err (Sdk e')
                 | None =>
                     match entries r with
                     | [] => Ok (kodo.newFileWriter path 0)
                     | item :: _ =>
                         Ok (kodo.newFileWriter path
                               (if String.eqb (kodo.getKey d path) (Key item)
                                then Fsize item else 0))
                     end
                 end).
  { unfold kodo.Writer, bind. rewrite (Stat_run d path st evs r b' Hatt).
    destruct (kodo.fatal (listErr r)) as [e'|].
    - cbv beta iota.
      destruct (error_eq_dec (Sdk e') (PathNotFoundError path kodo.driverName));
        [discriminate | reflexivity].
    - destruct (entries r) as [|item rest].
      + cbv beta iota.
        destruct (error_eq_dec (PathNotFoundError path kodo.driverName)
                               (PathNotFoundError path kodo.driverName));
          [reflexivity | congruence].
      + now destruct (String.eqb (kodo.getKey d path) (Key item)). }
  rewrite Hw. split.
  - destruct (kodo.fatal (listErr r)) as [e'|] eqn:Hf.
    + intros [= <-]. exists evs, r, b', e'.
      split; [exact Hatt | split; [now apply fatal_some | reflexivity]].
    + destruct (entries r); discriminate.
  - intros (evs1 & r1 & b1 & e' & Hatt1 & Hfail & ->).
    pose proof (attempts_run _ _ _ _ _ _ _ _ Hatt1 st eq_refl) as Hcall1.
    rewrite Hcall in Hcall1. inversion Hcall1; subst r1.
    apply fatal_some in Hfail. now rewrite Hfail.
Qed.

(** X8: [Move] makes one call, a move from the key of the source to the key
    of the destination with overwriting allowed, and no refresh request;
    it returns nil exactly when the provider did, and an error other than
    code 612 as it came. *)
Theorem X8_Move_one_call (src dst : string) (st : World B) (b' : B)
  (r : option sdk_error) :
  bucket_Move (remote st) (kodo.getKey d src) (kodo.getKey d dst) true = (b', r) ->
  snd (kodo.Move d src dst st)
  = extend st b' [EvMove (kodo.getKey d src) (kodo.getKey d dst) true r]
  /\ (r = None <-> fst (kodo.Move d src dst st) = None)
  /\ (forall e, r = Some e -> ~ Spec.key_missing e ->
        fst (kodo.Move d src dst st) = Some (Sdk e)).
Proof.
  intros Hm. unfold kodo.Move, bind, kodo.call_Move, ret. rewrite Hm.
  simpl. split; [reflexivity|]. split.
  - split; [now intros -> |].
    destruct r as [[c m| |m]|]; simpl; try discriminate; auto.
    destruct (c =? 612); discriminate.
  - intros e -> Hkeep. destruct e as [c m| |m]; simpl; try reflexivity.
    destruct (Z.eqb_spec c 612) as [->|_]; [|reflexivity].
    exfalso. apply Hkeep. now exists m.
Qed.

(** X9: [PutContent] stores the content under the key of the path with one
    put; when the put went through it sends one refresh request for that
    key and returns nil, and when the put failed it returns that error and
    sends no refresh request. *)
Theorem X9_PutContent_put_then_refresh (path : string) (content : list Byte.byte)
  (st : World B) :
  exists b' r,
    bucket_Put (remote st) (kodo.getKey d path) content = (b', r)
    /\ kodo.PutContent d path content st
       = (match r with Some e => Some (Sdk e) | None => None end,
          extend st b'
            (EvPut (kodo.getKey d path) content r
             :: match r with
                | None => [EvRefresh (kodo.getKey d path)]
                | Some _ => []
                end)).
Proof.
  unfold kodo.PutContent, bind, kodo.call_Put.
  destruct (bucket_Put (remote st) (kodo.getKey d path) content) as [b' r].
  exists b', r. split; [reflexivity|].
  destruct r as [e|]; unfold ret, kodo.refreshCache, extend; simpl.
  - reflexivity.
  - now rewrite <- app_assoc.
Qed.

End FacadeMore.

(** ** More on the write session *)

Lemma wrap64_small (z : Z) : - 2 ^ 63 <= z < 2 ^ 63 -> wrap64 z = z.
Proof.
  intros Hz. unfold wrap64. rewrite Z.mod_small; lia.
Qed.

Lemma len_app {A : Type} (l1 l2 : list A) : len (l1 ++ l2) = len l1 + len l2.
Proof. unfold len. rewrite length_app. lia. Qed.

Lemma len_nonneg {A : Type} (l : list A) : 0 <= len l.
Proof. unfold len. lia. Qed.

Section SessionMore.

Context {B : Type} `{Provider B}.
Variable d : kodo.driver.

Lemma Write_keeps (u : kodo.upload) (w : kodo.writer) (p : list Byte.byte) (st : World B) :
  let w' := snd (fst (kodo.Write d u w p st)) in
  kodo.path w' = kodo.path w /\ kodo.from w' = kodo.from w
  /\ kodo.closed w' = kodo.closed w /\ kodo.committed w' = kodo.committed w
  /\ kodo.cancelled w' = kodo.cancelled w.
Proof.
  cbv zeta. unfold kodo.Write.
  destruct (kodo.closed w) eqn:Hc; [repeat split; assumption|].
  destruct (kodo.committed w) eqn:Hm; [repeat split; assumption|].
  destruct (kodo.cancelled w) eqn:Hx; [repeat split; assumption|].
  unfold bind, kodo.exits, bind, ret.
  destruct u as [| |taken]; destruct (kodo.pipe w) as [buf|] eqn:Hp;
    destruct (kodo.exitch w) eqn:Hch;
    repeat first
      [ progress cbn [fst snd kodo.err kodo.pipe kodo.exitch kodo.path kodo.from
                      kodo.closed kodo.committed kodo.cancelled]
      | rewrite Hp | rewrite Hch
      | match goal with
        | |- context [kodo.background d ?a ?b ?c] =>
            destruct (kodo.background d a b c) as [? ?]
        | |- context [match ?e with Some _ => _ | None => _ end] => destruct e
        end ];
    repeat split; assumption.
Qed.

(** What one call can do to the fields of the session. *)
Lemma invoke_keeps (fuel : nat) (c : kodo.call) (w : kodo.writer) (st : World B) :
  let w' := snd (fst (kodo.invoke d fuel c w st)) in
  kodo.path w' = kodo.path w /\ kodo.from w' = kodo.from w
  /\ (kodo.closed w = true -> kodo.closed w' = true)
  /\ (kodo.committed w = true -> kodo.committed w' = true)
  /\ (kodo.cancelled w = true -> kodo.cancelled w' = true)
  /\ (kodo.committed w && kodo.cancelled w = false ->
      kodo.committed w' && kodo.cancelled w' = false).
Proof.
  cbv zeta. destruct c as [u p| | |].
  - rewrite invoke_Write.
    pose proof (Write_keeps u w p st) as Hk. cbv zeta in Hk.
    destruct (kodo.Write d u w p st) as [[r w1] st1]. cbn [fst snd] in *.
    destruct Hk as (Hp & Hf & Hc & Hm & Hx). rewrite Hp, Hf, Hc, Hm, Hx.
    repeat split; auto.
  - simpl; unfold bind, ret. unfold kodo.Close, bind, ret.
    destruct (kodo.closed w) eqn:Hc; [simpl; rewrite ?Hc, ?Hm, ?Hx; simpl; intuition congruence|].
    destruct (kodo.close d w st) as [w1 st1] eqn:Hcl.
    apply close_keeps in Hcl as (Hp & Hf & _ & Hc1 & Hm1 & Hx1 & _).
    destruct (kodo.err w1); simpl; rewrite ?Hp, ?Hf, ?Hc1, ?Hm1, ?Hx1; intuition congruence.
  - simpl; unfold bind, ret. unfold kodo.Commit, bind, ret.
    destruct (kodo.closed w) eqn:Hc; [simpl; rewrite ?Hc, ?Hm, ?Hx; simpl; intuition congruence|].
    destruct (kodo.committed w) eqn:Hm; [simpl; rewrite ?Hc, ?Hm, ?Hx; simpl; intuition congruence|].
    destruct (kodo.cancelled w) eqn:Hx; [simpl; rewrite ?Hc, ?Hm, ?Hx; simpl; intuition congruence|].
    destruct (kodo.close d w st) as [w1 st1] eqn:Hcl.
    apply close_keeps in Hcl as (Hp & Hf & _ & Hc1 & Hm1 & Hx1 & _).
    destruct (kodo.err w1); simpl; rewrite ?Hp, ?Hf, ?Hc1, ?Hm1, ?Hx1, ?Hc, ?Hm, ?Hx; simpl; intuition congruence.
  - cbn [kodo.invoke].
    destruct (kodo.closed w) eqn:Hc;
      [unfold kodo.Cancel, ret; rewrite Hc; simpl; rewrite ?Hc; intuition congruence|].
    destruct (kodo.committed w) eqn:Hm;
      [unfold kodo.Cancel, ret; rewrite Hc, Hm; simpl; rewrite ?Hc, ?Hm; intuition congruence|].
    destruct (kodo.close d w st) as [w1 st1] eqn:Hcl.
    rewrite (Cancel_run d fuel w w1 st st1 Hc Hm Hcl).
    destruct (kodo.Delete d fuel (kodo.path w) st1) as [r st2]. simpl.
    intuition congruence.
Qed.

(** X10: closing or committing a session that took no write makes no call:
    nothing is stored under the key, and the call succeeds. *)
Theorem X10_session_without_writes_stores_nothing (path : string) (sz : Z)
  (st : World B) :
  (exists w, kodo.Commit d (kodo.newFileWriter path sz) st = ((None, w), st)
             /\ kodo.committed w = true)
  /\ (exists w, kodo.Close d (kodo.newFileWriter path sz) st = ((None, w), st)
                /\ kodo.closed w = true).
Proof. split; eexists; split; reflexivity. Qed.

(** X11: over any sequence of calls the path and the resume offset of a
    session stay what they were, a terminal flag that is set stays set, and
    a session that is not both committed and cancelled never becomes so. *)
Theorem X11_session_flags_only_grow (fuel : nat) (cs : list kodo.call) :
  forall (w : kodo.writer) (st : World B),
  let wf := snd (fst (kodo.session d fuel cs w st)) in
  kodo.path wf = kodo.path w /\ kodo.from wf = kodo.from w
  /\ (kodo.closed w = true -> kodo.closed wf = true)
  /\ (kodo.committed w = true -> kodo.committed wf = true)
  /\ (kodo.cancelled w = true -> kodo.cancelled wf = true)
  /\ (kodo.committed w && kodo.cancelled w = false ->
      kodo.committed wf && kodo.cancelled wf = false).
Proof.
  induction cs as [|c cs IH]; intros w st; cbv zeta.
  - simpl. tauto.
  - rewrite session_cons.
    pose proof (invoke_keeps fuel c w st) as Hstep. cbv zeta in Hstep.
    destruct (kodo.invoke d fuel c w st) as [[r w1] st1]. simpl in Hstep.
    specialize (IH w1 st1). cbv zeta in IH.
    destruct (kodo.session d fuel cs w1 st1) as [[rs wf] st2]. simpl in IH |- *.
    destruct Hstep as (Hp & Hf & Hc & Hm & Hx & He).
    destruct IH as (Hp' & Hf' & Hc' & Hm' & Hx' & He').
    rewrite Hp', Hf'. repeat split; auto.
Qed.

Lemma invoke_after_failure (fuel : nat) (c : kodo.call) (w : kodo.writer)
  (st : World B) (e : error) :
  kodo.err w = Some e -> kodo.pipe w = None ->
  let r := fst (fst (kodo.invoke d fuel c w st)) in
  let w' := snd (fst (kodo.invoke d fuel c w st)) in
  kodo.err w' = Some e /\ kodo.pipe w' = None
  /\ kodo.closed w' = kodo.closed w /\ kodo.committed w' = kodo.committed w
  /\ kodo.size w' = kodo.size w
  /\ (c <> kodo.CallCancel -> Spec.failed r /\ snd (kodo.invoke d fuel c w st) = st).
Proof.
  cbv zeta. intros He Hp. destruct c as [u p| | |].
  - rewrite invoke_Write. unfold kodo.Write, ret.
    destruct (kodo.closed w) eqn:Hc; [simpl; rewrite ?Hc; repeat split; auto; now eexists|].
    destruct (kodo.committed w) eqn:Hm; [simpl; rewrite ?Hc, ?Hm; repeat split; auto; now eexists|].
    destruct (kodo.cancelled w) eqn:Hx; [simpl; rewrite ?Hc, ?Hm; repeat split; auto; now eexists|].
    rewrite Hp. unfold bind.
    destruct u; rewrite He; simpl; rewrite ?Hc, ?Hm; repeat split; auto; now eexists.
  - simpl; unfold bind, ret. unfold kodo.Close, bind, ret.
    destruct (kodo.closed w) eqn:Hc; [simpl; rewrite ?Hc; repeat split; auto; now eexists|].
    rewrite (close_again d w st Hp), He. simpl. rewrite ?Hc, ?Hm. repeat split; auto. now eexists.
  - simpl; unfold bind, ret. unfold kodo.Commit, bind, ret.
    destruct (kodo.closed w) eqn:Hc; [simpl; rewrite ?Hc; repeat split; auto; now eexists|].
    destruct (kodo.committed w) eqn:Hm; [simpl; rewrite ?Hc, ?Hm; repeat split; auto; now eexists|].
    destruct (kodo.cancelled w) eqn:Hx; [simpl; rewrite ?Hc, ?Hm; repeat split; auto; now eexists|].
    rewrite (close_again d w st Hp), He. simpl. rewrite ?Hc, ?Hm. repeat split; auto. now eexists.
  - cbn [kodo.invoke].
    destruct (kodo.closed w) eqn:Hc;
      [unfold kodo.Cancel, ret; rewrite Hc; simpl; rewrite ?Hc; repeat split; auto; congruence|].
    destruct (kodo.committed w) eqn:Hm;
      [unfold kodo.Cancel, ret; rewrite Hc, Hm; simpl; rewrite ?Hc, ?Hm;
       repeat split; auto; congruence|].
    rewrite (Cancel_run d fuel w w st st Hc Hm (close_again d w st Hp)).
    destruct (kodo.Delete d fuel _ st) as [r st2]. simpl.
    repeat split; auto; congruence.
Qed.

(** X12: once the upload has failed and been joined, the failure stays: in
    any sequence of calls made afterwards every [Write], [Close] and
    [Commit] fails, the flags [closed] and [committed] and the size stay as
    they are, and unless a [Cancel] is among the calls the provider is not
    called. *)
Theorem X12_upload_failure_is_final (fuel : nat) (cs : list kodo.call) :
  forall (w : kodo.writer) (st : World B) (e : error),
  kodo.err w = Some e -> kodo.pipe w = None ->
  let '(rs, wf, st') := kodo.session d fuel cs w st in
  kodo.err wf = Some e
  /\ kodo.closed wf = kodo.closed w /\ kodo.committed wf = kodo.committed w
  /\ kodo.size wf = kodo.size w
  /\ Forall2 (fun c r => c = kodo.CallCancel \/ Spec.failed r) cs rs
  /\ (Forall (fun c => c <> kodo.CallCancel) cs -> st' = st).
Proof.
  induction cs as [|c cs IH]; intros w st e He Hp.
  - simpl. unfold ret. repeat split; auto.
  - rewrite session_cons.
    pose proof (invoke_after_failure fuel c w st e He Hp) as Hstep. cbv zeta in Hstep.
    destruct (kodo.invoke d fuel c w st) as [[r w1] st1]. simpl in Hstep.
    destruct Hstep as (He1 & Hp1 & Hc1 & Hm1 & Hs1 & Hfail).
    specialize (IH w1 st1 e He1 Hp1).
    destruct (kodo.session d fuel cs w1 st1) as [[rs wf] st2].
    destruct IH as (Hef & Hcf & Hmf & Hsf & Hall & Hst).
    rewrite Hcf, Hmf, Hsf, Hc1, Hm1, Hs1. repeat split; auto.
    + constructor; [|exact Hall].
      destruct c; try (right; apply Hfail; discriminate). now left.
    + intros Hno. inversion Hno as [|c' cs' Hc' Hcs']; subst.
      rewrite (Hst Hcs'). now apply Hfail.
Qed.

Lemma accepted_cons (c : kodo.call) (cs : list kodo.call) (r : run (option error))
  (rs : list (run (option error))) :
  Spec.accepted (c :: cs) (r :: rs)
  = match c, r with
    | kodo.CallWrite _ p, Return None => p
    | _, _ => []
    end ++ Spec.accepted cs rs.
Proof. destruct c as [u p| | |]; [destruct r as [[e|]|m| |]|..]; reflexivity. Qed.

(** The size after one call: a write that returned nil has added the length
    of its bytes, every other call has left the size alone. *)
Lemma invoke_size (fuel : nat) (c : kodo.call) (w : kodo.writer) (st : World B) :
  let r := fst (fst (kodo.invoke d fuel c w st)) in
  kodo.size (snd (fst (kodo.invoke d fuel c w st)))
  = match c, r with
    | kodo.CallWrite _ p, Return None => int64_add (kodo.size w) (len p)
    | _, _ => kodo.size w
    end.
Proof.
  cbv zeta. destruct c as [u p| | |].
  - rewrite invoke_Write. unfold kodo.Write.
    destruct (kodo.closed w) eqn:Hc; [reflexivity|].
    destruct (kodo.committed w) eqn:Hm; [reflexivity|].
    destruct (kodo.cancelled w) eqn:Hx; [reflexivity|].
    unfold bind, kodo.exits, bind, ret.
    destruct u as [| |taken]; destruct (kodo.pipe w) as [buf|] eqn:Hp;
      destruct (kodo.exitch w) eqn:Hch;
      repeat first
        [ progress cbn [fst snd map_run kodo.err kodo.pipe kodo.exitch kodo.size]
        | rewrite Hp | rewrite Hch
        | match goal with
          | |- context [kodo.background d ?a ?b ?c] =>
              destruct (kodo.background d a b c) as [? ?]
          | |- context [match ?e with Some _ => _ | None => _ end] => destruct e
          end ];
      reflexivity.
  - cbn [kodo.invoke]. unfold bind, ret, kodo.Close, bind, ret.
    destruct (kodo.closed w); [now destruct (Return (Some (Errorf "already closed")))|].
    destruct (kodo.close d w st) as [w1 st1] eqn:Hcl.
    apply close_keeps in Hcl as (_ & _ & Hs & _).
    destruct (kodo.err w1); cbn [fst snd kodo.size]; exact Hs.
  - cbn [kodo.invoke]. unfold bind, ret, kodo.Commit, bind, ret.
    destruct (kodo.closed w); [reflexivity|].
    destruct (kodo.committed w); [reflexivity|].
    destruct (kodo.cancelled w); [reflexivity|].
    destruct (kodo.close d w st) as [w1 st1] eqn:Hcl.
    apply close_keeps in Hcl as (_ & _ & Hs & _).
    destruct (kodo.err w1); cbn [fst snd kodo.size]; exact Hs.
  - cbn [kodo.invoke].
    destruct (kodo.closed w) eqn:Hc; [unfold kodo.Cancel, ret; now rewrite Hc|].
    destruct (kodo.committed w) eqn:Hm; [unfold kodo.Cancel, ret; now rewrite Hc, Hm|].
    destruct (kodo.close d w st) as [w1 st1] eqn:Hcl.
    rewrite (Cancel_run d fuel w w1 st st1 Hc Hm Hcl).
    now destruct (kodo.Delete d fuel (kodo.path w) st1) as [r st2].
Qed.

(** X13: over any sequence of calls, whatever the background task does
    meanwhile, the size of a session is the size it had plus the number of
    bytes of the writes that returned nil, as long as the bytes submitted
    keep it below 2^63.  A write that returns an error or is left waiting
    adds nothing, and [Close], [Commit] and [Cancel] leave the size as it
    is, whatever becomes of the upload. *)
Theorem X13_size_counts_the_bytes_written (fuel : nat) (cs : list kodo.call) :
  forall (w : kodo.writer) (st : World B),
  0 <= kodo.size w -> kodo.size w + len (Spec.submitted cs) < 2 ^ 63 ->
  let '(rs, wf, _) := kodo.session d fuel cs w st in
  kodo.size wf = kodo.size w + len (Spec.accepted cs rs)
  /\ len (Spec.accepted cs rs) <= len (Spec.submitted cs).
Proof.
  induction cs as [|c cs IH]; intros w st H0 Hlt.
  - simpl. unfold len. simpl. lia.
  - rewrite session_cons.
    pose proof (invoke_size fuel c w st) as Hsize. cbv zeta in Hsize.
    destruct (kodo.invoke d fuel c w st) as [[r w1] st1]. cbn [fst snd] in Hsize.
    assert (Hsub : Spec.submitted (c :: cs)
                   = match c with kodo.CallWrite _ p => p | _ => [] end
                     ++ Spec.submitted cs) by reflexivity.
    rewrite Hsub, len_app in Hlt.
    pose proof (len_nonneg (match c with kodo.CallWrite _ p => p | _ => [] end)) as Hc0.
    pose proof (len_nonneg (Spec.submitted cs)) as Hs0.
    assert (Hw1 : kodo.size w1
                  = kodo.size w
                    + len (match c, r with
                           | kodo.CallWrite _ p, Return None => p
                           | _, _ => []
                           end)
                  /\ len (match c, r with
                          | kodo.CallWrite _ p, Return None => p
                          | _, _ => []
                          end)
                     <= len (match c with kodo.CallWrite _ p => p | _ => [] end)).
    { rewrite Hsize. destruct c as [u p| | |]; [destruct r as [[e|]|m| |]|..];
        try (unfold len; simpl; lia).
      unfold int64_add. rewrite wrap64_small by lia. lia. }
    destruct Hw1 as (Hw1 & Hle).
    pose proof (len_nonneg (match c, r with
                            | kodo.CallWrite _ p, Return None => p
                            | _, _ => []
                            end)) as Ha0.
    specialize (IH w1 st1).
    destruct (kodo.session d fuel cs w1 st1) as [[rs wf] st2].
    destruct IH as (IHs & IHle); [lia | lia |].
    rewrite accepted_cons, Hsub, !len_app. rewrite IHs, Hw1. lia.
Qed.

(** X14: [Cancel] on a session whose upload is running first lets the
    upload end, so that the segmented put (and after a successful one the
    refresh request) comes before the delete, sets [cancelled] and runs
    [Delete] on the path.  What [Delete] returned is returned, with one
    exception: when [Delete] returned an error, the line for the log is
    made of the error of the upload, and if the upload went through there
    is none: the call panics on the nil [error].  So when nothing is listed
    under the key, [Cancel] answers PathNotFoundError after a failed
    upload and panics after a successful one. *)
Theorem X14_Cancel_uploads_then_deletes (fuel : nat) (w : kodo.writer)
  (stream : list Byte.byte) (st : World B) (b1 : B) (answer : option sdk_error) :
  kodo.closed w = false -> kodo.committed w = false ->
  kodo.pipe w = Some stream -> kodo.exitch w = false ->
  bucket_PutParts (remote st) (kodo.getKey d (kodo.path w))
                  (kodo.background_parts (kodo.getKey d (kodo.path w)) (kodo.from w) stream)
  = (b1, answer) ->
  let st1 :=
    extend st b1
      (EvPutParts (kodo.getKey d (kodo.path w))
         (kodo.background_parts (kodo.getKey d (kodo.path w)) (kodo.from w) stream) answer
       :: match answer with
          | None => [EvRefresh (kodo.getKey d (kodo.path w))]
          | Some _ => []
          end) in
  let failure e :=
    match answer with
    | Some _ => Return (Some e)
    | None => Panic "runtime error: invalid memory address or nil pointer dereference"
    end in
  snd (kodo.Cancel d fuel w st) = snd (kodo.Delete d fuel (kodo.path w) st1)
  /\ kodo.cancelled (snd (fst (kodo.Cancel d fuel w st))) = true
  /\ ((forall e, fst (kodo.Delete d fuel (kodo.path w) st1) <> Return (Some e)) ->
      fst (fst (kodo.Cancel d fuel w st)) = fst (kodo.Delete d fuel (kodo.path w) st1))
  /\ (forall e,
        fst (kodo.Delete d fuel (kodo.path w) st1) = Return (Some e) ->
        fst (fst (kodo.Cancel d fuel w st)) = failure e)
  /\ (forall evs r b2,
        Spec.attempts (kodo.getKey d (kodo.path w)) "" "" kodo.listMax b1 evs r b2 ->
        Spec.page_ok r -> entries r = [] -> fuel <> 0%nat ->
        fst (fst (kodo.Cancel d fuel w st))
        = failure (PathNotFoundError (kodo.path w) kodo.driverName)).
Proof.
  intros Hc Hm Hp Hch Hput st1 failure.
  pose proof (close_joins d w stream st b1 answer Hp Hch Hput) as Hcl.
  fold st1 in Hcl. change (extend st b1 _) with st1 in Hcl.
  rewrite (Cancel_run d fuel w _ st st1 Hc Hm Hcl).
  assert (Herr : forall e,
             map_run (fun _ : unit => Some e)
                     (kodo.errorInfo (kodo.err (kodo.joined w (Spec.upload_error answer))))
             = failure e).
  { intros e. unfold failure. now destruct answer. }
  assert (Hfound : forall e,
             fst (kodo.Delete d fuel (kodo.path w) st1) = Return (Some e) ->
             fst (fst (let (r, st2) := kodo.Delete d fuel (kodo.path w) st1 in
                       (match r with
                        | Return (Some e) =>
                            map_run (fun _ : unit => Some e)
                              (kodo.errorInfo
                                 (kodo.err (kodo.joined w (Spec.upload_error answer))))
                        | _ => r
                        end,
                        {| kodo.path := kodo.path w; kodo.pipe := None;
                           kodo.size := kodo.size w; kodo.from := kodo.from w;
                           kodo.closed := false; kodo.committed := false;
                           kodo.cancelled := true;
                           kodo.exitch := kodo.exitch (kodo.joined w (Spec.upload_error answer));
                           kodo.err := kodo.err (kodo.joined w (Spec.upload_error answer)) |},
                        st2))) = failure e).
  { intros e He. destruct (kodo.Delete d fuel (kodo.path w) st1) as [r st2].
    cbn [fst] in He. subst r. cbn [fst snd]. apply Herr. }
  split; [|split; [|split; [|split]]].
  - now destruct (kodo.Delete d fuel (kodo.path w) st1) as [r st2].
  - now destruct (kodo.Delete d fuel (kodo.path w) st1) as [r st2].
  - intros Hno. destruct (kodo.Delete d fuel (kodo.path w) st1) as [r st2].
    cbn [fst snd] in *. destruct r as [[e|]|m| |]; try reflexivity.
    now destruct (Hno e).
  - exact Hfound.
  - intros evs r0 b2 Hatt Hok Hnil Hfuel. apply Hfound.
    destruct fuel as [|fuel']; [congruence|].
    unfold kodo.Delete. simpl. unfold bind.
    rewrite (attempts_run _ _ _ _ _ _ _ _ Hatt st1 eq_refl).
    apply fatal_none in Hok. rewrite Hok, Hnil. reflexivity.
Qed.

(** X26: once the segmented put has returned, before the session was
    ended, no write is taken any more: every [Write] returns the error the
    put left, or, should the put have returned nil, waits on the pipe for
    good; the session and the provider stay as they are.  [close] then
    only takes the token of the task: no second put is made, and [Close]
    and [Commit] return the error the put left. *)
Theorem X26_no_write_after_the_upload_returned (fuel : nat)
  (ws : list (kodo.upload * list Byte.byte)) (w : kodo.writer)
  (buf : list Byte.byte) (st : World B) :
  Spec.opened w -> kodo.pipe w = Some buf -> kodo.exitch w = true ->
  kodo.session d fuel (Spec.writes ws) w st
  = (map (fun _ => match kodo.err w with
                   | Some e => Return (Some e)
                   | None => Stuck
                   end) ws, w, st)
  /\ kodo.close d w st = (kodo.joined w (kodo.err w), st)
  /\ (forall e, kodo.err w = Some e ->
        kodo.Close d w st = ((Some e, kodo.joined w (Some e)), st)
        /\ kodo.Commit d w st = ((Some e, kodo.joined w (Some e)), st)).
Proof.
  intros Hop Hp Hch. split; [|split].
  - induction ws as [|[u p] ws IH]; [reflexivity|].
    cbn [Spec.writes map fst snd]. fold (Spec.writes ws).
    rewrite session_cons, invoke_Write.
    rewrite (Write_exited d u w p buf st Hop Hp Hch), IH.
    now destruct (kodo.err w).
  - now apply (close_done d w buf).
  - intros e He. destruct Hop as (Hc & Hm & Hx).
    unfold kodo.Close, kodo.Commit, bind, ret.
    rewrite Hc, Hm, Hx, (close_done d w buf st Hp Hch), He. cbn [kodo.err kodo.joined].
    split; reflexivity.
Qed.

End SessionMore.

(** ** The part list of the segmented put *)

Section AssemblyMore.

Variable os_Open : string -> result (list Byte.byte).
Variable crc32_IEEE : list Byte.byte -> Z.
Variable writer_CreateFormFile : string -> option error.
Variable io_Copy_crc : Reader -> option string.
Variable rs_Seek : Reader -> option string.
Variable io_Copy : string -> Reader -> option string.

Lemma copyMultipart_parts_app (pre post : list PutPart.t) :
  forall arg i,
  kodocli.copyMultipart_parts os_Open crc32_IEEE writer_CreateFormFile
      io_Copy_crc rs_Seek io_Copy arg i (pre ++ post)
  = match kodocli.copyMultipart_parts os_Open crc32_IEEE writer_CreateFormFile
      io_Copy_crc rs_Seek io_Copy arg i pre with
    | Ok arg1 => kodocli.copyMultipart_parts os_Open crc32_IEEE writer_CreateFormFile
      io_Copy_crc rs_Seek io_Copy arg1 (i + len pre) post
    | Err e => Err e
    end.
Proof.
  induction pre as [|p pre IH]; intros arg i.
  - simpl. unfold len. simpl. now rewrite Z.add_0_r.
  - cbn [app kodocli.copyMultipart_parts].
    match goal with
    | |- match ?step with Ok _ => _ | Err _ => _ end = _ =>
        destruct step as [arg'|e]; [|reflexivity]
    end.
    rewrite IH. unfold len. cbn [length].
    replace (i + 1 + Z.of_nat (length pre)) with (i + Z.of_nat (S (length pre))) by lia.
    reflexivity.
Qed.

(** A direct part that was taken left a direct entry, with the checksum
    given unless one was to be computed. *)
Lemma addDirectFile_entry (arg a : kodocli.partArg) (i : Z) (checkCrc : bool)
  (crc32v : Z) (r : Reader) :
  kodocli.addDirectFile crc32_IEEE writer_CreateFormFile io_Copy_crc rs_Seek
    io_Copy arg i checkCrc crc32v r = Ok a ->
  exists q,
    a = kodocli.append_part arg q
    /\ part.Type_ q = "direct" /\ part.StorageFile q = "" /\ part.Range q = ""
    /\ (checkCrc = false -> part.Crc32 q = crc32v).
Proof.
  unfold kodocli.addDirectFile.
  destruct (writer_CreateFormFile _); [discriminate|].
  destruct checkCrc; cbn [andb].
  - destruct (crc32v =? 0).
    + destruct (seeker r); [|discriminate].
      destruct (io_Copy_crc r); [discriminate|].
      destruct (rs_Seek r); [discriminate|].
      destruct (io_Copy _ r); [discriminate|]. intros [= <-].
      eexists. split; [reflexivity|]. repeat split; discriminate.
    + destruct (io_Copy _ r); [discriminate|]. intros [= <-].
      eexists. split; [reflexivity|]. repeat split; discriminate.
  - destruct (io_Copy _ r); [discriminate|]. intros [= <-].
    eexists. split; [reflexivity|]. repeat split.
Qed.

(** X15: when the part list is assembled, it is the list there was,
    followed by one entry for each part given, in the order given; the
    content type is kept; and each entry describes its part: a copy entry
    with the key and a valid range for a part without file name and reader,
    a direct entry for the others. *)
Theorem X15_part_list_follows_the_parts (parts : list PutPart.t) :
  forall arg i arg',
  kodocli.copyMultipart_parts os_Open crc32_IEEE writer_CreateFormFile
      io_Copy_crc rs_Seek io_Copy arg i parts = Ok arg' ->
  kodocli.MimeType arg' = kodocli.MimeType arg
  /\ exists entries,
       kodocli.Parts arg' = kodocli.Parts arg ++ entries
       /\ Forall2 Assembly.describes parts entries.
Proof.
  induction parts as [|p parts IH]; intros arg i arg' Hrun.
  - simpl in Hrun. inversion Hrun; subst. split; [reflexivity|].
    exists []. rewrite app_nil_r. split; constructor.
  - cbn [kodocli.copyMultipart_parts] in Hrun.
    assert (Hstep : forall step : result kodocli.partArg,
               match step with
               | Ok a => kodocli.copyMultipart_parts os_Open crc32_IEEE writer_CreateFormFile
      io_Copy_crc rs_Seek io_Copy a (i + 1) parts
               | Err e => Err e
               end = Ok arg' ->
               (forall a, step = Ok a ->
                  exists q, a = kodocli.append_part arg q /\ Assembly.describes p q) ->
               kodocli.MimeType arg' = kodocli.MimeType arg
               /\ exists entries,
                    kodocli.Parts arg' = kodocli.Parts arg ++ entries
                    /\ Forall2 Assembly.describes (p :: parts) entries).
    { intros [a|e] Hr Hq; [|discriminate].
      destruct (Hq a eq_refl) as (q & -> & Hd).
      apply IH in Hr as (Hmime & entries & Hparts & Hall).
      split; [exact Hmime|]. exists (q :: entries). split.
      - rewrite Hparts. simpl. now rewrite <- app_assoc.
      - now constructor. }
    apply Hstep in Hrun; [exact Hrun|]. clear Hstep Hrun.
    intros a. unfold Assembly.describes.
    destruct (PutPart.FileName p) as [|c name] eqn:Hname; cbn [String.eqb negb].
    + destruct (PutPart.R p) as [r|] eqn:Hr.
      * intros Ha. apply addDirectFile_entry in Ha as (q & -> & Hq).
        exists q. split; [reflexivity | exact Hq].
      * unfold kodocli.addCopyFile.
        destruct (PutPart.To p =? -1) eqn:Hto; cbn [orb].
        -- intros [= <-]. eexists. split; [reflexivity|]. split; [reflexivity|].
           left. now apply Z.eqb_eq.
        -- destruct (PutPart.From p <? PutPart.To p) eqn:Hlt; intros [= <-].
           eexists. split; [reflexivity|]. split; [reflexivity|].
           right. now apply Z.ltb_lt.
    + destruct (os_Open (String c name)) as [f|]; [|discriminate].
      intros Ha. apply addDirectFile_entry in Ha as (q & -> & Hq).
      exists q. split; [reflexivity | exact Hq].
Qed.

(** X16: a part that is a range of a stored key with [to] neither -1 nor
    above [from] makes the whole assembly fail with the invalid-argument
    error as soon as the parts before it have been taken, whatever parts
    follow it. *)
Theorem X16_bad_copy_range_fails_the_put (pre post : list PutPart.t) (p : PutPart.t)
  (arg arg1 : kodocli.partArg) (i : Z) :
  kodocli.copyMultipart_parts os_Open crc32_IEEE writer_CreateFormFile
      io_Copy_crc rs_Seek io_Copy arg i pre = Ok arg1 ->
  Assembly.bad_copy p ->
  kodocli.copyMultipart_parts os_Open crc32_IEEE writer_CreateFormFile
      io_Copy_crc rs_Seek io_Copy arg i (pre ++ p :: post)
  = Err (Errorf "invalid from&to argument").
Proof.
  intros Hpre (Hname & Hr & Hto & Hle).
  rewrite copyMultipart_parts_app, Hpre. cbn [kodocli.copyMultipart_parts].
  rewrite Hname, Hr. cbn [String.eqb negb]. unfold kodocli.addCopyFile.
  apply Z.eqb_neq in Hto. rewrite Hto.
  destruct (Z.ltb_spec (PutPart.From p) (PutPart.To p)) as [Hlt|_]; [lia|].
  reflexivity.
Qed.

End AssemblyMore.

(** ** Delivery of invalidation requests *)

Section DrainMore.

Context {B : Type} `{Provider B}.
Variable d : kodo.driver.

Lemma requested_app (e1 e2 : list event) :
  Drain.requested (e1 ++ e2) = Drain.requested e1 ++ Drain.requested e2.
Proof. unfold Drain.requested. apply flat_map_app. Qed.

(** The request of a worker for the key it holds. *)
Lemma refreshCacheNow_run (key : string) (w : World B) :
  exists b r,
    refresh_Get (remote w) (Drain.refresh_url d key) = (b, r)
    /\ snd (Invalidator.refreshCacheNow d key w)
       = extend w b [EvGet (Drain.refresh_url d key) r]
    /\ length (snd (fst (Invalidator.refreshCacheNow d key w)))
       = match r with Some _ => 1%nat | None => 0%nat end.
Proof.
  unfold Invalidator.refreshCacheNow, bind, Invalidator.call_Get.
  fold (Drain.refresh_url d key).
  destruct (refresh_Get (remote w) (Drain.refresh_url d key)) as [b r] eqn:Hget.
  exists b, r. destruct r as [e|]; unfold ret; simpl; repeat split.
Qed.

Lemma held_release (i : nat) (hs : list (nat * string)) (key : string) :
  Drain.held i hs = Some key ->
  Permutation (map snd hs) (key :: map snd (Drain.release i hs)).
Proof.
  induction hs as [|[j k] hs IH]; [discriminate|].
  cbn [Drain.held Drain.release]. destruct (j =? i)%nat.
  - intros [= ->]. reflexivity.
  - intros Hh. cbn [map snd]. rewrite (IH Hh). apply perm_swap.
Qed.

Lemma held_none (i : nat) (hs : list (nat * string)) :
  Drain.held i hs = None -> ~ In i (map fst hs).
Proof.
  induction hs as [|[j k] hs IH]; [intros _ []|].
  cbn [Drain.held]. destruct (Nat.eqb_spec j i) as [->|Hne]; [discriminate|].
  intros Hh [Hin|Hin]; [now apply Hne | now apply IH].
Qed.

Lemma release_incl (i : nat) (hs : list (nat * string)) :
  forall h, In h (Drain.release i hs) -> In h hs.
Proof.
  induction hs as [|[j k] hs IH]; intros h; [intros []|].
  cbn [Drain.release]. destruct (j =? i)%nat; [now right|].
  intros [<-|Hin]; [now left | right; now apply IH].
Qed.

Lemma release_NoDup (i : nat) (hs : list (nat * string)) :
  NoDup (map fst hs) -> NoDup (map fst (Drain.release i hs)).
Proof.
  induction hs as [|[j k] hs IH]; [auto|].
  cbn [Drain.release map fst]. intros Hnd. inversion Hnd as [|x xs Hnot Hrest]; subst.
  destruct (j =? i)%nat; [exact Hrest|].
  cbn [map fst]. constructor; [|now apply IH].
  intros Hin. apply Hnot. apply in_map_iff in Hin as ([j' k'] & Hj & Hin).
  apply in_map_iff. exists (j', k'). split; [exact Hj|]. now apply (release_incl i hs).
Qed.

(** Workers that hold a key: no worker twice, and none but the workers
    there are. *)
Lemma holding_bounded (hs : list (nat * string)) :
  NoDup (map fst hs) -> Forall (fun h => (fst h < kodo.workers d)%nat) hs ->
  (length hs <= kodo.workers d)%nat.
Proof.
  intros Hnd Hall. rewrite <- (length_map fst hs), <- (length_seq (kodo.workers d) 0).
  apply NoDup_incl_length; [exact Hnd|].
  intros i Hin. apply in_map_iff in Hin as (h & <- & Hin).
  rewrite Forall_forall in Hall. apply in_seq. specialize (Hall h Hin). lia.
Qed.

Lemma run_keeps_keys (schedule : list Drain.move) :
  forall s : Drain.Pool (B := B),
  NoDup (map fst (Drain.holding s)) ->
  Forall (fun h => (fst h < kodo.workers d)%nat) (Drain.holding s) ->
  let '(sf, sent, received) := Drain.run d schedule s in
  exists evs b',
    Invalidator.world (Drain.sys sf) = extend (Invalidator.world (Drain.sys s)) b' evs
    /\ Forall (fun ev => exists url r, ev = EvGet url r) evs
    /\ received ++ Invalidator.refreshCh (Drain.sys sf)
       = Invalidator.refreshCh (Drain.sys s) ++ sent
    /\ Permutation
         (Drain.requested evs ++ map (Drain.refresh_url d) (map snd (Drain.holding sf)))
         (map (Drain.refresh_url d) (map snd (Drain.holding s) ++ received))
    /\ NoDup (map fst (Drain.holding sf))
    /\ Forall (fun h => (fst h < kodo.workers d)%nat) (Drain.holding sf)
    /\ length (Invalidator.log (Drain.sys sf))
       = (length (Invalidator.log (Drain.sys s))
          + length (filter (fun ev => match ev with
                                       | EvGet _ (Some _) => true
                                       | _ => false
                                       end) evs))%nat.
Proof.
  induction schedule as [|m schedule IH]; intros s Hnd Hall.
  - cbn [Drain.run]. exists [], (remote (Invalidator.world (Drain.sys s))).
    rewrite extend_nil, !app_nil_r. cbn [Drain.requested flat_map app filter length].
    repeat split; auto.
  - cbn [Drain.run]. destruct (Drain.step d m s) as [s'|] eqn:Hstep; [|now apply IH].
    destruct m as [key|i|i]; cbn [Drain.step] in Hstep.
    + (* a send *)
      unfold Invalidator.send in Hstep.
      destruct (length (Invalidator.refreshCh (Drain.sys s)) <? kodo.refreshCh_cap d)%nat;
        [|discriminate].
      inversion Hstep; subst s'. clear Hstep.
      match goal with
      | |- context [Drain.run d schedule ?x] =>
          specialize (IH x Hnd Hall); destruct (Drain.run d schedule x) as [[sf sent] received]
      end.
      cbn [Drain.sys Drain.holding Invalidator.world Invalidator.refreshCh
           Invalidator.log] in IH.
      destruct IH as (evs & b' & Hw & Hev & Hq & Hperm & Hnd' & Hall' & Hlog).
      exists evs, b'. repeat split; try assumption.
      rewrite Hq. now rewrite <- app_assoc.
    + (* a receive *)
      destruct (Nat.ltb_spec i (kodo.workers d)) as [Hi|_]; [|discriminate].
      destruct (Drain.held i (Drain.holding s)) eqn:Hheld; [discriminate|].
      destruct (Invalidator.refreshCh (Drain.sys s)) as [|key rest] eqn:Hch;
        [discriminate|].
      inversion Hstep; subst s'. clear Hstep.
      match goal with
      | |- context [Drain.run d schedule ?x] =>
          specialize (IH x); destruct (Drain.run d schedule x) as [[sf sent] received]
      end.
      cbn [Drain.sys Drain.holding Invalidator.world Invalidator.refreshCh
           Invalidator.log] in IH.
      destruct IH as (evs & b' & Hw & Hev & Hq & Hperm & Hnd' & Hall' & Hlog).
      * rewrite map_app. cbn [map fst]. apply NoDup_app; [exact Hnd | | ].
        -- constructor; [intros [] | constructor].
        -- intros j Hj [Heq|[]]. subst j. now apply (held_none i (Drain.holding s)).
      * apply Forall_app. split; [exact Hall|]. constructor; [exact Hi | constructor].
      * exists evs, b'. repeat split; try assumption.
        -- cbn [app]. now rewrite Hq.
        -- rewrite Hperm, (map_app snd). cbn [map snd]. now rewrite <- app_assoc.
    + (* a request *)
      destruct (Drain.held i (Drain.holding s)) as [key|] eqn:Hheld; [|discriminate].
      destruct (refreshCacheNow_run key (Invalidator.world (Drain.sys s)))
        as (b & r & Hget & Hsnd & Hlines).
      destruct (Invalidator.refreshCacheNow d key (Invalidator.world (Drain.sys s)))
        as [[e lines] w]. cbn [fst snd] in Hsnd, Hlines. subst w.
      inversion Hstep; subst s'. clear Hstep.
      match goal with
      | |- context [Drain.run d schedule ?x] =>
          specialize (IH x); destruct (Drain.run d schedule x) as [[sf sent] received]
      end.
      cbn [Drain.sys Drain.holding Invalidator.world Invalidator.refreshCh
           Invalidator.log] in IH.
      destruct IH as (evs & b' & Hw & Hev & Hq & Hperm & Hnd' & Hall' & Hlog).
      * now apply release_NoDup.
      * rewrite Forall_forall in *. intros h Hin. apply Hall.
        now apply (release_incl i (Drain.holding s)).
      * exists (EvGet (Drain.refresh_url d key) r :: evs), b'. repeat split.
        -- rewrite Hw, extend_extend. reflexivity.
        -- constructor; [now eexists _, _ | exact Hev].
        -- exact Hq.
        -- cbn [Drain.requested flat_map app]. fold (Drain.requested evs).
           rewrite Hperm, !map_app.
           rewrite (Permutation_map (Drain.refresh_url d)
                      (held_release i (Drain.holding s) key Hheld)).
           reflexivity.
        -- exact Hnd'.
        -- exact Hall'.
        -- rewrite Hlog, length_app, Hlines. cbn [filter]. destruct r; simpl; lia.
Qed.

(** X17: under any schedule of sends, receives and requests, started with
    every worker waiting, the calls made are refresh requests only.  The
    keys leave the channel in the order they entered it: the keys taken
    off followed by the keys still on it are the keys that were on it
    followed by the keys sent.  Every key taken off is asked for once or
    still held by the worker that took it: the requests made, in whatever
    order the workers got to make them, together with the keys held are
    the keys taken off, each as often as it was taken off.  No more keys
    are held than there are workers, and one log line is written for each
    request that failed. *)
Theorem X17_keys_are_requested_once (schedule : list Drain.move)
  (s0 : @Invalidator.Sys B) :
  let '(sf, sent, received) := Drain.run d schedule (Drain.idle s0) in
  exists evs b',
    Invalidator.world (Drain.sys sf) = extend (Invalidator.world s0) b' evs
    /\ Forall (fun ev => exists url r, ev = EvGet url r) evs
    /\ received ++ Invalidator.refreshCh (Drain.sys sf)
       = Invalidator.refreshCh s0 ++ sent
    /\ Permutation
         (Drain.requested evs ++ map (Drain.refresh_url d) (map snd (Drain.holding sf)))
         (map (Drain.refresh_url d) received)
    /\ (length (Drain.holding sf) <= kodo.workers d)%nat
    /\ length (Invalidator.log (Drain.sys sf))
       = (length (Invalidator.log s0)
          + length (filter (fun ev => match ev with
                                       | EvGet _ (Some _) => true
                                       | _ => false
                                       end) evs))%nat.
Proof.
  pose proof (run_keeps_keys schedule (Drain.idle s0)) as Hrun.
  destruct (Drain.run d schedule (Drain.idle s0)) as [[sf sent] received].
  destruct Hrun as (evs & b' & Hw & Hev & Hq & Hperm & Hnd & Hall & Hlog);
    [constructor | constructor |].
  exists evs, b'. repeat split; try assumption.
  now apply holding_bounded.
Qed.

(** An iteration of a worker taken as one step is a receive followed at
    once by the request. *)
Lemma worker_iteration (i : nat) (s : Drain.Pool (B := B)) (q : @Invalidator.Sys B) :
  Drain.held i (Drain.holding s) = None ->
  Invalidator.step d (Invalidator.Work i) (Drain.sys s) = Some q ->
  exists s1,
    Drain.step d (Drain.Receive i) s = Some s1
    /\ Drain.step d (Drain.Request i) s1
       = Some {| Drain.sys := q; Drain.holding := Drain.holding s |}.
Proof.
  intros Hheld. cbn [Invalidator.step Drain.step]. rewrite Hheld.
  destruct (i <? kodo.workers d)%nat; [|discriminate].
  unfold Invalidator.refreshWorker.
  destruct (Invalidator.refreshCh (Drain.sys s)) as [|key rest]; [discriminate|].
  intros Hq. eexists. split; [reflexivity|]. cbn [Drain.holding Drain.sys].
  assert (Hh : forall hs, Drain.held i hs = None ->
               Drain.held i (hs ++ [(i, key)]) = Some key
               /\ Drain.release i (hs ++ [(i, key)]) = hs).
  { induction hs as [|[j k] hs IHhs]; cbn [app Drain.held Drain.release].
    - intros _. now rewrite Nat.eqb_refl.
    - destruct (j =? i)%nat; [discriminate|]. intros Hn.
      destruct (IHhs Hn) as (-> & ->). split; reflexivity. }
  destruct (Hh _ Hheld) as (-> & ->).
  cbn [Invalidator.world Invalidator.refreshCh Invalidator.log].
  destruct (Invalidator.refreshCacheNow d key (Invalidator.world (Drain.sys s)))
    as [[e lines] w].
  now inversion Hq.
Qed.

End DrainMore.

(** ** Configuration *)

Lemma ParseUint_FormatInt (n : Z) :
  config.ParseUint (strconv.FormatInt n)
  = if n <? 0 then inr config.ErrSyntax
    else if n <? 2 ^ 64 then inl n else inr config.ErrRange.
Proof.
  unfold config.ParseUint, strconv.FormatInt. destruct n as [|p|p].
  - reflexivity.
  - change (Z.pos p <? 0) with false. cbn iota.
    cbn [Z.to_int NilZero.string_of_int].
    rewrite NilZero.usu by apply DecimalPos.Unsigned.to_uint_nonnil.
    unfold Z.of_uint. rewrite DecimalPos.Unsigned.of_to. reflexivity.
  - change (Z.neg p <? 0) with true. cbn iota.
    cbn [Z.to_int NilZero.string_of_int NilZero.uint_of_string NilEmpty.uint_of_string].
    unfold uint_of_char.
    now destruct (NilEmpty.uint_of_string (NilZero.string_of_uint (Pos.to_uint p))).
Qed.

Section ConfigClaims.

Variable Quote : string -> string.

(** X18: [FromParameters] gives a driver only when each of bucket, baseurl,
    accesskey, secretkey, adminaccesskey, adminsecretkey, useruid and
    refreshurl is there, not nil and not printed as the empty string, and
    useruid is a decimal number below 2^64; the driver is the one [New]
    makes of these values.  When it gives an error, the error names a
    parameter of that list that is missing, or says that useruid is not
    such a number; a missing bucket is reported before anything else. *)
Theorem X18_FromParameters_required (params : config.parameters) :
  (forall x,
     config.FromParameters Quote params = Return (Ok x) ->
     Forall (fun name => config.getParameter params name <> "") config.required
     /\ exists uid,
          config.ParseUint (config.getParameter params "useruid") = inl uid
          /\ snd x
             = kodo.New
                 {| kodo.Zone := match params "zone" with
                                 | Some (config.Int z) => z
                                 | _ => 0
                                 end;
                    kodo.Bucket := config.getParameter params "bucket";
                    kodo.BaseURL := config.getParameter params "baseurl";
                    kodo.RootDirectory := config.getParameter params "rootdirectory";
                    kodo.UserUid := uid;
                    kodo.AdminAk := config.getParameter params "adminaccesskey";
                    kodo.AdminSk := config.getParameter params "adminsecretkey";
                    kodo.RefreshURL := config.getParameter params "refreshurl" |})
  /\ (forall e,
        config.FromParameters Quote params = Return (Err e) ->
        (exists name,
           In name config.required /\ config.getParameter params name = ""
           /\ e = Errorf ("No " ++ name ++ " parameter provided"))
        \/ (exists ne,
              config.ParseUint (config.getParameter params "useruid") = inr ne
              /\ e = Errorf ("useruid format err: "
                             ++ config.NumError_Error Quote "ParseUint"
                                  (config.getParameter params "useruid") ne)))
  /\ (config.getParameter params "bucket" = "" ->
      config.FromParameters Quote params
      = Return (Err (Errorf "No bucket parameter provided"))).
Proof.
  unfold config.FromParameters, config.missing, config.required.
  destruct (String.eqb_spec (config.getParameter params "bucket") "") as [H1|H1].
  { split; [discriminate|]. split; [|reflexivity].
    intros e [= <-]. left. exists "bucket". split; [simpl; tauto | split; [assumption | reflexivity]]. }
  destruct (String.eqb_spec (config.getParameter params "baseurl") "") as [H2|H2].
  { split; [discriminate|]. split; [|congruence].
    intros e [= <-]. left. exists "baseurl". split; [simpl; tauto | split; [assumption | reflexivity]]. }
  destruct (String.eqb_spec (config.getParameter params "accesskey") "") as [H3|H3].
  { split; [discriminate|]. split; [|congruence].
    intros e [= <-]. left. exists "accesskey". split; [simpl; tauto | split; [assumption | reflexivity]]. }
  destruct (String.eqb_spec (config.getParameter params "secretkey") "") as [H4|H4].
  { split; [discriminate|]. split; [|congruence].
    intros e [= <-]. left. exists "secretkey". split; [simpl; tauto | split; [assumption | reflexivity]]. }
  destruct (String.eqb_spec (config.getParameter params "adminaccesskey") "") as [H5|H5].
  { split; [discriminate|]. split; [|congruence].
    intros e [= <-]. left. exists "adminaccesskey". split; [simpl; tauto | split; [assumption | reflexivity]]. }
  destruct (String.eqb_spec (config.getParameter params "adminsecretkey") "") as [H6|H6].
  { split; [discriminate|]. split; [|congruence].
    intros e [= <-]. left. exists "adminsecretkey". split; [simpl; tauto | split; [assumption | reflexivity]]. }
  destruct (String.eqb_spec (config.getParameter params "useruid") "") as [H7|H7].
  { split; [discriminate|]. split; [|congruence].
    intros e [= <-]. left. exists "useruid". split; [simpl; tauto | split; [assumption | reflexivity]]. }
  destruct (config.ParseUint (config.getParameter params "useruid")) as [uid|ne] eqn:Hu.
  2:{ split; [discriminate|]. split; [|congruence].
      intros e [= <-]. right. now exists ne. }
  destruct (String.eqb_spec (config.getParameter params "refreshurl") "") as [H8|H8].
  { split; [discriminate|]. split; [|congruence].
    intros e [= <-]. left. exists "refreshurl". split; [simpl; tauto | split; [assumption | reflexivity]]. }
  split; [|split; [|congruence]].
  - intros x Hx. split; [repeat constructor; assumption|].
    exists uid. split; [reflexivity|].
    destruct (match params "uphosts" with
              | Some (config.Slice l) => config.strings_of l
              | _ => Some []
              end); [|discriminate].
    destruct (match params "redirect" with
              | Some (config.Slice l) => config.strings_of l
              | _ => Some []
              end); [|discriminate].
    now inversion Hx.
  - intros e He.
    destruct (match params "uphosts" with
              | Some (config.Slice l) => config.strings_of l
              | _ => Some []
              end); [|discriminate].
    destruct (match params "redirect" with
              | Some (config.Slice l) => config.strings_of l
              | _ => Some []
              end); discriminate.
Qed.

(** X19: a useruid given as an integer is taken as it is when it lies in
    [0, 2^64), and makes [FromParameters] fail when it is negative or
    2^64 and above. *)
Theorem X19_useruid_as_integer (params : config.parameters) (n : Z) :
  params "useruid" = Some (config.Int n) ->
  (0 <= n < 2 ^ 64 ->
   forall x, config.FromParameters Quote params = Return (Ok x) ->
             kodo.UserUid (kodo.params (snd x)) = n)
  /\ (n < 0 \/ 2 ^ 64 <= n ->
      forall x, config.FromParameters Quote params <> Return (Ok x)).
Proof.
  intros Hn.
  assert (Hget : config.getParameter params "useruid" = strconv.FormatInt n).
  { unfold config.getParameter. now rewrite Hn. }
  unfold config.FromParameters, config.missing.
  rewrite Hget, ParseUint_FormatInt.
  destruct (String.eqb (config.getParameter params "bucket") "");
    [split; intros; discriminate|].
  destruct (String.eqb (config.getParameter params "baseurl") "");
    [split; intros; discriminate|].
  destruct (String.eqb (config.getParameter params "accesskey") "");
    [split; intros; discriminate|].
  destruct (String.eqb (config.getParameter params "secretkey") "");
    [split; intros; discriminate|].
  destruct (String.eqb (config.getParameter params "adminaccesskey") "");
    [split; intros; discriminate|].
  destruct (String.eqb (config.getParameter params "adminsecretkey") "");
    [split; intros; discriminate|].
  destruct (String.eqb (strconv.FormatInt n) ""); [split; intros; discriminate|].
  destruct (Z.ltb_spec n 0) as [Hneg|Hpos]; [split; [lia | intros; discriminate]|].
  destruct (Z.ltb_spec n (2 ^ 64)) as [Hlt|Hge]; [|split; [lia | intros; discriminate]].
  split; [|lia]. intros _ x.
  destruct (String.eqb (config.getParameter params "refreshurl") ""); [discriminate|].
  destruct (match params "uphosts" with
            | Some (config.Slice l) => config.strings_of l
            | _ => Some []
            end); [|discriminate].
  destruct (match params "redirect" with
            | Some (config.Slice l) => config.strings_of l
            | _ => Some []
            end); [|discriminate].
  intros [= <-]. reflexivity.
Qed.

End ConfigClaims.

(** ** Redirect entries and [URLFor] *)

Lemma append_assoc (a b c : string) : ((a ++ b) ++ c)%string = (a ++ b ++ c)%string.
Proof. induction a as [|x a IH]; simpl; [reflexivity | now rewrite IH]. Qed.

Lemma Split_from_field (k : string) :
  forall rest cur,
  strings.IndexByte k ":" = false ->
  config.Split_from 0 (k ++ rest) "::" cur
  = config.Split_from 0 rest "::" (cur ++ k).
Proof.
  induction k as [|c k IH]; intros rest cur Hk.
  - simpl. now rewrite append_empty_r.
  - cbn [strings.IndexByte] in Hk.
    destruct (Ascii.eqb_spec c ":"%char) as [|Hc]; [discriminate|].
    change ((String c k ++ rest)%string) with (String c (k ++ rest)).
    cbn [config.Split_from].
    assert (Hp : String.prefix "::" (String c (k ++ rest)) = false).
    { cbn [String.prefix].
      destruct (ascii_dec ":"%char c) as [Heq|_]; [congruence | reflexivity]. }
    rewrite Hp. rewrite IH by exact Hk. now rewrite append_assoc.
Qed.

Lemma Split_plain (a : string) :
  strings.IndexByte a ":" = false -> config.Split a "::" = [a].
Proof.
  intros Ha. unfold config.Split.
  rewrite <- (append_empty_r a) at 1. rewrite Split_from_field by exact Ha.
  reflexivity.
Qed.

Lemma Split_pair (k v : string) :
  strings.IndexByte k ":" = false -> strings.IndexByte v ":" = false ->
  config.Split (k ++ "::" ++ v) "::" = [k; v].
Proof.
  intros Hk Hv. unfold config.Split. rewrite Split_from_field by exact Hk.
  change (("::" ++ v)%string) with (String ":"%char (String ":"%char v)).
  cbn [config.Split_from String.prefix String.length Nat.sub].
  replace (String.prefix "" v) with true by (now destruct v).
  cbn iota. fold (config.Split v "::").
  now rewrite (Split_plain v Hv).
Qed.

Lemma lookup_assign_other (key val other : string) (m : config.RedirectMap) :
  other <> key ->
  config.lookup other (config.assign key val m) = config.lookup other m.
Proof.
  intros Hne. unfold config.assign. cbn [config.lookup].
  destruct (String.eqb_spec key other) as [Heq|_]; [congruence|].
  induction m as [|[k v] m IH]; [reflexivity|]. cbn [filter fst].
  destruct (String.eqb_spec k key) as [->|Hk]; cbn [negb config.lookup].
  - destruct (String.eqb_spec key other) as [Heq|_]; [congruence | exact IH].
  - now rewrite IH.
Qed.

(** X20: a redirect entry "key::value" whose key and value have no colon
    sets the redirect of the key to the value, replacing an earlier one for
    the same key and leaving the other keys alone; an entry without a colon
    is passed over. *)
Theorem X20_redirect_entries (k v : string) (rest : list string)
  (m : config.RedirectMap) :
  strings.IndexByte k ":" = false -> strings.IndexByte v ":" = false ->
  config.redirects ((k ++ "::" ++ v)%string :: rest) m
  = config.redirects rest (config.assign k v m)
  /\ config.redirects (k :: rest) m = config.redirects rest m
  /\ config.lookup k (config.assign k v m) = Some v
  /\ (forall other, other <> k ->
        config.lookup other (config.assign k v m) = config.lookup other m).
Proof.
  intros Hk Hv. repeat split.
  - cbn [config.redirects]. now rewrite (Split_pair k v Hk Hv).
  - cbn [config.redirects]. now rewrite (Split_plain k Hk).
  - unfold config.assign. cbn [config.lookup]. now rewrite String.eqb_refl.
  - intros other Hne. now apply lookup_assign_other.
Qed.

Lemma first_redirect_some (h : string) (order : config.RedirectMap) (val : string) :
  config.first_redirect h order = Some val ->
  exists key, In (key, val) order /\ config.Contains h key = true.
Proof.
  induction order as [|[k v] order IH]; [discriminate|]. cbn [config.first_redirect].
  destruct (config.Contains h k) eqn:Hc.
  - intros [= <-]. exists k. split; [now left | exact Hc].
  - intros Hf. destruct (IH Hf) as (key & Hin & Hk). exists key. split; [now right | exact Hk].
Qed.

Lemma first_redirect_none (h : string) (order : config.RedirectMap) :
  config.first_redirect h order = None ->
  forall key val, In (key, val) order -> config.Contains h key = false.
Proof.
  induction order as [|[k v] order IH]; [intros _ key val []|].
  cbn [config.first_redirect]. destruct (config.Contains h k) eqn:Hc; [discriminate|].
  intros Hf key val [[= <- <-]|Hin]; [exact Hc | now apply (IH Hf key val)].
Qed.

Section URLForClaims.

Context {B : Type} `{Provider B}.
Variable d : kodo.driver.

(** X21: the URL [URLFor] gives does not depend on the order in which the
    redirect map is iterated, as long as the redirects whose key occurs in
    the host hint all lead to the same value. *)
Theorem X21_URLFor_iteration_order (order1 order2 : config.RedirectMap)
  (now : Z) (path : string) (options : config.Options) :
  (forall kv, In kv order1 <-> In kv order2) ->
  (forall h k1 v1 k2 v2,
     config.host options = Some h ->
     In (k1, v1) order1 -> In (k2, v2) order1 ->
     config.Contains h k1 = true -> config.Contains h k2 = true -> v1 = v2) ->
  config.URLFor d order1 now path options = config.URLFor d order2 now path options.
Proof.
  intros Hsame Huniq. unfold config.URLFor.
  destruct (config.host options) as [h|] eqn:Hh; [|reflexivity].
  assert (Heq : config.first_redirect h order1 = config.first_redirect h order2).
  { destruct (config.first_redirect h order1) as [v1|] eqn:H1;
    destruct (config.first_redirect h order2) as [v2|] eqn:H2; try reflexivity.
    - apply first_redirect_some in H1 as (k1 & Hin1 & Hc1).
      apply first_redirect_some in H2 as (k2 & Hin2 & Hc2).
      apply Hsame in Hin2. f_equal. now apply (Huniq h k1 v1 k2 v2).
    - apply first_redirect_some in H1 as (k1 & Hin1 & Hc1).
      apply Hsame in Hin1. rewrite (first_redirect_none h order2 H2 k1 v1 Hin1) in Hc1.
      discriminate.
    - apply first_redirect_some in H2 as (k2 & Hin2 & Hc2).
      apply Hsame in Hin2. rewrite (first_redirect_none h order1 H1 k2 v2 Hin2) in Hc2.
      discriminate. }
  now rewrite Heq.
Qed.

(** X22: without a host hint the URL is signed for the base URL followed by
    the key.  Its validity is the time left until the expiry asked for,
    taken modulo 2^32 seconds, when the expiry lies in the future, and the
    default of 3600 seconds when no expiry is given or when it does not lie
    in the future. *)
Theorem X22_URLFor_validity (order : config.RedirectMap) (now : Z) (path : string) :
  config.URLFor d order now path {| config.expiry := None; config.host := None |}
  = client_MakePrivateUrl (kodo.BaseURL (kodo.params d) ++ kodo.getKey d path)%string 3600
  /\ (forall t,
        0 < t - now < 2 ^ 63 ->
        config.URLFor d order now path {| config.expiry := Some t; config.host := None |}
        = client_MakePrivateUrl (kodo.BaseURL (kodo.params d) ++ kodo.getKey d path)%string
                                ((t - now) mod 2 ^ 32))
  /\ (forall t,
        - 2 ^ 63 <= t - now <= 0 ->
        config.URLFor d order now path {| config.expiry := Some t; config.host := None |}
        = client_MakePrivateUrl (kodo.BaseURL (kodo.params d) ++ kodo.getKey d path)%string
                                3600).
Proof.
  unfold config.URLFor. cbn [config.expiry config.host]. split; [reflexivity|]. split.
  - intros t Ht. rewrite wrap64_small by lia.
    destruct (Z.ltb_spec 0 (t - now)) as [_|Hle]; [reflexivity | lia].
  - intros t Ht. rewrite wrap64_small by lia.
    destruct (Z.ltb_spec 0 (t - now)) as [Hlt|_]; [lia | reflexivity].
Qed.

End URLForClaims.

(** ** The writer on a local file *)

Section LocalFileClaims.

Context {F : Type} `{fileWriter.LocalFile F}.

(** X23: [Commit] on a session without a terminal flag flushes, syncs and
    uploads, in that order, and goes no further than the first of the three
    that fails: it returns the error of that step and leaves the session
    as it was.  When all three went through it sets [committed], starts
    the removal of the local file and returns nil.  So it returns nil
    exactly when it has set [committed]; it never changes the size and
    never closes the file. *)
Theorem X23_fileWriter_Commit_steps (fw : fileWriter.t) (st : fileWriter.State F)
  (d1 d2 d3 : F) (e1 e2 e3 : option error) :
  fileWriter.closed fw = false -> fileWriter.committed fw = false ->
  fileWriter.cancelled fw = false ->
  fileWriter.bw_Flush (fileWriter.disk st) = (d1, e1) ->
  fileWriter.file_Sync d1 = (d2, e2) ->
  fileWriter.driver_upload d2 (fileWriter.kodoKey fw) = (d3, e3) ->
  fileWriter.Commit fw st
  = match e1, e2, e3 with
    | Some e, _, _ =>
        (Some e, fw,
         {| fileWriter.disk := d1;
            fileWriter.did := fileWriter.did st ++ [fileWriter.OpFlush] |})
    | None, Some e, _ =>
        (Some e, fw,
         {| fileWriter.disk := d2;
            fileWriter.did := fileWriter.did st
                              ++ [fileWriter.OpFlush; fileWriter.OpSync] |})
    | None, None, Some e =>
        (Some e, fw,
         {| fileWriter.disk := d3;
            fileWriter.did := fileWriter.did st
                              ++ [fileWriter.OpFlush; fileWriter.OpSync;
                                  fileWriter.OpUpload (fileWriter.kodoKey fw)] |})
    | None, None, None =>
        (None,
         {| fileWriter.kodoKey := fileWriter.kodoKey fw;
            fileWriter.size := fileWriter.size fw;
            fileWriter.closed := false; fileWriter.committed := true;
            fileWriter.cancelled := false |},
         {| fileWriter.disk := d3;
            fileWriter.did := fileWriter.did st
                              ++ [fileWriter.OpFlush; fileWriter.OpSync;
                                  fileWriter.OpUpload (fileWriter.kodoKey fw);
                                  fileWriter.OpGoRemove] |})
    end
  /\ (let '(r, fw', st') := fileWriter.Commit fw st in
      (r = None <-> fileWriter.committed fw' = true)
      /\ fileWriter.size fw' = fileWriter.size fw
      /\ exists ops,
           fileWriter.did st' = fileWriter.did st ++ ops
           /\ ~ In fileWriter.OpClose ops).
Proof.
  intros Hc Hm Hx Hflush Hsync Hup.
  assert (Hrun : fileWriter.Commit fw st
                 = match e1, e2, e3 with
                   | Some e, _, _ =>
                       (Some e, fw,
                        {| fileWriter.disk := d1;
                           fileWriter.did := fileWriter.did st ++ [fileWriter.OpFlush] |})
                   | None, Some e, _ =>
                       (Some e, fw,
                        {| fileWriter.disk := d2;
                           fileWriter.did := fileWriter.did st
                                             ++ [fileWriter.OpFlush; fileWriter.OpSync] |})
                   | None, None, Some e =>
                       (Some e, fw,
                        {| fileWriter.disk := d3;
                           fileWriter.did :=
                             fileWriter.did st
                             ++ [fileWriter.OpFlush; fileWriter.OpSync;
                                 fileWriter.OpUpload (fileWriter.kodoKey fw)] |})
                   | None, None, None =>
                       (None,
                        {| fileWriter.kodoKey := fileWriter.kodoKey fw;
                           fileWriter.size := fileWriter.size fw;
                           fileWriter.closed := false; fileWriter.committed := true;
                           fileWriter.cancelled := false |},
                        {| fileWriter.disk := d3;
                           fileWriter.did :=
                             fileWriter.did st
                             ++ [fileWriter.OpFlush; fileWriter.OpSync;
                                 fileWriter.OpUpload (fileWriter.kodoKey fw);
                                 fileWriter.OpGoRemove] |})
                   end).
  { unfold fileWriter.Commit, fileWriter.step. rewrite Hc, Hm, Hx, Hflush.
    destruct e1 as [e|]; [reflexivity|]. cbn [fileWriter.disk fileWriter.did].
    rewrite Hsync. destruct e2 as [e|]; [now rewrite <- app_assoc|].
    cbn [fileWriter.disk fileWriter.did]. rewrite Hup.
    destruct e3 as [e|]; cbn [fileWriter.disk fileWriter.did]; rewrite ?Hc, ?Hx;
      now rewrite <- !app_assoc. }
  split; [exact Hrun|]. rewrite Hrun.
  destruct e1 as [e|]; [|destruct e2 as [e|]; [|destruct e3 as [e|]]].
  - split; [rewrite Hm; split; discriminate|]. split; [reflexivity|].
    eexists. split; [reflexivity|]. intros [Hin|[]]; discriminate.
  - split; [rewrite Hm; split; discriminate|]. split; [reflexivity|].
    eexists. split; [reflexivity|]. intros [Hin|[Hin|[]]]; discriminate.
  - split; [rewrite Hm; split; discriminate|]. split; [reflexivity|].
    eexists. split; [reflexivity|]. intros [Hin|[Hin|[Hin|[]]]]; discriminate.
  - split; [split; reflexivity|]. split; [reflexivity|].
    eexists. split; [reflexivity|]. intros [Hin|[Hin|[Hin|[Hin|[]]]]]; discriminate.
Qed.

(** X24: [Cancel] of the local-file writer is turned away only by [closed]:
    on a session that is not closed, a committed one included, it sets
    [cancelled], closes the file without looking at the outcome, removes the
    file and returns what the removal returned.  [Write] on an open session
    adds to the size the number of bytes the buffered writer reports, also
    when the write failed. *)
Theorem X24_fileWriter_Cancel_and_Write (fw : fileWriter.t) (st : fileWriter.State F) :
  fileWriter.closed fw = false ->
  (let '(r, fw', st') := fileWriter.Cancel fw st in
   fileWriter.did st' = fileWriter.did st ++ [fileWriter.OpClose; fileWriter.OpRemove]
   /\ fileWriter.cancelled fw' = true
   /\ fileWriter.committed fw' = fileWriter.committed fw
   /\ r = snd (fileWriter.os_Remove (fst (fileWriter.file_Close (fileWriter.disk st)))))
  /\ (forall p,
        fileWriter.committed fw = false -> fileWriter.cancelled fw = false ->
        let '(r, fw', st') := fileWriter.Write fw p st in
        r = snd (fileWriter.bw_Write (fileWriter.disk st) p)
        /\ fileWriter.size fw' = int64_add (fileWriter.size fw) (fst r)
        /\ fileWriter.did st' = fileWriter.did st ++ [fileWriter.OpWrite p]).
Proof.
  intros Hc. split.
  - unfold fileWriter.Cancel, fileWriter.step. rewrite Hc.
    destruct (fileWriter.file_Close (fileWriter.disk st)) as [d1 e1]; cbn.
    destruct (fileWriter.os_Remove d1) as [d2 e2]; cbn.
    rewrite <- app_assoc. repeat split.
  - intros p Hm Hx. unfold fileWriter.Write, fileWriter.step. rewrite Hc, Hm, Hx.
    destruct (fileWriter.bw_Write (fileWriter.disk st) p) as [d1 r]; cbn.
    repeat split.
Qed.

End LocalFileClaims.

(** ** The request of [Reader] *)

Section ReaderMore.

Context {B : Type} `{Provider B}.
Variable d : kodo.driver.

(** X25: [Reader] signs the base URL followed by the key for 3600 seconds.
    When no request can be made for that URL it returns the error without
    calling the provider.  Otherwise it makes one call, a GET of that URL,
    with the header Range "bytes=offset-" when the offset is above 0 and
    without a Range header when it is 0 or below; an error of the call is
    returned as it came. *)
Theorem X25_Reader_request (path : string) (offset : Z) (st : World B) :
  let url := client_MakePrivateUrl (kodo.BaseURL (kodo.params d) ++ kodo.getKey d path)%string
                                   3600 in
  (forall e, http_NewRequest "GET" url = Some e ->
             kodo.Reader d path offset st = (Err (Sdk e), st))
  /\ (http_NewRequest "GET" url = None ->
      exists req b' r,
        client_Do (remote st) req = (b', r)
        /\ snd (kodo.Reader d path offset st) = extend st b' [EvDo req r]
        /\ Method req = "GET" /\ URL req = url
        /\ (0 < offset ->
            Range req = Some ("bytes=" ++ strconv.FormatInt offset ++ "-")%string)
        /\ (offset <= 0 -> Range req = None)
        /\ (forall e, r = inr e -> fst (kodo.Reader d path offset st) = Err (Sdk e))).
Proof.
  intros url. unfold kodo.Reader. change kodo.defaultExpiry with 3600. fold url. split.
  - intros e He. now rewrite He.
  - intros Hreq. rewrite Hreq. unfold bind, kodo.call_Do.
    match goal with
    | |- context [client_Do (remote st) ?q] =>
        exists q; destruct (client_Do (remote st) q) as [b' r] eqn:Hdo
    end.
    exists b', r. split; [reflexivity|]. split.
    + destruct r as [resp|e]; [destruct (StatusCode resp =? 404)|]; reflexivity.
    + cbn [Method URL Range]. repeat split.
      * intros Hpos. apply Z.ltb_lt in Hpos. now rewrite Hpos.
      * intros Hle. destruct (Z.ltb_spec 0 offset) as [Hlt|_]; [lia | reflexivity].
      * intros e ->. reflexivity.
Qed.

End ReaderMore.

(** ** Further concrete runs *)

(** The directory "/docker/registry" of a driver with root "/". *)
Lemma X3_witness :
  Spec.directory_path Example.d0 (Spec.root_prefix Example.d0)
    (kodo.getKey Example.d0 "/docker/registry" ++ "/")%string
  = "/docker/registry".
Proof.
  exact (proj2 (X3_listed_path_is_the_path_stored Example.d0 "docker/registry" eq_refl)).
Defined.

(** Listing "/dir" and "/dir/" on a store with nothing in it. *)
Lemma X5_witness :
  snd (kodo.List Example.d0 1 ("/dir" ++ "/") Example.quiet)
  = snd (kodo.List Example.d0 1 "/dir" Example.quiet).
Proof.
  refine (proj1 (X5_List_trailing_slash Example.d0 1 "/dir" Example.quiet _ _));
    [discriminate | reflexivity].
Defined.

(** With only the key "blob" stored, the path "/blo" is a directory. *)
Lemma X6_witness :
  kodo.Stat Example.d0 "/blo" Example.stored
  = (Ok {| kodo.Path := "/blo"; kodo.Size := 0; kodo.ModTime := None;
           kodo.IsDir := true |},
     extend Example.stored Scripted.empty
       [EvList "blo" "" "" 1
          {| entries := [Example.item "blob" 5]; commonPrefixes := [];
             markerOut := ""; listErr := Some io_EOF |}]).
Proof.
  refine (proj2 (X6_Stat_file_or_directory Example.d0 "/blo" Example.stored
                   _ _ Scripted.empty (Example.item "blob" 5) [] _ _ _) _).
  - apply Spec.attempts_once; [reflexivity|]. intros [m Hm]; discriminate.
  - right; reflexivity.
  - reflexivity.
  - discriminate.
Defined.

(** Opening for append while the list call fails with code 612. *)
Lemma X7_witness :
  fst (kodo.Writer Example.d0 "/blob" true Example.listing_612)
  = Err (Sdk (ErrorInfo 612 "no such file or directory")).
Proof.
  apply (proj2 (X7_Writer_fails_only_with_the_listing Example.d0 "/blob"
                  Example.listing_612)).
  eexists _, _, Scripted.empty, _. split; [|split; [|reflexivity]].
  - apply Spec.attempts_once; [reflexivity|]. intros [m Hm]; discriminate.
  - split; [reflexivity | discriminate].
Defined.

(** A move the provider accepts. *)
Lemma X8_witness :
  fst (kodo.Move Example.d0 "/blob" "/copy" Example.quiet) = None.
Proof.
  refine (proj1 (proj1 (proj2 (X8_Move_one_call Example.d0 "/blob" "/copy"
                                 Example.quiet Scripted.empty None _))) _);
    reflexivity.
Defined.

(** Commit, then Cancel, then Close: committed, closed, never cancelled. *)
Lemma X11_witness :
  kodo.committed
    (snd (fst (kodo.session Example.d0 1
                 [kodo.CallCommit; kodo.CallCancel; kodo.CallClose]
                 (kodo.newFileWriter "/blob" 0) Example.quiet)))
  && kodo.cancelled
       (snd (fst (kodo.session Example.d0 1
                    [kodo.CallCommit; kodo.CallCancel; kodo.CallClose]
                    (kodo.newFileWriter "/blob" 0) Example.quiet)))
  = false.
Proof.
  apply (X11_session_flags_only_grow Example.d0 1
           [kodo.CallCommit; kodo.CallCancel; kodo.CallClose]
           (kodo.newFileWriter "/blob" 0) Example.quiet).
  reflexivity.
Defined.

(** After a failed upload: a write, a commit and a close all fail. *)
Lemma X12_witness :
  let '(rs, wf, st') :=
    kodo.session Example.d0 1
      [kodo.CallWrite kodo.Reading [Byte.x01]; kodo.CallCommit; kodo.CallClose]
      (kodo.joined Example.streaming (Some (Sdk (net_error "connection reset"))))
      Example.quiet in
  kodo.err wf = Some (Sdk (net_error "connection reset"))
  /\ kodo.closed wf = false /\ kodo.committed wf = false
  /\ kodo.size wf = 2
  /\ Forall2 (fun c r => c = kodo.CallCancel \/ Spec.failed r)
             [kodo.CallWrite kodo.Reading [Byte.x01]; kodo.CallCommit; kodo.CallClose] rs
  /\ (Forall (fun c => c <> kodo.CallCancel)
             [kodo.CallWrite kodo.Reading [Byte.x01]; kodo.CallCommit; kodo.CallClose] ->
      st' = Example.quiet).
Proof.
  exact (X12_upload_failure_is_final Example.d0 1
           [kodo.CallWrite kodo.Reading [Byte.x01]; kodo.CallCommit; kodo.CallClose]
           (kodo.joined Example.streaming (Some (Sdk (net_error "connection reset"))))
           Example.quiet (Sdk (net_error "connection reset")) eq_refl eq_refl).
Defined.

(** A session resumed at offset 5: a write of one byte is taken, a write of
    two bytes finds the upload failed, and the session is closed. *)
Lemma X13_witness :
  let '(rs, wf, _) :=
    kodo.session Example.d0 1
      [kodo.CallWrite kodo.Reading [Byte.x01];
       kodo.CallWrite kodo.Returned [Byte.x02; Byte.x03]; kodo.CallClose]
      (kodo.newFileWriter "/blob" 5) Example.upload_fails in
  kodo.size wf
  = kodo.size (kodo.newFileWriter "/blob" 5)
    + len (Spec.accepted
             [kodo.CallWrite kodo.Reading [Byte.x01];
              kodo.CallWrite kodo.Returned [Byte.x02; Byte.x03]; kodo.CallClose] rs)
  /\ len (Spec.accepted
            [kodo.CallWrite kodo.Reading [Byte.x01];
             kodo.CallWrite kodo.Returned [Byte.x02; Byte.x03]; kodo.CallClose] rs)
     <= len (Spec.submitted
               [kodo.CallWrite kodo.Reading [Byte.x01];
                kodo.CallWrite kodo.Returned [Byte.x02; Byte.x03]; kodo.CallClose]).
Proof.
  refine (X13_size_counts_the_bytes_written Example.d0 1
            [kodo.CallWrite kodo.Reading [Byte.x01];
             kodo.CallWrite kodo.Returned [Byte.x02; Byte.x03]; kodo.CallClose]
            (kodo.newFileWriter "/blob" 5) Example.upload_fails _ _).
  - simpl. lia.
  - vm_compute. reflexivity.
Defined.

(** That session ends with size 6: the two bytes of the second write do not
    count. *)
Lemma size_after_early_failure :
  kodo.size (snd (fst (kodo.session Example.d0 1
                         [kodo.CallWrite kodo.Reading [Byte.x01];
                          kodo.CallWrite kodo.Returned [Byte.x02; Byte.x03];
                          kodo.CallClose]
                         (kodo.newFileWriter "/blob" 5) Example.upload_fails)))
  = 6.
Proof. reflexivity. Qed.

(** Cancelling a running session whose upload fails, on a store that lists
    nothing. *)
Lemma X14_witness :
  fst (fst (kodo.Cancel Example.d0 1 Example.streaming Example.upload_fails))
  = Return (Some (PathNotFoundError "/blob" kodo.driverName)).
Proof.
  refine (proj2 (proj2 (proj2 (proj2
            (X14_Cancel_uploads_then_deletes Example.d0 1 Example.streaming
               [Byte.x01; Byte.x02] Example.upload_fails Scripted.empty
               (Some (net_error "connection reset")) _ _ _ _ _))))
            [EvList "blob" "" "" 1000 Scripted.end_of_list] Scripted.end_of_list
            Scripted.empty _ _ _ _); try reflexivity.
  - apply Spec.attempts_once; [reflexivity|]. intros [m Hm]; discriminate.
  - right; reflexivity.
  - discriminate.
Defined.

(** The same on a store that takes the upload and then lists nothing: the
    line for the log is made of a nil error. *)
Lemma Cancel_after_upload_panics :
  fst (fst (kodo.Cancel Example.d0 1 Example.streaming Example.quiet))
  = Panic "runtime error: invalid memory address or nil pointer dereference".
Proof. reflexivity. Qed.

(** Two writes and a commit on a session whose upload has failed. *)
Lemma X26_witness :
  kodo.session Example.d0 1
    (Spec.writes [(kodo.Reading, [Byte.x02]); (kodo.Returns 1, [Byte.x03; Byte.x04])])
    Example.abandoned Example.quiet
  = ([Return (Some (Sdk (net_error "connection reset")));
      Return (Some (Sdk (net_error "connection reset")))],
     Example.abandoned, Example.quiet)
  /\ kodo.Commit Example.d0 Example.abandoned Example.quiet
     = ((Some (Sdk (net_error "connection reset")),
         kodo.joined Example.abandoned (Some (Sdk (net_error "connection reset")))),
        Example.quiet).
Proof.
  destruct (X26_no_write_after_the_upload_returned Example.d0 1
              [(kodo.Reading, [Byte.x02]); (kodo.Returns 1, [Byte.x03; Byte.x04])]
              Example.abandoned [Byte.x01] Example.quiet)
    as (Hs & _ & Hend).
  - repeat split.
  - reflexivity.
  - reflexivity.
  - split; [exact Hs|]. exact (proj2 (Hend _ eq_refl)).
Defined.

(** The part list of a session resumed at offset 5. *)
Lemma X15_witness :
  exists entries,
    [ {| part.Type_ := "copy"; part.Crc32 := 0; part.StorageFile := "blob";
         part.Range := "0-5" |};
      {| part.Type_ := "direct"; part.Crc32 := 0; part.StorageFile := "";
         part.Range := "" |} ] = [] ++ entries
    /\ Forall2 Assembly.describes
               (kodo.background_parts "blob" 5 [Byte.x01; Byte.x02]) entries.
Proof.
  exact (proj2 (X15_part_list_follows_the_parts
                  (fun _ => Err (Errorf "no such file or directory")) (fun _ => 0)
                  (fun _ => None) (fun _ => None) (fun _ => None) (fun _ _ => None)
                  (kodo.background_parts "blob" 5 [Byte.x01; Byte.x02])
                  {| kodocli.MimeType := ""; kodocli.Parts := [] |} 0
                  {| kodocli.MimeType := "";
                     kodocli.Parts :=
                       [ {| part.Type_ := "copy"; part.Crc32 := 0;
                            part.StorageFile := "blob"; part.Range := "0-5" |};
                         {| part.Type_ := "direct"; part.Crc32 := 0;
                            part.StorageFile := ""; part.Range := "" |} ] |}
                  eq_refl)).
Defined.

(** A copy of the range [5, 0) ahead of the parts of a session. *)
Lemma X16_witness :
  kodocli.copyMultipart_parts
    (fun _ => Err (Errorf "no such file or directory")) (fun _ => 0)
    (fun _ => None) (fun _ => None) (fun _ => None) (fun _ _ => None)
    {| kodocli.MimeType := ""; kodocli.Parts := [] |} 0
    ([] ++ {| PutPart.FileName := ""; PutPart.R := None; PutPart.Crc32 := 0;
              PutPart.CheckCrc := false; PutPart.Key := "blob";
              PutPart.From := 5; PutPart.To := 0 |}
        :: kodo.background_parts "blob" 0 [Byte.x01])
  = Err (Errorf "invalid from&to argument").
Proof.
  refine (X16_bad_copy_range_fails_the_put
            (fun _ => Err (Errorf "no such file or directory")) (fun _ => 0)
            (fun _ => None) (fun _ => None) (fun _ => None) (fun _ _ => None) [] _ _
            _ {| kodocli.MimeType := ""; kodocli.Parts := [] |} 0 eq_refl _).
  repeat split; simpl; try discriminate; lia.
Defined.

(** Two keys and two workers: the worker that took the second key off the
    channel makes its request first. *)
Lemma requests_can_overtake :
  let '(sf, sent, received) :=
    Drain.run Example.d0
      [Drain.Send "a"; Drain.Send "b"; Drain.Receive 0; Drain.Receive 1;
       Drain.Request 1; Drain.Request 0]
      (Drain.idle (Example.waiting 0)) in
  sent = ["a"; "b"] /\ received = ["a"; "b"]
  /\ Drain.requested (trace (Invalidator.world (Drain.sys sf)))
     = [Drain.refresh_url (B := Scripted.t) Example.d0 "b";
        Drain.refresh_url (B := Scripted.t) Example.d0 "a"].
Proof. vm_compute. repeat split. Qed.

(** No parameter at all: the bucket is asked for first. *)
Lemma X18_witness :
  config.FromParameters (fun s => s) (fun _ => None)
  = Return (Err (Errorf "No bucket parameter provided")).
Proof.
  exact (proj2 (proj2 (X18_FromParameters_required (fun s => s) (fun _ => None))) eq_refl).
Defined.

(** A useruid given as the integer 7. *)
Lemma X19_witness :
  exists x,
    config.FromParameters (fun s => s)
      (fun name => if String.eqb name "useruid" then Some (config.Int 7)
                   else Some (config.Str "x"))
    = Return (Ok x)
    /\ kodo.UserUid (kodo.params (snd x)) = 7.
Proof.
  eexists. split; [vm_compute; reflexivity|].
  refine (proj1 (X19_useruid_as_integer (fun s => s)
                   (fun name => if String.eqb name "useruid" then Some (config.Int 7)
                                else Some (config.Str "x")) 7 eq_refl) _ _ _).
  - lia.
  - vm_compute. reflexivity.
Defined.

(** The redirect entry "cdn::edge". *)
Lemma X20_witness :
  config.redirects [("cdn" ++ "::" ++ "edge")%string] []
  = config.redirects [] (config.assign "cdn" "edge" []).
Proof.
  exact (proj1 (X20_redirect_entries "cdn" "edge" [] [] eq_refl eq_refl)).
Defined.

(** Two redirects of which the host hint contains one key only. *)
Lemma X21_witness :
  config.URLFor Example.d0 [("cdn", "http://edge/"); ("mirror", "http://m/")] 0 "/blob"
    {| config.expiry := None; config.host := Some "cdn.example" |}
  = config.URLFor Example.d0 [("mirror", "http://m/"); ("cdn", "http://edge/")] 0 "/blob"
      {| config.expiry := None; config.host := Some "cdn.example" |}.
Proof.
  apply (X21_URLFor_iteration_order (B := Scripted.t)).
  - intros kv. simpl. tauto.
  - intros h k1 v1 k2 v2 [= <-] H1 H2 C1 C2. simpl in H1, H2.
    destruct H1 as [[= <- <-]|[[= <- <-]|[]]]; destruct H2 as [[= <- <-]|[[= <- <-]|[]]];
      try reflexivity; vm_compute in C1, C2; discriminate.
Defined.

(** An expiry sixty seconds from now. *)
Lemma X22_witness :
  config.URLFor Example.d0 [] 1000 "/blob"
    {| config.expiry := Some 1060; config.host := None |}
  = client_MakePrivateUrl (Provider := Scripted.provider)
      (kodo.BaseURL (kodo.params Example.d0) ++ kodo.getKey Example.d0 "/blob")%string
      ((1060 - 1000) mod 2 ^ 32).
Proof.
  refine (proj1 (proj2 (X22_URLFor_validity (B := Scripted.t) Example.d0 [] 1000 "/blob"))
            1060 _).
  lia.
Defined.

(** A commit whose upload fails after a good flush and sync. *)
Lemma X23_witness :
  fileWriter.Commit (fileWriter.newFileWriter "blob" 0)
    {| fileWriter.disk := Some 2%nat; fileWriter.did := [] |}
  = (Some (Errorf "input/output error"), fileWriter.newFileWriter "blob" 0,
     {| fileWriter.disk := (None : fileWriter.failing);
        fileWriter.did := [fileWriter.OpFlush; fileWriter.OpSync;
                           fileWriter.OpUpload "blob"] |}).
Proof.
  exact (proj1 (X23_fileWriter_Commit_steps (fileWriter.newFileWriter "blob" 0)
                  {| fileWriter.disk := Some 2%nat; fileWriter.did := [] |}
                  (Some 1%nat) (Some 0%nat) None
                  None None (Some (Errorf "input/output error"))
                  eq_refl eq_refl eq_refl eq_refl eq_refl eq_refl)).
Defined.

(** Cancelling a committed session of the local-file writer. *)
Lemma X24_witness :
  let '(r, fw', st') :=
    fileWriter.Cancel
      {| fileWriter.kodoKey := "blob"; fileWriter.size := 3; fileWriter.closed := false;
         fileWriter.committed := true; fileWriter.cancelled := false |}
      {| fileWriter.disk := (None : fileWriter.failing); fileWriter.did := [] |} in
  fileWriter.did st' = [] ++ [fileWriter.OpClose; fileWriter.OpRemove]
  /\ fileWriter.cancelled fw' = true
  /\ fileWriter.committed fw' = true
  /\ r = None.
Proof.
  exact (proj1 (X24_fileWriter_Cancel_and_Write
                  {| fileWriter.kodoKey := "blob"; fileWriter.size := 3;
                     fileWriter.closed := false; fileWriter.committed := true;
                     fileWriter.cancelled := false |}
                  {| fileWriter.disk := (None : fileWriter.failing);
                     fileWriter.did := [] |} eq_refl)).
Defined.

(** Reading from offset 10. *)
Lemma X25_witness :
  exists req b' r,
    client_Do (remote (Example.answering 206)) req = (b', r)
    /\ snd (kodo.Reader Example.d0 "/blob" 10 (Example.answering 206))
       = extend (Example.answering 206) b' [EvDo req r]
    /\ Method req = "GET"
    /\ URL req = "http://io.example/blob"
    /\ Range req = Some "bytes=10-".
Proof.
  assert (Hreq : http_NewRequest (Provider := Scripted.provider) "GET"
                   (client_MakePrivateUrl (Provider := Scripted.provider)
                      (kodo.BaseURL (kodo.params Example.d0)
                       ++ kodo.getKey Example.d0 "/blob")%string 3600) = None)
    by reflexivity.
  destruct (proj2 (X25_Reader_request Example.d0 "/blob" 10 (Example.answering 206))
              Hreq)
    as (req & b' & r & Hdo & Hsnd & Hm & Hu & Hpos & _).
  exists req, b', r. repeat split; try assumption.
  apply Hpos. lia.
Defined.
